(** * DRAM-backed VGA framebuffer controller (retro_junk_junkbox)

    Shallow embedding of the Arduino sketches that drive an MSM514262
    multiport DRAM as a VGA framebuffer, and of the stand-alone DRAM
    test sketches:

    - [Avr]        : the port registers both framebuffer sketches drive;
    - [Fb8Fix]     : [mega_edo_fb8_320x240_fix.ino] (update ring, drain,
                     DRAM access, line and frame interrupt handlers);
    - [Fp6]        : [mega_edo_fp6.ino] (linear update buffer variant);
    - [Msm514262]  : [unnamed/part_002] (pin-level write and read cycles);
    - [Opt511000]  : [dram/511000_opt.ino] (time-based refresh).

    Machine integers are [Z] with the wrap-around of their C type written
    out ([u8], [u16], [u32], [s16]); on the AVR target [int] is 16 bits
    wide and [unsigned long] is 32 bits wide.  Global [volatile] variables
    become fields of an explicit state record that every function threads.
    The framebuffer sketches act on the DRAM through port registers only;
    their DRAM functions are embedded as the stores they make to these
    registers, in program order.  Busy-wait delays ([nop],
    [delayMicroseconds]) carry no state and are left out. *)

From stdpp Require Import gmap list.

Local Open Scope Z_scope.

(** ** Machine integers *)

Definition u8 (n : Z) : Z := n mod 2 ^ 8.
Definition u16 (n : Z) : Z := n mod 2 ^ 16.
Definition u32 (n : Z) : Z := n mod 2 ^ 32.
(** Two's-complement 16-bit [int] of the AVR. *)
Definition s16 (n : Z) : Z := (n + 2 ^ 15) mod 2 ^ 16 - 2 ^ 15.

(** ** The DRAM array *)

(** Modelled from the spec: the DRAM array of the chip model of
    [unnamed/part_002] below, which is hardware outside the sketches.  A
    cell is addressed by [(row, col)] and holds one 4-bit value; a cell
    never written since power-up has no known content ([None]). *)
Abbreviation cells := (gmap (Z * Z) Z).

Definition nibble (v : Z) : Z := Z.land v 15.

(** * The port registers that the framebuffer sketches drive

    Both framebuffer sketches reach the DRAM through the same registers
    of the ATmega2560: [DDRA] and [PORTA] for the data lines, [PORTD],
    [PORTL] and [PORTC] for the address and control lines. *)

Module Avr.

(** The three 8-bit ports that carry the address lines; [PORTL] also
    carries RAS (bit 3) and CAS (bit 4), [PORTC] also WE, OE and SE. *)
Record ports := mkPorts {
  PORTD : Z;
  PORTL : Z;
  PORTC : Z
}.

Inductive register := RegDDRA | RegPORTA | RegPORTC | RegPORTD | RegPORTL.

#[export] Instance register_eq_dec : EqDecision register.
Proof. solve_decision. Defined.

(** A call of the write function with its arguments [row], [col] and
    [color], or of the row transfer function with its argument [row]. *)
Inductive call :=
  | WriteCall (row col color : Z)
  | TransferCall (row : Z).

(** The DRAM as the sketch acts on it: the current values of the five
    registers, every store made to one of them (register and value
    stored, oldest first), and the calls of the write and transfer
    functions made so far (oldest first).  The chip itself is hardware
    and sees the registers only. *)
Record dram_bus := mkBus {
  regs : ports;
  PORTA : Z;
  DDRA : Z;
  stores : list (register * Z);
  calls : list call
}.

(** The registers at reset. *)
Definition reset : dram_bus := mkBus (mkPorts 0 0 0) 0 0 [] [].

Definition read (r : register) (b : dram_bus) : Z :=
  match r with
  | RegDDRA => DDRA b
  | RegPORTA => PORTA b
  | RegPORTC => PORTC (regs b)
  | RegPORTD => PORTD (regs b)
  | RegPORTL => PORTL (regs b)
  end.

(** A store to a register ([out], or an assignment in C). *)
Definition store (r : register) (v : Z) (b : dram_bus) : dram_bus :=
  mkBus
    (match r with
     | RegPORTC => mkPorts (PORTD (regs b)) (PORTL (regs b)) v
     | RegPORTD => mkPorts v (PORTL (regs b)) (PORTC (regs b))
     | RegPORTL => mkPorts (PORTD (regs b)) v (PORTC (regs b))
     | _ => regs b
     end)
    (match r with RegPORTA => v | _ => PORTA b end)
    (match r with RegDDRA => v | _ => DDRA b end)
    (stores b ++ [(r, v)])
    (calls b).

(** [cbi] and [sbi], and the macros [CLEAR_BIT] and [SET_BIT]: one bit of
    a register is cleared or set, the others keep their value. *)
Definition cbi (r : register) (bit : Z) (b : dram_bus) : dram_bus :=
  store r (Z.clearbit (read r b) bit) b.

Definition sbi (r : register) (bit : Z) (b : dram_bus) : dram_bus :=
  store r (Z.setbit (read r b) bit) b.

Definition log_call (c : call) (b : dram_bus) : dram_bus :=
  mkBus (regs b) (PORTA b) (DDRA b) (stores b) (calls b ++ [c]).

(** What the hardware can observe of the sketch: the registers and the
    stores made to them. *)
Definition driven (b : dram_bus) : ports * Z * Z * list (register * Z) :=
  (regs b, PORTA b, DDRA b, stores b).

End Avr.

(** * mega_edo_fb8_320x240_fix.ino *)

Module Fb8Fix.
Import Avr.

(** ** Configuration constants *)

Definition H_VISIBLE : Z := 320.
Definition V_VISIBLE : Z := 240.
Definition V_FRONT_PORCH : Z := 2.
Definition V_SYNC_PULSE : Z := 2.
Definition V_BACK_PORCH : Z := 21.
Definition V_TOTAL : Z := V_VISIBLE + V_FRONT_PORCH + V_SYNC_PULSE + V_BACK_PORCH.

Definition FRAMEBUFFER_WIDTH : Z := H_VISIBLE.
Definition FRAMEBUFFER_HEIGHT : Z := V_VISIBLE.
Definition DRAM_ROWS : Z := 512.
Definition DRAM_COLS : Z := 512.

Definition MAX_UPDATE_BUFFER_SIZE : Z := 512.

(** [ICR1 = h_total_cycles - 1] with [h_total_cycles = (F_CPU / 1000000) * 40]. *)
Definition F_CPU : Z := 16000000.
Definition ICR1 : Z := u16 (u16 ((F_CPU / 1000000) * 40) - 1).

(** ** Data *)

Record PixelUpdate := mkPixelUpdate {
  upd_x : Z;
  upd_y : Z;
  upd_color : Z
}.

#[export] Instance PixelUpdate_inhabited : Inhabited PixelUpdate :=
  populate (mkPixelUpdate 0 0 0).

(** ** DRAM interface *)

Definition RAS_BIT : Z := 3.
Definition CAS_BIT : Z := 4.
Definition WE_BIT : Z := 7.
Definition OE_BIT : Z := 6.
Definition SE_BIT : Z := 4.

(** [setDRAMAddress], on the port registers. *)
Definition setDRAMAddress (row col : Z) (p : ports) : ports :=
  mkPorts
    (u8 (Z.lor (Z.land (PORTD p) 0xFC) (Z.land col 0x03)))
    (u8 (Z.lor (Z.land (PORTL p) 0xC3)
           (Z.shiftl (Z.land (Z.shiftr col 2) 0x0F) 2)))
    (u8 (Z.lor (Z.land (PORTC p) 0x8F) (Z.shiftl (Z.land row 0x07) 4))).

(** The three stores of [setDRAMAddress], in program order: [PORTD],
    [PORTL], [PORTC]. *)
Definition store_DRAMAddress (row col : Z) (b : dram_bus) : dram_bus :=
  let p := setDRAMAddress row col (regs b) in
  store RegPORTC (PORTC p)
    (store RegPORTL (PORTL p) (store RegPORTD (PORTD p) b)).

(** The assembly block of [writeDRAM]: RAS, CAS and WE are lowered, then
    [color] is put on the data port, then WE, CAS and RAS are raised. *)
Definition write_cycle (color : Z) (b : dram_bus) : dram_bus :=
  let b := cbi RegPORTL RAS_BIT b in
  let b := cbi RegPORTL CAS_BIT b in
  let b := cbi RegPORTC WE_BIT b in
  let b := store RegPORTA (u8 color) b in
  let b := sbi RegPORTC WE_BIT b in
  let b := sbi RegPORTL CAS_BIT b in
  sbi RegPORTL RAS_BIT b.

(** [writeDRAM], on the port registers: [DATA_PORT_DDR = 0x0F], then
    [setDRAMAddress], then the assembly block. *)
Definition writeDRAM_bus (row col color : Z) (b : dram_bus) : dram_bus :=
  write_cycle color
    (store_DRAMAddress row col
       (store RegDDRA 0x0F (log_call (WriteCall row col color) b))).

(** [transferRowToSAM], on the port registers: [DATA_PORT_DDR = 0x00],
    [setDRAMAddress(row, 0)], then RAS and OE are lowered and raised
    again. *)
Definition transfer_bus (row : Z) (b : dram_bus) : dram_bus :=
  let b := store RegDDRA 0x00 (log_call (TransferCall row) b) in
  let b := store_DRAMAddress row 0 b in
  let b := cbi RegPORTL RAS_BIT b in
  let b := cbi RegPORTC OE_BIT b in
  let b := sbi RegPORTC OE_BIT b in
  sbi RegPORTL RAS_BIT b.

(** The assembly block of [refreshDRAM]: CAS is lowered before RAS, then
    RAS and CAS are raised. *)
Definition refresh_cycle (b : dram_bus) : dram_bus :=
  let b := cbi RegPORTL CAS_BIT b in
  let b := cbi RegPORTL RAS_BIT b in
  let b := sbi RegPORTL RAS_BIT b in
  sbi RegPORTL CAS_BIT b.

(** ** The sketch state *)

(** The globals of the sketch, followed by the hardware side: the port
    registers wired to the DRAM with the record of what has been done to
    them, the number of iterations of the refresh loop of [refreshDRAM]
    run so far, and the clock-select register of Timer3. *)
Record state := mkState {
  update_buffer : list PixelUpdate;
  update_buffer_write_index : Z;
  update_buffer_read_index : Z;
  buffer_overflow : bool;
  current_scanline : Z;
  current_video_line : Z;
  vblank_active : bool;
  frame_count : Z;
  timing_error : bool;
  dram : dram_bus;
  cbr_cycles : Z;
  TCCR3B : Z
}.

Definition set_update_buffer (b : list PixelUpdate) (s : state) : state :=
  mkState b (update_buffer_write_index s) (update_buffer_read_index s)
    (buffer_overflow s) (current_scanline s) (current_video_line s)
    (vblank_active s) (frame_count s) (timing_error s) (dram s)
    (cbr_cycles s) (TCCR3B s).

Definition set_write_index (w : Z) (s : state) : state :=
  mkState (update_buffer s) w (update_buffer_read_index s)
    (buffer_overflow s) (current_scanline s) (current_video_line s)
    (vblank_active s) (frame_count s) (timing_error s) (dram s)
    (cbr_cycles s) (TCCR3B s).

Definition set_read_index (r : Z) (s : state) : state :=
  mkState (update_buffer s) (update_buffer_write_index s) r
    (buffer_overflow s) (current_scanline s) (current_video_line s)
    (vblank_active s) (frame_count s) (timing_error s) (dram s)
    (cbr_cycles s) (TCCR3B s).

Definition set_buffer_overflow (o : bool) (s : state) : state :=
  mkState (update_buffer s) (update_buffer_write_index s)
    (update_buffer_read_index s) o (current_scanline s)
    (current_video_line s) (vblank_active s) (frame_count s)
    (timing_error s) (dram s) (cbr_cycles s) (TCCR3B s).

Definition set_current_scanline (l : Z) (s : state) : state :=
  mkState (update_buffer s) (update_buffer_write_index s)
    (update_buffer_read_index s) (buffer_overflow s) l
    (current_video_line s) (vblank_active s) (frame_count s)
    (timing_error s) (dram s) (cbr_cycles s) (TCCR3B s).

Definition set_current_video_line (l : Z) (s : state) : state :=
  mkState (update_buffer s) (update_buffer_write_index s)
    (update_buffer_read_index s) (buffer_overflow s) (current_scanline s) l
    (vblank_active s) (frame_count s) (timing_error s) (dram s)
    (cbr_cycles s) (TCCR3B s).

Definition set_vblank_active (v : bool) (s : state) : state :=
  mkState (update_buffer s) (update_buffer_write_index s)
    (update_buffer_read_index s) (buffer_overflow s) (current_scanline s)
    (current_video_line s) v (frame_count s) (timing_error s) (dram s)
    (cbr_cycles s) (TCCR3B s).

Definition set_frame_count (n : Z) (s : state) : state :=
  mkState (update_buffer s) (update_buffer_write_index s)
    (update_buffer_read_index s) (buffer_overflow s) (current_scanline s)
    (current_video_line s) (vblank_active s) n (timing_error s) (dram s)
    (cbr_cycles s) (TCCR3B s).

Definition set_timing_error (e : bool) (s : state) : state :=
  mkState (update_buffer s) (update_buffer_write_index s)
    (update_buffer_read_index s) (buffer_overflow s) (current_scanline s)
    (current_video_line s) (vblank_active s) (frame_count s) e (dram s)
    (cbr_cycles s) (TCCR3B s).

Definition set_dram (d : dram_bus) (s : state) : state :=
  mkState (update_buffer s) (update_buffer_write_index s)
    (update_buffer_read_index s) (buffer_overflow s) (current_scanline s)
    (current_video_line s) (vblank_active s) (frame_count s)
    (timing_error s) d (cbr_cycles s) (TCCR3B s).

Definition set_cbr_cycles (n : Z) (s : state) : state :=
  mkState (update_buffer s) (update_buffer_write_index s)
    (update_buffer_read_index s) (buffer_overflow s) (current_scanline s)
    (current_video_line s) (vblank_active s) (frame_count s)
    (timing_error s) (dram s) n (TCCR3B s).

Definition set_TCCR3B (cs : Z) (s : state) : state :=
  mkState (update_buffer s) (update_buffer_write_index s)
    (update_buffer_read_index s) (buffer_overflow s) (current_scanline s)
    (current_video_line s) (vblank_active s) (frame_count s)
    (timing_error s) (dram s) (cbr_cycles s) cs.

(** State at reset: the globals hold their static initialisers (the array
    is zero-initialised) and the port and timer registers are cleared. *)
Definition init : state :=
  mkState (replicate (Z.to_nat MAX_UPDATE_BUFFER_SIZE) (mkPixelUpdate 0 0 0))
    0 0 false 0 0 false 0 false reset 0 0.

(** [writeDRAM]. *)
Definition writeDRAM (row col color : Z) (s : state) : state :=
  set_dram (writeDRAM_bus row col color (dram s)) s.

(** [transferRowToSAM]. *)
Definition transferRowToSAM (row : Z) (s : state) : state :=
  set_dram (transfer_bus row (dram s)) s.

(** [refreshDRAM]: one CAS-before-RAS cycle per loop iteration, for
    [i = 0 .. DRAM_ROWS - 1]. *)
Definition refreshDRAM (s : state) : state :=
  foldl (fun s' _ =>
           set_cbr_cycles (cbr_cycles s' + 1)
             (set_dram (refresh_cycle (dram s')) s'))
        s (seqZ 0 DRAM_ROWS).

(** ** Framebuffer management *)

(** [drawPixel]: [update_buffer_write_index + 1] is computed on
    [unsigned int] (16 bits) before the remainder is taken. *)
Definition drawPixel (x y color : Z) (s : state) : bool * state :=
  if (FRAMEBUFFER_WIDTH <=? x) || (FRAMEBUFFER_HEIGHT <=? y) then (false, s)
  else
    let next_index :=
      u16 (update_buffer_write_index s + 1) mod MAX_UPDATE_BUFFER_SIZE in
    if next_index =? update_buffer_read_index s then
      (false, set_buffer_overflow true s)
    else
      (true,
       set_write_index next_index
         (set_update_buffer
            (<[Z.to_nat (update_buffer_write_index s) :=
                 mkPixelUpdate x y color]> (update_buffer s)) s)).

(** Address computation of [applyBufferUpdates]: the index is computed on
    [uint32_t], row and column are narrowed to [uint16_t]. *)
Definition pixel_index (u : PixelUpdate) : Z :=
  u32 (u32 (u32 (upd_y u) * FRAMEBUFFER_WIDTH) + upd_x u).

Definition dram_address (u : PixelUpdate) : Z * Z :=
  (u16 (pixel_index u / DRAM_COLS), u16 (pixel_index u mod DRAM_COLS)).

(** [applyBufferUpdates]: the [while] loop, with [fuel] bounding the number
    of iterations; [None] when the bound is exhausted or the read index
    lies outside the array. *)
Fixpoint applyBufferUpdates_loop (fuel : nat) (s : state) : option state :=
  if update_buffer_read_index s =? update_buffer_write_index s then Some s
  else
    match fuel with
    | O => None
    | S fuel' =>
        match update_buffer s !! Z.to_nat (update_buffer_read_index s) with
        | None => None
        | Some update =>
            let '(dram_row, dram_col) := dram_address update in
            let s1 := writeDRAM dram_row dram_col (upd_color update) s in
            applyBufferUpdates_loop fuel'
              (set_read_index
                 (u16 (update_buffer_read_index s1 + 1)
                    mod MAX_UPDATE_BUFFER_SIZE) s1)
        end
    end.

Definition applyBufferUpdates (s : state) : option state :=
  applyBufferUpdates_loop (Z.to_nat MAX_UPDATE_BUFFER_SIZE) s.

(** ** Interrupt handlers *)

(** The condition of the [if] in the line handler. *)
Definition active_line (l : Z) : bool :=
  (V_FRONT_PORCH + V_SYNC_PULSE + V_BACK_PORCH <=? l)
  && (l <? V_TOTAL - V_FRONT_PORCH).

(** [ISR(TIMER1_COMPA_vect)]; [TCNT1] is the counter value read on entry. *)
Definition ISR_TIMER1_COMPA (TCNT1 : Z) (s : state) : state :=
  let s1 := set_current_scanline (u16 (current_scanline s + 1)) s in
  let s2 := if Z.shiftr ICR1 1 <? TCNT1 then set_timing_error true s1 else s1 in
  if active_line (current_scanline s2) then
    let s3 := transferRowToSAM (current_video_line s2) s2 in
    let s4 := set_current_video_line (u16 (current_video_line s3 + 1)) s3 in
    set_TCCR3B (Z.shiftl 1 0) (set_dram (cbi RegPORTC SE_BIT (dram s4)) s4)
  else
    set_TCCR3B 0 (set_dram (sbi RegPORTC SE_BIT (dram s2)) s2).

(** [ISR(TIMER5_COMPA_vect)]. *)
Definition ISR_TIMER5_COMPA (s : state) : option state :=
  let s1 := set_vblank_active true
              (set_frame_count (u32 (frame_count s + 1)) s) in
  match applyBufferUpdates s1 with
  | None => None
  | Some s2 =>
      let s3 := if Z.land (frame_count s2) 0x3F =? 0
                then refreshDRAM s2 else s2 in
      Some (set_vblank_active false
              (set_current_video_line 0 (set_current_scanline 0 s3)))
  end.

(** Status report of [loop]: both health flags are cleared once they
    have been printed. *)
Definition report_status (s : state) : state :=
  let s1 := if buffer_overflow s then set_buffer_overflow false s else s in
  if timing_error s1 then set_timing_error false s1 else s1.

(** ** The system as a transition relation

    The background task calls [drawPixel] and reports the status; the two
    timers raise their handlers. *)
Inductive step : state -> state -> Prop :=
  | step_draw x y color s :
      step s (drawPixel x y color s).2
  | step_report s :
      step s (report_status s)
  | step_line TCNT1 s :
      step s (ISR_TIMER1_COMPA TCNT1 s)
  | step_frame s s' :
      ISR_TIMER5_COMPA s = Some s' -> step s s'.

Definition reachable (s : state) : Prop := rtc step init s.

(** ** Specification vocabulary for the update ring *)

Definition ring_wf (s : state) : Prop :=
  length (update_buffer s) = Z.to_nat MAX_UPDATE_BUFFER_SIZE /\
  0 <= update_buffer_write_index s < MAX_UPDATE_BUFFER_SIZE /\
  0 <= update_buffer_read_index s < MAX_UPDATE_BUFFER_SIZE.

(** Number of unread entries. *)
Definition occupancy (s : state) : Z :=
  (update_buffer_write_index s - update_buffer_read_index s)
    mod MAX_UPDATE_BUFFER_SIZE.

(** The [n] slots starting at [r], in ring order. *)
Fixpoint ring_slice (buf : list PixelUpdate) (r : Z) (n : nat)
  : list PixelUpdate :=
  match n with
  | O => []
  | S n' =>
      buf !!! Z.to_nat r
        :: ring_slice buf ((r + 1) mod MAX_UPDATE_BUFFER_SIZE) n'
  end.

(** The unread entries, oldest first. *)
Definition pending (s : state) : list PixelUpdate :=
  ring_slice (update_buffer s) (update_buffer_read_index s)
    (Z.to_nat (occupancy s)).

(** The port registers after the writes of a list of updates, in order. *)
Definition apply_updates (us : list PixelUpdate) (b : dram_bus) : dram_bus :=
  foldl (fun b' u =>
           writeDRAM_bus (dram_address u).1 (dram_address u).2 (upd_color u) b')
        b us.

(** The call of [writeDRAM] that the drain makes for an update. *)
Definition write_call (u : PixelUpdate) : call :=
  WriteCall (dram_address u).1 (dram_address u).2 (upd_color u).

(** What [writeDRAM] lets through to the port registers of the address of
    an update and of its colour: the low three bits of the row, the low
    six bits of the column and the low eight bits of the colour. *)
Definition port_view (u : PixelUpdate) : Z * Z * Z :=
  ((dram_address u).1 mod 2 ^ 3, (dram_address u).2 mod 2 ^ 6,
   u8 (upd_color u)).

(** The port registers after the loop of [refreshDRAM]. *)
Definition refresh_bus (b : dram_bus) : dram_bus :=
  foldl (fun b' _ => refresh_cycle b') b (seqZ 0 DRAM_ROWS).

(** A sequence of [drawPixel] calls, with the result of each call. *)
Fixpoint enqueue_all (us : list PixelUpdate) (s : state)
  : list bool * state :=
  match us with
  | [] => ([], s)
  | u :: us' =>
      let '(ok, s1) := drawPixel (upd_x u) (upd_y u) (upd_color u) s in
      let '(oks, s2) := enqueue_all us' s1 in
      (ok :: oks, s2)
  end.

Definition in_bounds (u : PixelUpdate) : Prop :=
  0 <= upd_x u < FRAMEBUFFER_WIDTH /\ 0 <= upd_y u < FRAMEBUFFER_HEIGHT.

Definition same_pixel (u v : PixelUpdate) : Prop :=
  upd_x u = upd_x v /\ upd_y u = upd_y v.

(** Number of further updates the ring accepts before it is full. *)
Definition free_slots (s : state) : nat :=
  Z.to_nat (MAX_UPDATE_BUFFER_SIZE - 1 - occupancy s).

(** Input of the overflow scenario: [MAX_UPDATE_BUFFER_SIZE + 5] updates
    of distinct in-range pixels. *)
Definition overflow_scenario : list PixelUpdate :=
  (fun i => mkPixelUpdate (i mod FRAMEBUFFER_WIDTH) (i / FRAMEBUFFER_WIDTH)
              (i mod 16))
    <$> seqZ 0 (MAX_UPDATE_BUFFER_SIZE + 5).

(** Number of dropped calls in a list of results. *)
Definition dropped (oks : list bool) : nat :=
  length (filter (fun ok => ok = false) oks).

(** Closed form of the frame handler on a well-formed ring. *)
Definition frame_handler_result (s : state) : state :=
  let s1 := set_vblank_active true
              (set_frame_count (u32 (frame_count s + 1)) s) in
  let s2 := set_read_index (update_buffer_write_index s)
              (set_dram (apply_updates (pending s) (dram s)) s1) in
  let s3 := if Z.land (u32 (frame_count s + 1)) 0x3F =? 0
            then set_cbr_cycles (cbr_cycles s + DRAM_ROWS)
                   (set_dram (refresh_bus (dram s2)) s2)
            else s2 in
  set_vblank_active false
    (set_current_video_line 0 (set_current_scanline 0 s3)).

(** ** Further functions of the sketch *)

(** The pixels visited by the two nested loops of [drawRect], in the
    order of the visit: [j = y .. y_end - 1] outside, [i = x .. x_end - 1]
    inside. *)
Definition rect_pixels (x y x_end y_end color : Z) : list PixelUpdate :=
  seqZ y (y_end - y) ≫=
    (fun j => (fun i => mkPixelUpdate i j color) <$> seqZ x (x_end - x)).

(** The body of the loops: [drawPixel] on each pixel, leaving the
    function at the first call that fails. *)
Fixpoint draw_each (us : list PixelUpdate) (s : state) : state :=
  match us with
  | [] => s
  | u :: us' =>
      let '(ok, s1) := drawPixel (upd_x u) (upd_y u) (upd_color u) s in
      if ok then draw_each us' s1 else s1
  end.

(** [drawRect]: [x + w] and [y + h] are computed on [unsigned int]. *)
Definition drawRect (x y w h color : Z) (s : state) : state :=
  let x_end := Z.min (u16 (x + w)) FRAMEBUFFER_WIDTH in
  let y_end := Z.min (u16 (y + h)) FRAMEBUFFER_HEIGHT in
  draw_each (rect_pixels x y x_end y_end color) s.

(** [clearFramebuffer]: the loop bound is computed on [uint32_t]. *)
Definition clearFramebuffer (color : Z) (s : state) : state :=
  foldl (fun s' pixel_index =>
           writeDRAM (u16 (pixel_index / DRAM_COLS))
             (u16 (pixel_index mod DRAM_COLS)) color s')
        s (seqZ 0 (u32 (u32 FRAMEBUFFER_WIDTH * FRAMEBUFFER_HEIGHT))).

(** The line handler run once per entry of a list of counter readings. *)
Definition run_lines (readings : list Z) (s : state) : state :=
  foldl (fun s' TCNT1 => ISR_TIMER1_COMPA TCNT1 s') s readings.

End Fb8Fix.

(** * mega_edo_fp6.ino *)

Module Fp6.
Import Avr.

Definition FRAMEBUFFER_WIDTH : Z := 256.
Definition FRAMEBUFFER_HEIGHT : Z := 256.
Definition DRAM_ROWS : Z := 512.
Definition DRAM_COLS : Z := 512.
Definition MAX_UPDATE_BUFFER_SIZE : Z := 1024.

Record PixelUpdate := mkPixelUpdate {
  upd_x : Z;
  upd_y : Z;
  upd_color : Z
}.

(** ** DRAM interface *)

Definition RAS_BIT : Z := 3.
Definition CAS_BIT : Z := 4.
Definition WE_BIT : Z := 7.
Definition OE_BIT : Z := 6.
Definition SC_BIT : Z := 5.
Definition SE_BIT : Z := 4.

(** [setAddress]: four [out] instructions, each storing a whole register:
    [PORTD] gets [col & 0x03], [PORTL] gets [(col >> 2) & 0x03], [PORTC]
    gets [(row >> 6) & 0x03], then [PORTL] gets [(row >> 8) & 0x01]. *)
Definition setAddress (row col : Z) (b : dram_bus) : dram_bus :=
  let b := store RegPORTD (Z.land col 0x03) b in
  let b := store RegPORTL (Z.land (Z.shiftr col 2) 0x03) b in
  let b := store RegPORTC (Z.land (Z.shiftr row 6) 0x03) b in
  store RegPORTL (Z.land (Z.shiftr row 8) 0x01) b.

(** The assembly block of [writeDram]: RAS, CAS and WE are lowered, then
    [color] is put on the data port, then CAS, WE and RAS are raised. *)
Definition write_cycle (color : Z) (b : dram_bus) : dram_bus :=
  let b := cbi RegPORTL RAS_BIT b in
  let b := cbi RegPORTL CAS_BIT b in
  let b := cbi RegPORTC WE_BIT b in
  let b := store RegPORTA (u8 color) b in
  let b := sbi RegPORTL CAS_BIT b in
  let b := sbi RegPORTC WE_BIT b in
  sbi RegPORTL RAS_BIT b.

(** [writeDram], on the port registers: [DATA_PORT_DDR = 0x0F], then
    [setAddress], then the assembly block. *)
Definition writeDram_bus (row col color : Z) (b : dram_bus) : dram_bus :=
  write_cycle color
    (setAddress row col
       (store RegDDRA 0x0F (log_call (WriteCall row col color) b))).

(** [transferRamToSam], on the port registers: [setAddress(row, 0)], then
    RAS and OE are lowered, RAS is raised, OE is raised. *)
Definition transfer_bus (row : Z) (b : dram_bus) : dram_bus :=
  let b := setAddress row 0 (log_call (TransferCall row) b) in
  let b := cbi RegPORTL RAS_BIT b in
  let b := cbi RegPORTC OE_BIT b in
  let b := sbi RegPORTL RAS_BIT b in
  sbi RegPORTC OE_BIT b.

(** The assembly block of [casBeforeRasRefresh]: CAS is lowered before
    RAS, then RAS and CAS are raised. *)
Definition refresh_cycle (b : dram_bus) : dram_bus :=
  let b := cbi RegPORTL CAS_BIT b in
  let b := cbi RegPORTL RAS_BIT b in
  let b := sbi RegPORTL RAS_BIT b in
  sbi RegPORTL CAS_BIT b.

(** The pixel clocking loop of the line handler: SE is lowered, SC is
    raised and lowered once per pass, SE is raised.  The loop counter is
    decremented by [dec], which acts on its low byte; that byte starts at
    0 ([FRAMEBUFFER_WIDTH = 256]), so the loop makes 256 passes. *)
Definition clock_pixels (b : dram_bus) : dram_bus :=
  sbi RegPORTC SE_BIT
    (Nat.iter 256 (fun b' => cbi RegPORTC SC_BIT (sbi RegPORTC SC_BIT b'))
       (cbi RegPORTC SE_BIT b)).

(** ** The sketch state *)

(** The globals of the sketch, followed by the hardware side: the port
    registers wired to the DRAM with the record of what has been done to
    them, and the number of iterations of the refresh loop of
    [casBeforeRasRefresh] run so far. *)
Record state := mkState {
  update_buffer : list PixelUpdate;
  update_buffer_index : Z;
  vBlank_in_progress : bool;
  currentScanline : Z;
  currentRow : Z;
  dram : dram_bus;
  cbr_cycles : Z
}.

Definition set_dram (d : dram_bus) (s : state) : state :=
  mkState (update_buffer s) (update_buffer_index s) (vBlank_in_progress s)
    (currentScanline s) (currentRow s) d (cbr_cycles s).

Definition set_cbr_cycles (n : Z) (s : state) : state :=
  mkState (update_buffer s) (update_buffer_index s) (vBlank_in_progress s)
    (currentScanline s) (currentRow s) (dram s) n.

Definition set_vBlank_in_progress (v : bool) (s : state) : state :=
  mkState (update_buffer s) (update_buffer_index s) v
    (currentScanline s) (currentRow s) (dram s) (cbr_cycles s).

Definition set_update_buffer_index (i : Z) (s : state) : state :=
  mkState (update_buffer s) i (vBlank_in_progress s)
    (currentScanline s) (currentRow s) (dram s) (cbr_cycles s).

Definition set_lines (line row : Z) (s : state) : state :=
  mkState (update_buffer s) (update_buffer_index s) (vBlank_in_progress s)
    line row (dram s) (cbr_cycles s).

(** [writeDram]. *)
Definition writeDram (row col color : Z) (s : state) : state :=
  set_dram (writeDram_bus row col color (dram s)) s.

(** [transferRamToSam]. *)
Definition transferRamToSam (row : Z) (s : state) : state :=
  set_dram (transfer_bus row (dram s)) s.

(** [casBeforeRasRefresh]: one CAS-before-RAS cycle for each
    [row = 0 .. DRAM_ROWS - 1]. *)
Definition casBeforeRasRefresh (s : state) : state :=
  foldl (fun s' _ =>
           set_cbr_cycles (cbr_cycles s' + 1)
             (set_dram (refresh_cycle (dram s')) s'))
        s (seqZ 0 DRAM_ROWS).

(** [drawPixel]: arguments and index are [int]. *)
Definition drawPixel (x y color : Z) (s : state) : state :=
  if (x <? 0) || (FRAMEBUFFER_WIDTH <=? x)
     || (y <? 0) || (FRAMEBUFFER_HEIGHT <=? y) then s
  else if update_buffer_index s <? MAX_UPDATE_BUFFER_SIZE then
    mkState
      (<[Z.to_nat (update_buffer_index s) := mkPixelUpdate x y color]>
         (update_buffer s))
      (s16 (update_buffer_index s + 1)) (vBlank_in_progress s)
      (currentScanline s) (currentRow s) (dram s) (cbr_cycles s)
  else s.

(** Address computation of [applyBufferToDRAM]: the index is computed on
    [int] and converted to [unsigned int].  For [y >= 128] the product
    [update.y * FRAMEBUFFER_WIDTH] leaves the range of the 16-bit [int];
    it is taken with the two's-complement wrap of the AVR, which the
    conversion to [unsigned int] undoes. *)
Definition pixelIndex (u : PixelUpdate) : Z :=
  u16 (s16 (s16 (upd_y u * FRAMEBUFFER_WIDTH) + upd_x u)).

Definition dram_address (u : PixelUpdate) : Z * Z :=
  (pixelIndex u / DRAM_COLS, pixelIndex u mod DRAM_COLS).

(** [applyBufferToDRAM]: the [for] loop over [i = 0 .. update_buffer_index - 1];
    an index outside the array is skipped. *)
Definition applyBufferToDRAM (s : state) : state :=
  foldl (fun s' i =>
           match update_buffer s' !! Z.to_nat i with
           | Some update =>
               let '(dramRow, dramCol) := dram_address update in
               writeDram dramRow dramCol (upd_color update) s'
           | None => s'
           end)
        s (seqZ 0 (update_buffer_index s)).

(** The port registers after the writes of a list of updates, in order. *)
Definition apply_updates (us : list PixelUpdate) (b : dram_bus) : dram_bus :=
  foldl (fun b' u =>
           writeDram_bus (dram_address u).1 (dram_address u).2 (upd_color u) b')
        b us.

(** The call of [writeDram] that the drain makes for an update. *)
Definition write_call (u : PixelUpdate) : call :=
  WriteCall (dram_address u).1 (dram_address u).2 (upd_color u).

(** The port registers after the loop of [casBeforeRasRefresh]. *)
Definition refresh_bus (b : dram_bus) : dram_bus :=
  foldl (fun b' _ => refresh_cycle b') b (seqZ 0 DRAM_ROWS).

(** The entries the drain loop visits. *)
Definition queued (s : state) : list PixelUpdate :=
  take (Z.to_nat (update_buffer_index s)) (update_buffer s).

(** The index stays within the array. *)
Definition buffer_wf (s : state) : Prop :=
  0 <= update_buffer_index s <= Z.of_nat (length (update_buffer s)).

(** The condition of the [if] in the line handler. *)
Definition active_line (l : Z) : bool :=
  (35 <=? l) && (l <? FRAMEBUFFER_HEIGHT + 35).

(** [ISR(TIMER1_COMPA_vect)]; the [int] [currentRow] is converted to the
    [unsigned int] parameter of [transferRamToSam]. *)
Definition ISR_TIMER1_COMPA (s : state) : state :=
  let s1 := set_lines (s16 (currentScanline s + 1)) (currentRow s) s in
  if active_line (currentScanline s1) then
    let s2 := transferRamToSam (u16 (currentRow s1)) s1 in
    let s3 := set_lines (currentScanline s2) (s16 (currentRow s2 + 1)) s2 in
    set_dram (clock_pixels (dram s3)) s3
  else s1.

(** [ISR(TIMER5_COMPA_vect)]. *)
Definition ISR_TIMER5_COMPA (s : state) : state :=
  let s1 := set_vBlank_in_progress true s in
  let s2 := applyBufferToDRAM s1 in
  let s3 := set_update_buffer_index 0 s2 in
  let s4 := casBeforeRasRefresh s3 in
  set_vBlank_in_progress false (set_lines 0 0 s4).

(** State at reset. *)
Definition init : state :=
  mkState (replicate (Z.to_nat MAX_UPDATE_BUFFER_SIZE) (mkPixelUpdate 0 0 0))
    0 false 0 0 reset 0.

(** ** Further functions of the sketch *)

(** The test at the head of [drawPixel]. *)
Definition in_range (u : PixelUpdate) : bool :=
  negb ((upd_x u <? 0) || (FRAMEBUFFER_WIDTH <=? upd_x u)
        || (upd_y u <? 0) || (FRAMEBUFFER_HEIGHT <=? upd_y u)).

(** The array has its declared size and the index is within it. *)
Definition buffer_ok (s : state) : Prop :=
  length (update_buffer s) = Z.to_nat MAX_UPDATE_BUFFER_SIZE /\
  0 <= update_buffer_index s <= MAX_UPDATE_BUFFER_SIZE.

(** The pixels visited by the two nested loops of [drawRect], in the
    order of the visit: [i = x .. x + w - 1] outside, [j = y .. y + h - 1]
    inside; the bounds are computed on [int]. *)
Definition rect_pixels (x y w h color : Z) : list PixelUpdate :=
  seqZ x (s16 (x + w) - x) ≫=
    (fun i => (fun j => mkPixelUpdate i j color) <$> seqZ y (s16 (y + h) - y)).

(** [drawRect]. *)
Definition drawRect (x y w h color : Z) (s : state) : state :=
  foldl (fun s' u => drawPixel (upd_x u) (upd_y u) (upd_color u) s') s
        (rect_pixels x y w h color).

(** [clearFramebuffer]: the bound [FRAMEBUFFER_WIDTH * FRAMEBUFFER_HEIGHT]
    is a product of two [int] and is compared with an [unsigned int]. *)
Definition clearFramebuffer (color : Z) (s : state) : state :=
  foldl (fun s' pixelIndex =>
           writeDram (pixelIndex / DRAM_COLS) (pixelIndex mod DRAM_COLS)
             color s')
        s (seqZ 0 (u16 (s16 (FRAMEBUFFER_WIDTH * FRAMEBUFFER_HEIGHT)))).

(** The line handler run a number of times. *)
Definition run_lines (n : nat) (s : state) : state :=
  Nat.iter n ISR_TIMER1_COMPA s.

End Fp6.

(** * unnamed/part_002: pin-level access to the MSM514262 *)

Module Msm514262.

Definition DATA_PINS : list Z := [22; 23; 24; 25].
Definition ADDRESS_PINS : list Z := [38; 39; 40; 41; 42; 43; 44; 45; 46].
Definition RAS_PIN : Z := 48.
Definition CAS_PIN : Z := 49.
Definition WE_PIN : Z := 50.
Definition OE_PIN : Z := 51.
Definition DRAM_ROWS : Z := 512.
Definition DRAM_COLS : Z := 512.

Inductive pin_mode := INPUT | OUTPUT.
Definition HIGH : bool := true.
Definition LOW : bool := false.

(** The microcontroller pins (direction and output level of every pin)
    and the chip: its row and column address latches and its array. *)
Record board := mkBoard {
  modes : Z -> pin_mode;
  levels : Z -> bool;
  row_latch : option Z;
  col_latch : option Z;
  array : cells
}.

(** Value carried by a group of lines, first pin least significant. *)
Fixpoint bus_value (pins : list Z) (lv : Z -> bool) : Z :=
  match pins with
  | [] => 0
  | pin :: rest => Z.b2z (lv pin) + 2 * bus_value rest lv
  end.

Definition address_bus (b : board) : Z := bus_value ADDRESS_PINS (levels b).

(** A data line is driven by the microcontroller only when its pin is an
    output; an undriven line is taken as low. *)
Definition data_bus (b : board) : Z :=
  bus_value DATA_PINS
    (fun pin => match modes b pin with
                | OUTPUT => levels b pin
                | INPUT => false
                end).

(** Modelled from the spec: the DRAM device.  The falling edge of RAS
    latches the row address, the falling edge of CAS (RAS low) latches
    the column address; the later falling edge of CAS and WE writes the
    data lines to the addressed cell; the rising edge of RAS ends the
    cycle.  With RAS, CAS and OE low and WE high the chip drives the data
    lines with the addressed cell. *)
Definition chip_store (b : board) : board :=
  match row_latch b, col_latch b with
  | Some r, Some c =>
      mkBoard (modes b) (levels b) (row_latch b) (col_latch b)
        (<[(r, c) := data_bus b]> (array b))
  | _, _ => b
  end.

Definition chip_output (b : board) : option Z :=
  if negb (levels b RAS_PIN) && negb (levels b CAS_PIN)
     && negb (levels b OE_PIN) && levels b WE_PIN then
    match row_latch b, col_latch b with
    | Some r, Some c => Some (default 0 (array b !! (r, c)))
    | _, _ => None
    end
  else None.

Definition set_level (pin : Z) (v : bool) (b : board) : board :=
  mkBoard (modes b) (fun p => if p =? pin then v else levels b p)
    (row_latch b) (col_latch b) (array b).

Definition chip_react (pin : Z) (old : bool) (b : board) : board :=
  let new := levels b pin in
  if pin =? RAS_PIN then
    if old && negb new then
      mkBoard (modes b) (levels b) (Some (address_bus b)) None (array b)
    else if negb old && new then
      mkBoard (modes b) (levels b) None None (array b)
    else b
  else if pin =? CAS_PIN then
    if old && negb new && negb (levels b RAS_PIN) then
      let b1 := mkBoard (modes b) (levels b) (row_latch b)
                  (Some (address_bus b)) (array b) in
      if negb (levels b WE_PIN) then chip_store b1 else b1
    else b
  else if pin =? WE_PIN then
    if old && negb new && negb (levels b RAS_PIN) && negb (levels b CAS_PIN)
    then chip_store b else b
  else b.

(** ** Arduino primitives *)

Definition pinMode (pin : Z) (mode : pin_mode) (b : board) : board :=
  mkBoard (fun p => if p =? pin then mode else modes b p) (levels b)
    (row_latch b) (col_latch b) (array b).

Definition digitalWrite (pin : Z) (v : bool) (b : board) : board :=
  chip_react pin (levels b pin) (set_level pin v b).

Fixpoint pin_index (pin : Z) (pins : list Z) (i : Z) : option Z :=
  match pins with
  | [] => None
  | p :: rest => if p =? pin then Some i else pin_index pin rest (i + 1)
  end.

Definition digitalRead (pin : Z) (b : board) : bool :=
  match chip_output b, pin_index pin DATA_PINS 0 with
  | Some v, Some i => Z.testbit v i
  | _, _ => levels b pin
  end.

(** An [int] passed as a level: zero is [LOW], anything else [HIGH]. *)
Definition level_of (v : Z) : bool := negb (v =? 0).

(** ** Helper functions of the sketch *)

(** [setDataBusMode]. *)
Definition setDataBusMode (mode : pin_mode) (b : board) : board :=
  foldl (fun b' pin => pinMode pin mode b') b DATA_PINS.

(** The loop shared by [setAddress] and [writeDataBus]:
    [digitalWrite(PINS[i], (value >> i) & 0x01)] for [i = 0, 1, ...]. *)
Fixpoint write_pins (pins : list Z) (i : Z) (value : Z) (b : board) : board :=
  match pins with
  | [] => b
  | pin :: rest =>
      write_pins rest (i + 1) value
        (digitalWrite pin (level_of (Z.land (Z.shiftr value i) 1)) b)
  end.

Definition setAddress (address : Z) (b : board) : board :=
  write_pins ADDRESS_PINS 0 address b.

Definition writeDataBus (data : Z) (b : board) : board :=
  write_pins DATA_PINS 0 data b.

(** [readDataBus]: [data |= (1 << i)] for every data pin read [HIGH]. *)
Fixpoint read_pins (pins : list Z) (i : Z) (data : Z) (b : board) : Z :=
  match pins with
  | [] => data
  | pin :: rest =>
      read_pins rest (i + 1)
        (if digitalRead pin b then u8 (Z.lor data (Z.shiftl 1 i)) else data) b
  end.

Definition readDataBus (b : board) : Z := read_pins DATA_PINS 0 0 b.

(** ** Main DRAM operations *)

Definition writeDram (row col data : Z) (b : board) : board :=
  let b := setDataBusMode OUTPUT b in
  let b := digitalWrite WE_PIN HIGH b in
  let b := digitalWrite OE_PIN HIGH b in
  let b := setAddress row b in
  let b := digitalWrite RAS_PIN LOW b in
  let b := setAddress col b in
  let b := writeDataBus data b in
  let b := digitalWrite CAS_PIN LOW b in
  let b := digitalWrite WE_PIN LOW b in
  let b := digitalWrite CAS_PIN HIGH b in
  let b := digitalWrite WE_PIN HIGH b in
  digitalWrite RAS_PIN HIGH b.

Definition readDram (row col : Z) (b : board) : Z * board :=
  let b := setDataBusMode INPUT b in
  let b := digitalWrite WE_PIN HIGH b in
  let b := digitalWrite OE_PIN HIGH b in
  let b := setAddress row b in
  let b := digitalWrite RAS_PIN LOW b in
  let b := setAddress col b in
  let b := digitalWrite CAS_PIN LOW b in
  let b := digitalWrite OE_PIN LOW b in
  let data := readDataBus b in
  let b := digitalWrite OE_PIN HIGH b in
  let b := digitalWrite CAS_PIN HIGH b in
  let b := digitalWrite RAS_PIN HIGH b in
  (data, b).

(** Pins that the chip does not watch for edges. *)
Definition plain (pin : Z) : Prop :=
  pin <> RAS_PIN /\ pin <> CAS_PIN /\ pin <> WE_PIN.

(** Both strobes released, as [setup] and every operation leave them. *)
Definition bus_idle (b : board) : Prop :=
  levels b RAS_PIN = HIGH /\ levels b CAS_PIN = HIGH.

(** A board as [setup] configures it before its first refresh: every pin
    an output, the four control signals de-asserted, the array content
    unknown. *)
Definition after_setup : board :=
  mkBoard (fun _ => OUTPUT)
    (fun p => (p =? RAS_PIN) || (p =? CAS_PIN) || (p =? WE_PIN)
              || (p =? OE_PIN))
    None None ∅.

(** ** Further functions of the sketch *)

(** [refreshRow]: a RAS-only refresh cycle. *)
Definition refreshRow (row : Z) (b : board) : board :=
  let b := setAddress row b in
  let b := digitalWrite RAS_PIN LOW b in
  digitalWrite RAS_PIN HIGH b.

(** [refreshDram]: [row = 0 .. DRAM_ROWS - 1]. *)
Definition refreshDram (b : board) : board :=
  foldl (fun b' row => refreshRow row b') b (seqZ 0 DRAM_ROWS).

End Msm514262.

(** * dram/511000_opt.ino *)

Module Opt511000.

Definition totalAddresses : Z := 131072.
Definition refreshInterval : Z := 250.
Definition RAS_BIT : Z := 1.
Definition CAS_BIT : Z := 2.
Definition WE_BIT : Z := 3.
Definition DQ_BIT : Z := 0.

(** The three 8-bit ports, the time of the last refresh, and the log of
    RAS cycles seen by the chip: the values of [PORTD] and [PORTB] at
    each falling edge of RAS, oldest first. *)
Record state := mkState {
  PORTB : Z;
  PORTC : Z;
  PORTD : Z;
  lastRefreshMicros : Z;
  ras_log : list (Z * Z)
}.

(** [setAddress]: [addr] is a [uint16_t]. *)
Definition setAddress (addr : Z) (s : state) : state :=
  let portd1 :=
    u8 (Z.lor (Z.land (PORTD s) 0x03) (Z.land (u16 (Z.shiftl addr 2)) 0xFC)) in
  let portd2 :=
    u8 (Z.lor (Z.land portd1 0xFC) (Z.land (Z.shiftr addr 6) 0x03)) in
  let portb :=
    u8 (Z.lor (Z.land (PORTB s) 0xF3) (Z.land (Z.shiftr addr 6) 0x0C)) in
  mkState portb (PORTC s) portd2 (lastRefreshMicros s) (ras_log s).

(** A store to [PORTC]; the chip sees a RAS cycle start when the RAS bit
    goes from 1 to 0. *)
Definition write_PORTC (v : Z) (s : state) : state :=
  mkState (PORTB s) v (PORTD s) (lastRefreshMicros s)
    (if Z.testbit (PORTC s) RAS_BIT && negb (Z.testbit v RAS_BIT)
     then ras_log s ++ [(PORTD s, PORTB s)] else ras_log s).

(** The body of the loop of [refreshAllRows]. *)
Definition refresh_row (s : state) (row : Z) : state :=
  let s1 := setAddress row s in
  let s2 := write_PORTC
              (u8 (Z.land (PORTC s1) (Z.lnot (Z.shiftl 1 RAS_BIT)))) s1 in
  write_PORTC (u8 (Z.lor (PORTC s2) (Z.shiftl 1 RAS_BIT))) s2.

(** [refreshAllRows]: [row = 0 .. 255]. *)
Definition refreshAllRows (s : state) : state :=
  foldl refresh_row s (seqZ 0 256).

Definition set_lastRefreshMicros (t : Z) (s : state) : state :=
  mkState (PORTB s) (PORTC s) (PORTD s) t (ras_log s).

(** Time since the last refresh, on [unsigned long]. *)
Definition elapsed (now : Z) (s : state) : Z :=
  u32 (now - lastRefreshMicros s).

(** [refreshIfNeeded]; [now] is the value returned by [micros()]. *)
Definition refreshIfNeeded (now : Z) (s : state) : state :=
  if refreshInterval <=? elapsed now s then
    set_lastRefreshMicros now (refreshAllRows s)
  else s.

(** State after the port initialisation in [setup]: control lines high. *)
Definition after_setup : state :=
  mkState 0
    (Z.lor (Z.lor (Z.shiftl 1 RAS_BIT) (Z.shiftl 1 CAS_BIT))
       (Z.shiftl 1 WE_BIT))
    0 0 [].

(** ** Further functions of the sketch *)

(** The address that a pair of port values carries: [PORTD] bits 2 to 7
    are address bits 0 to 5, [PORTD] bits 0 and 1 are address bits 6 and
    7, [PORTB] bits 2 and 3 are address bits 8 and 9. *)
Definition decode_address (portd portb : Z) : Z :=
  Z.lor (Z.shiftr portd 2)
    (Z.lor (Z.shiftl (Z.land portd 0x03) 6)
       (Z.shiftl (Z.land portb 0x0C) 6)).

(** The sketch state together with the direction register of port C. *)
Record bench := mkBench {
  core : state;
  DDRC : Z
}.

(** [PORTC &= ~(1 << bit)] and [PORTC |= (1 << bit)]. *)
Definition clear_PORTC (bit : Z) (s : state) : state :=
  write_PORTC (u8 (Z.land (PORTC s) (Z.lnot (Z.shiftl 1 bit)))) s.

Definition set_PORTC (bit : Z) (s : state) : state :=
  write_PORTC (u8 (Z.lor (PORTC s) (Z.shiftl 1 bit))) s.

(** [writeBitTimed]; [now], [t0] and [t1] are the three values returned
    by [micros()]. *)
Definition writeBitTimed (now t0 t1 addr : Z) (value : bool) (b : bench)
  : Z * bench :=
  let s := refreshIfNeeded now (core b) in
  let row := Z.land (Z.shiftr addr 8) 0x1FF in
  let col := Z.land addr 0xFF in
  let ddrc := u8 (Z.lor (DDRC b) (Z.shiftl 1 DQ_BIT)) in
  let s := if value then set_PORTC DQ_BIT s else clear_PORTC DQ_BIT s in
  let s := setAddress row s in
  let s := clear_PORTC RAS_BIT s in
  let s := setAddress col s in
  let s := clear_PORTC CAS_BIT s in
  let s := clear_PORTC WE_BIT s in
  let s := set_PORTC WE_BIT s in
  let s := set_PORTC CAS_BIT s in
  let s := set_PORTC RAS_BIT s in
  (u32 (t1 - t0), mkBench s ddrc).

(** [readBitTimed]; [PINC] is the value of the input register when the
    bit is sampled.  Returns the elapsed time and the bit read. *)
Definition readBitTimed (now t0 t1 PINC addr : Z) (b : bench)
  : Z * bool * bench :=
  let s := refreshIfNeeded now (core b) in
  let row := Z.land (Z.shiftr addr 8) 0x1FF in
  let col := Z.land addr 0xFF in
  let ddrc := u8 (Z.land (DDRC b) (Z.lnot (Z.shiftl 1 DQ_BIT))) in
  let s := clear_PORTC RAS_BIT s in
  let s := setAddress row s in
  let s := setAddress col s in
  let s := clear_PORTC CAS_BIT s in
  let result := Z.testbit PINC DQ_BIT in
  let s := set_PORTC CAS_BIT s in
  let s := set_PORTC RAS_BIT s in
  (u32 (t1 - t0), result, mkBench s ddrc).

(** A [uint32_t] returned as [bool]. *)
Definition to_bool (v : Z) : bool := negb (v =? 0).

(** [patternBit]. *)
Definition patternBit (patternID addr : Z) : bool :=
  if patternID =? 0 then false
  else if patternID =? 1 then true
  else if patternID =? 2 then to_bool (Z.land addr 1)
  else if patternID =? 3 then to_bool (Z.land (Z.shiftr addr 1) 1)
  else if patternID =? 4 then to_bool (Z.land (Z.shiftr addr 8) 1)
  else if patternID =? 5 then to_bool (Z.land (Z.land addr 0xFFFF) 1)
  else if patternID =? 6 then to_bool (Z.land (u32 (Z.lnot addr)) 1)
  else false.

(** [LatencyStats] with its member initialisers. *)
Record LatencyStats := mkLatencyStats {
  stat_min : Z;
  stat_max : Z;
  stat_total : Z;
  stat_count : Z
}.

Definition ULONG_MAX : Z := 2 ^ 32 - 1.

Definition LatencyStats_init : LatencyStats :=
  mkLatencyStats ULONG_MAX 0 0 0.

(** [LatencyStats::add]. *)
Definition add (t : Z) (st : LatencyStats) : LatencyStats :=
  mkLatencyStats
    (if t <? stat_min st then t else stat_min st)
    (if stat_max st <? t then t else stat_max st)
    (u32 (stat_total st + t))
    (u32 (stat_count st + 1)).

(** The calls [stats.add(t)] for the measured times [ts], in order. *)
Definition add_all (ts : list Z) (st : LatencyStats) : LatencyStats :=
  foldl (fun st t => add t st) st ts.

Definition sum_list (ts : list Z) : Z := foldr Z.add 0 ts.

(** The average printed by [LatencyStats::print]. *)
Definition average (st : LatencyStats) : Z :=
  if stat_count st =? 0 then 0 else stat_total st / stat_count st.

End Opt511000.

(** * Facts about machine integers and cells *)

Lemma nibble_4bit v : 0 <= v < 16 -> nibble v = v.
Proof.
  intros H. unfold nibble. change 15 with (Z.ones 4).
  rewrite Z.land_ones by lia. apply Z.mod_small. lia.
Qed.

Lemma u16_small n : 0 <= n < 65536 -> u16 n = n.
Proof. intros H. unfold u16. apply Z.mod_small. lia. Qed.

Lemma u32_small n : 0 <= n < 4294967296 -> u32 n = n.
Proof. intros H. unfold u32. apply Z.mod_small. lia. Qed.

Lemma land_low_bits a n m :
  0 <= n -> Z.land (Z.ones n) m = m ->
  Z.land (a mod 2 ^ n) m = Z.land a m.
Proof.
  intros Hn Hm. rewrite <- Z.land_ones by done.
  by rewrite <- Z.land_assoc, Hm.
Qed.

Lemma seqZ_snoc k : 0 <= k -> seqZ 0 (k + 1) = seqZ 0 k ++ [k].
Proof.
  intros Hk. rewrite seqZ_app by lia. reflexivity.
Qed.

(** * Facts about the port registers *)

Module AvrFacts.
Import Avr.

Lemma driven_eq b b' :
  driven b = driven b' <->
  regs b = regs b' /\ PORTA b = PORTA b' /\ DDRA b = DDRA b' /\
  stores b = stores b'.
Proof.
  unfold driven. split.
  - intros [= -> -> -> ->]. done.
  - intros (-> & -> & -> & ->). done.
Qed.

Lemma driven_read r b b' : driven b = driven b' -> read r b = read r b'.
Proof.
  intros (Hr & Ha & Hd & _)%driven_eq. destruct r; cbn [read]; congruence.
Qed.

Lemma driven_store r v b b' :
  driven b = driven b' -> driven (store r v b) = driven (store r v b').
Proof.
  intros (Hr & Ha & Hd & Hs)%driven_eq. apply driven_eq.
  unfold store. cbn [regs PORTA DDRA stores]. rewrite Hr, Ha, Hd, Hs. done.
Qed.

Lemma driven_cbi r bit b b' :
  driven b = driven b' -> driven (cbi r bit b) = driven (cbi r bit b').
Proof.
  intros H. unfold cbi. rewrite (driven_read r b b' H). by apply driven_store.
Qed.

Lemma driven_sbi r bit b b' :
  driven b = driven b' -> driven (sbi r bit b) = driven (sbi r bit b').
Proof.
  intros H. unfold sbi. rewrite (driven_read r b b' H). by apply driven_store.
Qed.

Lemma driven_log_call c b : driven (log_call c b) = driven b.
Proof. reflexivity. Qed.

Lemma calls_store r v b : calls (store r v b) = calls b.
Proof. reflexivity. Qed.

Lemma calls_cbi r bit b : calls (cbi r bit b) = calls b.
Proof. reflexivity. Qed.

Lemma calls_sbi r bit b : calls (sbi r bit b) = calls b.
Proof. reflexivity. Qed.

Lemma calls_log_call c b : calls (log_call c b) = calls b ++ [c].
Proof. reflexivity. Qed.

Lemma read_store r v b : read r (store r v b) = v.
Proof. by destruct r. Qed.

Lemma read_store_ne r r' v b : r <> r' -> read r (store r' v b) = read r b.
Proof. intros Hne. by destruct r, r'. Qed.

Lemma read_log_call r c b : read r (log_call c b) = read r b.
Proof. by destruct r. Qed.

Lemma stores_store r v b : stores (store r v b) = stores b ++ [(r, v)].
Proof. reflexivity. Qed.

Lemma stores_log_call c b : stores (log_call c b) = stores b.
Proof. reflexivity. Qed.

Lemma u8_idem n : u8 (u8 n) = u8 n.
Proof. unfold u8. apply Z.mod_mod. lia. Qed.

(** A bit after [sbi] and [cbi]. *)
Lemma testbit_sbi r r' bit n b :
  0 <= bit ->
  Z.testbit (read r (sbi r' bit b)) n
  = if bool_decide (r = r') && (bit =? n) then true
    else Z.testbit (read r b) n.
Proof.
  intros Hbit. unfold sbi. destruct (decide (r = r')) as [->|Hne].
  - rewrite read_store, bool_decide_eq_true_2 by done. cbn [andb].
    destruct (Z.eqb_spec bit n) as [->|Hn].
    + by apply Z.setbit_eq.
    + by apply Z.setbit_neq.
  - rewrite read_store_ne, bool_decide_eq_false_2 by done. done.
Qed.

Lemma testbit_cbi r r' bit n b :
  Z.testbit (read r (cbi r' bit b)) n
  = if bool_decide (r = r') && (bit =? n) then false
    else Z.testbit (read r b) n.
Proof.
  unfold cbi. destruct (decide (r = r')) as [->|Hne].
  - rewrite read_store, bool_decide_eq_true_2 by done. cbn [andb].
    destruct (Z.eqb_spec bit n) as [->|Hn].
    + by apply Z.clearbit_eq.
    + by apply Z.clearbit_neq.
  - rewrite read_store_ne, bool_decide_eq_false_2 by done. done.
Qed.

End AvrFacts.

(** * Facts about mega_edo_fb8_320x240_fix.ino *)

Module Fb8FixFacts.
Import Avr AvrFacts Fb8Fix.

Ltac unfold_consts :=
  unfold MAX_UPDATE_BUFFER_SIZE, FRAMEBUFFER_WIDTH, FRAMEBUFFER_HEIGHT,
    H_VISIBLE, V_VISIBLE, DRAM_COLS, DRAM_ROWS in *.

Ltac ring_arith :=
  unfold_consts; unfold u16, u32 in *; simpl in *;
  Z.div_mod_to_equations; lia.

Lemma next_index_eq w :
  0 <= w < MAX_UPDATE_BUFFER_SIZE ->
  u16 (w + 1) mod MAX_UPDATE_BUFFER_SIZE = (w + 1) mod MAX_UPDATE_BUFFER_SIZE.
Proof. intros H. rewrite u16_small; [done | unfold_consts; lia]. Qed.

Lemma ring_wf_init : ring_wf init.
Proof.
  unfold ring_wf, init.
  cbn [update_buffer update_buffer_write_index update_buffer_read_index].
  rewrite length_replicate. unfold_consts. lia.
Qed.

Lemma occupancy_bounds s :
  0 <= occupancy s <= MAX_UPDATE_BUFFER_SIZE - 1.
Proof. unfold occupancy. ring_arith. Qed.

(** ** [ring_slice] *)

Lemma ring_slice_length buf r n : length (ring_slice buf r n) = n.
Proof. revert r. induction n as [|n IH]; intros r; simpl; [done | by rewrite IH]. Qed.

Lemma ring_slice_snoc buf r n :
  0 <= r < MAX_UPDATE_BUFFER_SIZE ->
  ring_slice buf r (S n) =
  ring_slice buf r n
    ++ [buf !!! Z.to_nat ((r + Z.of_nat n) mod MAX_UPDATE_BUFFER_SIZE)].
Proof.
  revert r. induction n as [|n IH]; intros r Hr.
  - simpl. do 3 f_equal. ring_arith.
  - change (ring_slice buf r (S (S n))) with
      (buf !!! Z.to_nat r
         :: ring_slice buf ((r + 1) mod MAX_UPDATE_BUFFER_SIZE) (S n)).
    rewrite IH by ring_arith. simpl. do 4 f_equal.
    ring_arith.
Qed.

Lemma ring_slice_insert buf r n w u :
  0 <= r < MAX_UPDATE_BUFFER_SIZE ->
  0 <= w < MAX_UPDATE_BUFFER_SIZE ->
  (forall i, 0 <= i < Z.of_nat n ->
             (r + i) mod MAX_UPDATE_BUFFER_SIZE <> w) ->
  ring_slice (<[Z.to_nat w := u]> buf) r n = ring_slice buf r n.
Proof.
  revert r. induction n as [|n IH]; intros r Hr Hw Hne; simpl; [done|].
  f_equal.
  - apply list_lookup_total_insert_ne.
    specialize (Hne 0 ltac:(lia)). intros E. apply Hne.
    rewrite Z.add_0_r. rewrite Z.mod_small by lia. lia.
  - apply IH; [ring_arith | done |].
    intros i Hi. specialize (Hne (i + 1) ltac:(lia)).
    intros E. apply Hne. rewrite <- E. ring_arith.
Qed.

(** ** [drawPixel] *)

Lemma in_bounds_test x y :
  0 <= x < FRAMEBUFFER_WIDTH -> 0 <= y < FRAMEBUFFER_HEIGHT ->
  (FRAMEBUFFER_WIDTH <=? x) || (FRAMEBUFFER_HEIGHT <=? y) = false.
Proof. intros Hx Hy. apply orb_false_intro; apply Z.leb_gt; lia. Qed.

Lemma drawPixel_full x y color s :
  ring_wf s ->
  0 <= x < FRAMEBUFFER_WIDTH -> 0 <= y < FRAMEBUFFER_HEIGHT ->
  (update_buffer_write_index s + 1) mod MAX_UPDATE_BUFFER_SIZE
    = update_buffer_read_index s ->
  drawPixel x y color s = (false, set_buffer_overflow true s).
Proof.
  intros (_ & Hw & _) Hx Hy Hfull. unfold drawPixel.
  rewrite in_bounds_test by done. rewrite next_index_eq by done.
  rewrite Hfull, Z.eqb_refl. done.
Qed.

Lemma drawPixel_store x y color s :
  ring_wf s ->
  0 <= x < FRAMEBUFFER_WIDTH -> 0 <= y < FRAMEBUFFER_HEIGHT ->
  (update_buffer_write_index s + 1) mod MAX_UPDATE_BUFFER_SIZE
    <> update_buffer_read_index s ->
  drawPixel x y color s =
  (true,
   set_write_index
     ((update_buffer_write_index s + 1) mod MAX_UPDATE_BUFFER_SIZE)
     (set_update_buffer
        (<[Z.to_nat (update_buffer_write_index s) :=
             mkPixelUpdate x y color]> (update_buffer s)) s)).
Proof.
  intros (_ & Hw & _) Hx Hy Hfree. unfold drawPixel.
  rewrite in_bounds_test by done. rewrite next_index_eq by done.
  apply Z.eqb_neq in Hfree. rewrite Hfree. done.
Qed.

Lemma drawPixel_out x y color s :
  FRAMEBUFFER_WIDTH <= x \/ FRAMEBUFFER_HEIGHT <= y ->
  drawPixel x y color s = (false, s).
Proof.
  intros H. unfold drawPixel.
  replace ((FRAMEBUFFER_WIDTH <=? x) || (FRAMEBUFFER_HEIGHT <=? y)) with true;
    [done|].
  symmetry. apply orb_true_iff.
  destruct H; [left | right]; apply Z.leb_le; lia.
Qed.

(** A call to [drawPixel] leaves the ring well formed, whatever it returns. *)
Lemma drawPixel_wf x y color s : ring_wf s -> ring_wf (drawPixel x y color s).2.
Proof.
  intros Hwf. pose proof Hwf as (Hlen & Hw & Hr). unfold drawPixel.
  destruct ((FRAMEBUFFER_WIDTH <=? x) || (FRAMEBUFFER_HEIGHT <=? y)); [done|].
  destruct (_ =? _); [done|].
  unfold ring_wf; simpl. rewrite length_insert.
  split; [done|]. split; [|done]. ring_arith.
Qed.

Lemma pending_store u s :
  ring_wf s ->
  (update_buffer_write_index s + 1) mod MAX_UPDATE_BUFFER_SIZE
    <> update_buffer_read_index s ->
  pending
    (set_write_index
       ((update_buffer_write_index s + 1) mod MAX_UPDATE_BUFFER_SIZE)
       (set_update_buffer
          (<[Z.to_nat (update_buffer_write_index s) := u]> (update_buffer s))
          s))
  = pending s ++ [u].
Proof.
  intros (Hlen & Hw & Hr) Hfree. unfold pending, occupancy. simpl.
  set (w := update_buffer_write_index s) in *.
  set (r := update_buffer_read_index s) in *.
  replace (Z.to_nat (((w + 1) mod MAX_UPDATE_BUFFER_SIZE - r)
                       mod MAX_UPDATE_BUFFER_SIZE))
    with (S (Z.to_nat ((w - r) mod MAX_UPDATE_BUFFER_SIZE)))
    by ring_arith.
  rewrite ring_slice_snoc by done.
  rewrite ring_slice_insert; [| done | done | intros i Hi; ring_arith].
  f_equal. f_equal.
  replace ((r + Z.of_nat (Z.to_nat ((w - r) mod MAX_UPDATE_BUFFER_SIZE)))
             mod MAX_UPDATE_BUFFER_SIZE) with w by ring_arith.
  apply list_lookup_total_insert_eq. rewrite Hlen. unfold_consts. lia.
Qed.

(** ** [applyBufferUpdates] *)

Lemma pending_empty s :
  update_buffer_read_index s = update_buffer_write_index s -> pending s = [].
Proof.
  intros E. unfold pending, occupancy. rewrite E, Z.sub_diag. done.
Qed.

(** With enough fuel the loop returns: it has written the unread entries
    in order and moved the read index up to the write index. *)
Lemma applyBufferUpdates_loop_spec fuel s :
  ring_wf s ->
  (Z.to_nat (occupancy s) <= fuel)%nat ->
  applyBufferUpdates_loop fuel s =
  Some (set_read_index (update_buffer_write_index s)
          (set_dram (apply_updates (pending s) (dram s)) s)).
Proof.
  revert s. induction fuel as [|fuel IH]; intros s Hwf Hfuel.
  - assert (update_buffer_read_index s = update_buffer_write_index s) as E.
    { destruct Hwf as (_ & Hw & Hr). unfold occupancy in Hfuel. ring_arith. }
    simpl. rewrite E, Z.eqb_refl, pending_empty by done.
    destruct s; simpl in *; subst; done.
  - cbn [applyBufferUpdates_loop].
    destruct (Z.eqb_spec (update_buffer_read_index s)
                         (update_buffer_write_index s)) as [E|NE].
    + rewrite pending_empty by done. destruct s; simpl in *; subst; done.
    + pose proof Hwf as (Hlen & Hw & Hr).
      assert (Z.to_nat (update_buffer_read_index s) < length (update_buffer s))%nat
        as Hlt by (rewrite Hlen; unfold_consts; lia).
      destruct (lookup_lt_is_Some_2 _ _ Hlt) as [u Hu]. rewrite Hu.
      destruct (dram_address u) as [dram_row dram_col] eqn:Haddr.
      set (s1 := set_read_index _ _).
      assert (s1 = set_read_index
                     ((update_buffer_read_index s + 1)
                        mod MAX_UPDATE_BUFFER_SIZE)
                     (writeDRAM dram_row dram_col (upd_color u) s)) as Hs1.
      { subst s1. f_equal. apply next_index_eq. done. }
      assert (occupancy s = occupancy s1 + 1) as Hocc.
      { rewrite Hs1. unfold occupancy; simpl. ring_arith. }
      pose proof (occupancy_bounds s1) as Hb1.
      rewrite IH; cycle 1.
      { rewrite Hs1. unfold ring_wf; simpl.
        split; [done|]. split; [done|]. ring_arith. }
      { lia. }
      assert (pending s = u :: pending s1) as ->.
      { unfold pending at 1. rewrite Hocc.
        replace (Z.to_nat (occupancy s1 + 1)) with (S (Z.to_nat (occupancy s1)))
          by lia.
        cbn [ring_slice]. rewrite (list_lookup_total_correct _ _ _ Hu).
        f_equal. unfold pending. rewrite Hs1 at 2 3. done. }
      rewrite Hs1 at 1 3 4. unfold apply_updates. cbn [foldl].
      rewrite Haddr. done.
Qed.

Lemma applyBufferUpdates_spec s :
  ring_wf s ->
  applyBufferUpdates s =
  Some (set_read_index (update_buffer_write_index s)
          (set_dram (apply_updates (pending s) (dram s)) s)).
Proof.
  intros Hwf. apply applyBufferUpdates_loop_spec; [done|].
  pose proof (occupancy_bounds s). unfold_consts. lia.
Qed.

Lemma applyBufferUpdates_wf s s' :
  ring_wf s -> applyBufferUpdates s = Some s' ->
  ring_wf s' /\ occupancy s' = 0 /\ pending s' = [].
Proof.
  intros Hwf E. rewrite applyBufferUpdates_spec in E by done.
  injection E as <-. pose proof Hwf as (Hlen & Hw & Hr).
  split; [by unfold ring_wf|]. split.
  - unfold occupancy; simpl. by rewrite Z.sub_diag.
  - by apply pending_empty.
Qed.

(** ** Interrupt handlers *)

Lemma refresh_cycles_fold (l : list Z) s :
  foldl (fun s' _ =>
           set_cbr_cycles (cbr_cycles s' + 1)
             (set_dram (refresh_cycle (dram s')) s')) s l
  = set_cbr_cycles (cbr_cycles s + Z.of_nat (length l))
      (set_dram (foldl (fun b' _ => refresh_cycle b') (dram s) l) s).
Proof.
  revert s. induction l as [|a l IH]; intros s.
  - cbn [foldl length]. rewrite Z.add_0_r. by destruct s.
  - cbn [foldl]. rewrite IH. destruct s; unfold set_cbr_cycles, set_dram.
    cbn [cbr_cycles dram update_buffer update_buffer_write_index
         update_buffer_read_index buffer_overflow current_scanline
         current_video_line vblank_active frame_count timing_error TCCR3B
         length].
    f_equal. lia.
Qed.

Lemma refreshDRAM_spec s :
  refreshDRAM s
  = set_cbr_cycles (cbr_cycles s + DRAM_ROWS)
      (set_dram (refresh_bus (dram s)) s).
Proof.
  unfold refreshDRAM, refresh_bus.
  rewrite refresh_cycles_fold, length_seqZ. done.
Qed.

Lemma ISR_TIMER5_COMPA_spec s :
  ring_wf s -> ISR_TIMER5_COMPA s = Some (frame_handler_result s).
Proof.
  intros Hwf. unfold ISR_TIMER5_COMPA, frame_handler_result.
  rewrite applyBufferUpdates_spec by done.
  cbn [frame_count set_read_index set_dram set_vblank_active set_frame_count].
  destruct (_ =? 0); [|done].
  rewrite refreshDRAM_spec. done.
Qed.

Lemma ISR_TIMER1_COMPA_ring TCNT1 s :
  update_buffer (ISR_TIMER1_COMPA TCNT1 s) = update_buffer s /\
  update_buffer_write_index (ISR_TIMER1_COMPA TCNT1 s)
    = update_buffer_write_index s /\
  update_buffer_read_index (ISR_TIMER1_COMPA TCNT1 s)
    = update_buffer_read_index s.
Proof.
  unfold ISR_TIMER1_COMPA.
  destruct (_ <? TCNT1); destruct (active_line _); done.
Qed.

Lemma step_wf s s' : ring_wf s -> step s s' -> ring_wf s'.
Proof.
  intros Hwf Hstep. destruct Hstep as [x y color s|s|TCNT1 s|s s' E].
  - by apply drawPixel_wf.
  - unfold report_status.
    destruct (buffer_overflow s); destruct (timing_error _); done.
  - destruct (ISR_TIMER1_COMPA_ring TCNT1 s) as (Eb & Ew & Er).
    unfold ring_wf. by rewrite Eb, Ew, Er.
  - rewrite ISR_TIMER5_COMPA_spec in E by done. injection E as <-.
    destruct Hwf as (Hlen & Hw & Hr).
    unfold frame_handler_result. destruct (_ =? 0); by unfold ring_wf.
Qed.

Lemma reachable_wf s : reachable s -> ring_wf s.
Proof.
  unfold reachable. intros H. pose proof ring_wf_init as Hinit.
  induction H as [|s1 s2 s3 Hstep _ IH]; [done|].
  apply IH. by eapply step_wf.
Qed.

(** ** Address computation *)

Lemma pixel_index_in_bounds u :
  in_bounds u -> pixel_index u = upd_y u * FRAMEBUFFER_WIDTH + upd_x u.
Proof.
  intros [Hx Hy]. unfold pixel_index.
  rewrite (u32_small (upd_y u)) by (unfold_consts; lia).
  rewrite (u32_small (upd_y u * _)) by (unfold_consts; lia).
  apply u32_small. unfold_consts. lia.
Qed.

Lemma dram_address_in_bounds u :
  in_bounds u ->
  dram_address u =
  ((upd_y u * FRAMEBUFFER_WIDTH + upd_x u) / DRAM_COLS,
   (upd_y u * FRAMEBUFFER_WIDTH + upd_x u) mod DRAM_COLS).
Proof.
  intros Hb. unfold dram_address. rewrite pixel_index_in_bounds by done.
  destruct Hb as [Hx Hy].
  f_equal; apply u16_small; ring_arith.
Qed.

Lemma dram_address_inj u v :
  in_bounds u -> in_bounds v ->
  dram_address u = dram_address v -> same_pixel u v.
Proof.
  intros Hu Hv E. rewrite !dram_address_in_bounds in E by done.
  injection E as Ed Em. destruct Hu, Hv. unfold same_pixel. ring_arith.
Qed.

(** ** Writing a list of updates *)

Lemma apply_updates_app us vs d :
  apply_updates (us ++ vs) d = apply_updates vs (apply_updates us d).
Proof. unfold apply_updates. apply foldl_app. Qed.

(** ** The drain at the port registers *)

Lemma setDRAMAddress_mod row col p :
  setDRAMAddress row col p = setDRAMAddress (row mod 2 ^ 3) (col mod 2 ^ 6) p.
Proof.
  unfold setDRAMAddress.
  rewrite (land_low_bits row 3 7) by done.
  rewrite (land_low_bits col 6 3) by done.
  rewrite <- (Z.land_ones col 6) by lia.
  rewrite Z.shiftr_land, <- Z.land_assoc. reflexivity.
Qed.

Lemma setDRAMAddress_alias row col row' col' p :
  row mod 2 ^ 3 = row' mod 2 ^ 3 -> col mod 2 ^ 6 = col' mod 2 ^ 6 ->
  setDRAMAddress row col p = setDRAMAddress row' col' p.
Proof.
  intros Hr Hc.
  rewrite (setDRAMAddress_mod row col), (setDRAMAddress_mod row' col').
  by rewrite Hr, Hc.
Qed.

Lemma driven_store_DRAMAddress row col row' col' b b' :
  driven b = driven b' ->
  row mod 2 ^ 3 = row' mod 2 ^ 3 -> col mod 2 ^ 6 = col' mod 2 ^ 6 ->
  driven (store_DRAMAddress row col b)
  = driven (store_DRAMAddress row' col' b').
Proof.
  intros Hb Hr Hc. unfold store_DRAMAddress. cbv zeta.
  assert (regs b = regs b') as <- by (by apply driven_eq in Hb as (? & _)).
  rewrite (setDRAMAddress_alias row col row' col' (regs b) Hr Hc).
  by do 3 apply driven_store.
Qed.

Lemma driven_write_cycle color color' b b' :
  driven b = driven b' -> u8 color = u8 color' ->
  driven (write_cycle color b) = driven (write_cycle color' b').
Proof.
  intros Hb Hc. unfold write_cycle. cbv zeta. rewrite Hc.
  do 3 apply driven_sbi. apply driven_store. by do 3 apply driven_cbi.
Qed.

(** [writeDRAM] drives the registers in the same way for two calls whose
    rows agree in the low three bits, whose columns agree in the low six
    bits and whose colours agree in the low eight bits. *)
Lemma driven_writeDRAM_bus row col color row' col' color' b b' :
  driven b = driven b' ->
  row mod 2 ^ 3 = row' mod 2 ^ 3 -> col mod 2 ^ 6 = col' mod 2 ^ 6 ->
  u8 color = u8 color' ->
  driven (writeDRAM_bus row col color b)
  = driven (writeDRAM_bus row' col' color' b').
Proof.
  intros Hb Hr Hc Hcol. unfold writeDRAM_bus.
  apply driven_write_cycle; [|done].
  apply driven_store_DRAMAddress; [|done..].
  apply driven_store. by rewrite !driven_log_call.
Qed.

Lemma calls_store_DRAMAddress row col b :
  calls (store_DRAMAddress row col b) = calls b.
Proof. reflexivity. Qed.

Lemma calls_write_cycle color b : calls (write_cycle color b) = calls b.
Proof. reflexivity. Qed.

Lemma calls_writeDRAM_bus row col color b :
  calls (writeDRAM_bus row col color b) = calls b ++ [WriteCall row col color].
Proof. reflexivity. Qed.

Lemma apply_updates_cons u us b :
  apply_updates (u :: us) b
  = apply_updates us
      (writeDRAM_bus (dram_address u).1 (dram_address u).2 (upd_color u) b).
Proof. reflexivity. Qed.

Lemma apply_updates_calls us b :
  calls (apply_updates us b) = calls b ++ (write_call <$> us).
Proof.
  revert b. induction us as [|u us IH]; intros b.
  - by rewrite app_nil_r.
  - rewrite apply_updates_cons, IH, calls_writeDRAM_bus, fmap_cons.
    by rewrite <- app_assoc.
Qed.

Lemma apply_updates_driven us vs b b' :
  driven b = driven b' -> port_view <$> us = port_view <$> vs ->
  driven (apply_updates us b) = driven (apply_updates vs b').
Proof.
  revert vs b b'. induction us as [|u us IH]; intros [|v vs] b b' Hb Hv;
    try done.
  rewrite !fmap_cons in Hv. injection Hv as Hr Hc Hcol Hrest.
  rewrite !apply_updates_cons. apply IH; [|done].
  by apply driven_writeDRAM_bus.
Qed.

(** ** Sequences of [drawPixel] calls *)

Lemma full_iff_occupancy s :
  ring_wf s ->
  (update_buffer_write_index s + 1) mod MAX_UPDATE_BUFFER_SIZE
    = update_buffer_read_index s
  <-> occupancy s = MAX_UPDATE_BUFFER_SIZE - 1.
Proof. intros (_ & Hw & Hr). unfold occupancy. split; intros E; ring_arith. Qed.

Lemma enqueue_all_cons u us s :
  enqueue_all (u :: us) s =
  ((drawPixel (upd_x u) (upd_y u) (upd_color u) s).1
     :: (enqueue_all us
           (drawPixel (upd_x u) (upd_y u) (upd_color u) s).2).1,
   (enqueue_all us (drawPixel (upd_x u) (upd_y u) (upd_color u) s).2).2).
Proof.
  cbn [enqueue_all]. destruct (drawPixel _ _ _ s) as [ok s1].
  cbn [fst snd]. by destruct (enqueue_all us s1).
Qed.

(** What [drawPixel] leaves alone. *)
Lemma drawPixel_dram x y color s : dram (drawPixel x y color s).2 = dram s.
Proof.
  unfold drawPixel.
  destruct ((FRAMEBUFFER_WIDTH <=? x) || (FRAMEBUFFER_HEIGHT <=? y)); [done|].
  by destruct (_ =? _).
Qed.

(** An accepted call was in range and stored its update at the end of
    the unread region. *)
Lemma drawPixel_accepted x y color s :
  ring_wf s -> (drawPixel x y color s).1 = true ->
  x < FRAMEBUFFER_WIDTH /\ y < FRAMEBUFFER_HEIGHT /\
  pending (drawPixel x y color s).2 = pending s ++ [mkPixelUpdate x y color].
Proof.
  intros Hwf. pose proof Hwf as (Hlen & Hw & Hr). unfold drawPixel.
  destruct (Z.leb_spec FRAMEBUFFER_WIDTH x); [done|].
  destruct (Z.leb_spec FRAMEBUFFER_HEIGHT y); [done|].
  cbn [orb]. rewrite next_index_eq by done.
  destruct (Z.eqb_spec
              ((update_buffer_write_index s + 1) mod MAX_UPDATE_BUFFER_SIZE)
              (update_buffer_read_index s)) as [E|NE]; [done|].
  intros _. cbn [fst snd]. by rewrite pending_store.
Qed.

Lemma enqueue_all_accepted us s :
  ring_wf s ->
  Forall (fun ok => ok = true) (enqueue_all us s).1 ->
  ring_wf (enqueue_all us s).2 /\
  dram (enqueue_all us s).2 = dram s /\
  pending (enqueue_all us s).2 = pending s ++ us /\
  Forall (fun u => upd_x u < FRAMEBUFFER_WIDTH /\
                   upd_y u < FRAMEBUFFER_HEIGHT) us.
Proof.
  revert s. induction us as [|u us IH]; intros s Hwf Hok.
  - simpl. by rewrite app_nil_r.
  - rewrite enqueue_all_cons in *. cbn [fst snd] in *.
    inversion Hok as [|? ? Hu Hus]; subst.
    destruct (drawPixel_accepted _ _ _ s Hwf Hu) as (Hx & Hy & Hp).
    destruct (IH _ (drawPixel_wf _ _ _ s Hwf) Hus) as (Hwf' & Hd & Hp' & Hb).
    split; [done|]. split; [by rewrite Hd, drawPixel_dram|].
    split; [|by constructor].
    rewrite Hp', Hp, <- app_assoc. by destruct u.
Qed.

Lemma enqueue_all_capacity us s :
  ring_wf s -> Forall in_bounds us ->
  (enqueue_all us s).1 =
    replicate (Nat.min (free_slots s) (length us)) true
      ++ replicate (length us - free_slots s) false /\
  pending (enqueue_all us s).2 = pending s ++ take (free_slots s) us /\
  buffer_overflow (enqueue_all us s).2 =
    buffer_overflow s || bool_decide (free_slots s < length us)%nat.
Proof.
  revert s. induction us as [|u us IH]; intros s Hwf Hb.
  - simpl. by rewrite Nat.min_0_r, take_nil, !app_nil_r, orb_false_r.
  - inversion Hb as [|? ? Hu Hus]; subst. destruct Hu as [Hx Hy].
    rewrite enqueue_all_cons. cbn [fst snd].
    pose proof (occupancy_bounds s) as Hocc.
    destruct (decide ((update_buffer_write_index s + 1)
                        mod MAX_UPDATE_BUFFER_SIZE
                      = update_buffer_read_index s)) as [Hfull|Hfree].
    + rewrite drawPixel_full by done. cbn [fst snd].
      apply full_iff_occupancy in Hfull; [|done].
      assert (free_slots s = 0%nat) as Hz by (unfold free_slots; lia).
      destruct (IH (set_buffer_overflow true s)) as (Hr & Hp & Ho); [done..|].
      change (free_slots (set_buffer_overflow true s))
        with (free_slots s) in *.
      change (pending (set_buffer_overflow true s)) with (pending s) in *.
      rewrite Hr, Hp, Ho, Hz. simpl.
      by rewrite Nat.sub_0_r, orb_true_r.
    + rewrite drawPixel_store by done. cbn [fst snd].
      set (s1 := set_write_index _ _).
      assert (ring_wf s1) as Hwf1.
      { pose proof (drawPixel_wf (upd_x u) (upd_y u) (upd_color u) s Hwf) as H.
        by rewrite drawPixel_store in H. }
      assert (occupancy s1 = occupancy s + 1) as Hocc1.
      { rewrite full_iff_occupancy in Hfree by done.
        destruct Hwf as (_ & Hw & Hr). subst s1.
        unfold occupancy in *; simpl. ring_arith. }
      assert (free_slots s = S (free_slots s1)) as Hfs.
      { rewrite full_iff_occupancy in Hfree by done. unfold free_slots. lia. }
      destruct (IH s1 Hwf1 Hus) as (Hr & Hp & Ho).
      rewrite Hr, Hp, Ho, Hfs. subst s1. rewrite pending_store by done.
      cbn [length]. rewrite <- Nat.succ_min_distr. simpl.
      rewrite <- app_assoc. destruct u. simpl.
      split; [done|]. split; [done|].
      f_equal. apply bool_decide_ext. lia.
Qed.

(** ** The update ring: enqueue *)

(** C2.  For an in-range pixel, [drawPixel] on a full ring (advancing the
    write index would reach the read index) sets [buffer_overflow] and
    returns [false] with both indices and the whole array, hence every
    unread entry, unchanged; on a ring that is not full it stores
    [{x, y, color}] in the slot at the write index, touches no other slot,
    advances the write index by one modulo [MAX_UPDATE_BUFFER_SIZE] and
    returns [true]. *)
Theorem drawPixel_full_or_store x y color s :
  ring_wf s ->
  0 <= x < FRAMEBUFFER_WIDTH -> 0 <= y < FRAMEBUFFER_HEIGHT ->
  let next := (update_buffer_write_index s + 1) mod MAX_UPDATE_BUFFER_SIZE in
  let ok := (drawPixel x y color s).1 in
  let s' := (drawPixel x y color s).2 in
  (next = update_buffer_read_index s ->
     ok = false /\ buffer_overflow s' = true /\
     update_buffer_write_index s' = update_buffer_write_index s /\
     update_buffer_read_index s' = update_buffer_read_index s /\
     update_buffer s' = update_buffer s /\
     pending s' = pending s) /\
  (next <> update_buffer_read_index s ->
     ok = true /\
     update_buffer s' !! Z.to_nat (update_buffer_write_index s)
       = Some (mkPixelUpdate x y color) /\
     (forall i : nat, i <> Z.to_nat (update_buffer_write_index s) ->
        update_buffer s' !! i = update_buffer s !! i) /\
     update_buffer_write_index s' = next /\
     update_buffer_read_index s' = update_buffer_read_index s /\
     buffer_overflow s' = buffer_overflow s /\
     pending s' = pending s ++ [mkPixelUpdate x y color]).
Proof.
  intros Hwf Hx Hy next ok s'. subst next ok s'. split; intros Hnext.
  - rewrite drawPixel_full by done. done.
  - rewrite drawPixel_store by done.
    cbn [fst snd]. rewrite pending_store by done.
    destruct Hwf as (Hlen & Hw & Hr).
    repeat split; try done.
    + simpl. apply list_lookup_insert_eq. rewrite Hlen. unfold_consts. lia.
    + intros i Hi. simpl. by apply list_lookup_insert_ne.
Qed.

Lemma drawPixel_full_or_store_witness :
  (drawPixel 7 9 5 init).1 = true /\
  pending (drawPixel 7 9 5 init).2 = [mkPixelUpdate 7 9 5].
Proof.
  assert (0 <= 7 < FRAMEBUFFER_WIDTH) as Hx by (unfold_consts; lia).
  assert (0 <= 9 < FRAMEBUFFER_HEIGHT) as Hy by (unfold_consts; lia).
  destruct (drawPixel_full_or_store 7 9 5 init ring_wf_init Hx Hy)
    as [_ Hstore].
  assert ((update_buffer_write_index init + 1) mod MAX_UPDATE_BUFFER_SIZE
          <> update_buffer_read_index init) as Hfree
    by (vm_compute; discriminate).
  destruct (Hstore Hfree) as (Hok & _ & _ & _ & _ & _ & Hp).
  split; [exact Hok|]. rewrite Hp. reflexivity.
Defined.

(** C10.  For an out-of-bounds request [drawPixel] returns [false] and
    leaves the whole state as it was: indices, array and both flags. *)
Theorem drawPixel_out_of_bounds x y color s :
  FRAMEBUFFER_WIDTH <= x \/ FRAMEBUFFER_HEIGHT <= y ->
  drawPixel x y color s = (false, s).
Proof. apply drawPixel_out. Qed.

Lemma drawPixel_out_of_bounds_witness :
  drawPixel 320 0 15 init = (false, init).
Proof.
  apply (drawPixel_out_of_bounds 320 0 15 init).
  left. vm_compute. discriminate.
Defined.

(** ** The update ring: occupancy *)

(** C9.  In every reachable state both indices are below
    [MAX_UPDATE_BUFFER_SIZE] and the number of unread entries is at most
    [MAX_UPDATE_BUFFER_SIZE - 1].  [drawPixel] keeps this, and never
    writes the slot that precedes the read index; [applyBufferUpdates]
    returns and keeps it as well, leaving the ring empty. *)
Theorem ring_occupancy_invariant s :
  reachable s ->
  (ring_wf s /\
   length (pending s) = Z.to_nat (occupancy s) /\
   0 <= occupancy s <= MAX_UPDATE_BUFFER_SIZE - 1) /\
  (forall x y color,
     let s' := (drawPixel x y color s).2 in
     let before_read :=
       Z.to_nat ((update_buffer_read_index s - 1) mod MAX_UPDATE_BUFFER_SIZE) in
     ring_wf s' /\
     0 <= occupancy s' <= MAX_UPDATE_BUFFER_SIZE - 1 /\
     update_buffer s' !! before_read = update_buffer s !! before_read) /\
  (exists s', applyBufferUpdates s = Some s' /\
     ring_wf s' /\ occupancy s' = 0).
Proof.
  intros Hreach. pose proof (reachable_wf s Hreach) as Hwf.
  split; [|split].
  - split; [done|]. split; [|apply occupancy_bounds].
    unfold pending. apply ring_slice_length.
  - intros x y color s' before_read. subst s' before_read.
    split; [by apply drawPixel_wf|]. split; [apply occupancy_bounds|].
    unfold drawPixel.
    destruct ((FRAMEBUFFER_WIDTH <=? x) || (FRAMEBUFFER_HEIGHT <=? y)); [done|].
    destruct Hwf as (Hlen & Hw & Hr).
    rewrite next_index_eq by done.
    destruct (Z.eqb_spec
                ((update_buffer_write_index s + 1) mod MAX_UPDATE_BUFFER_SIZE)
                (update_buffer_read_index s)) as [E|NE]; [done|].
    simpl. apply list_lookup_insert_ne. ring_arith.
  - exists (set_read_index (update_buffer_write_index s)
              (set_dram (apply_updates (pending s) (dram s)) s)).
    pose proof (applyBufferUpdates_spec s Hwf) as E.
    split; [done|].
    destruct (applyBufferUpdates_wf s _ Hwf E) as (Hwf' & Hocc' & _). done.
Qed.

Lemma ring_occupancy_invariant_witness :
  ring_wf (drawPixel 1 1 1 init).2 /\
  occupancy (drawPixel 1 1 1 init).2 <= MAX_UPDATE_BUFFER_SIZE - 1.
Proof.
  assert (reachable (drawPixel 1 1 1 init).2) as Hreach.
  { unfold reachable. eapply rtc_l; [apply step_draw | apply rtc_refl]. }
  destruct (ring_occupancy_invariant _ Hreach) as ((Hwf & _ & _ & Hocc) & _).
  split; [exact Hwf | exact Hocc].
Defined.

(** ** The update ring: drain *)

(** C3.  The drain cannot keep two pixels apart whose addresses agree in
    the low three bits of the row and the low six bits of the column,
    because [setDRAMAddress] passes no other address bit to the port
    registers.  Pixels (0, 0) and (64, 0) map to the cells (0, 0) and
    (0, 64).  Draining [drawPixel(0, 0, 1); drawPixel(64, 0, 2)] and
    draining [drawPixel(64, 0, 1); drawPixel(0, 0, 2)], all four calls
    accepted, make the same stores to the same registers in the same
    order.  So whatever the chip does with what it is driven with, its
    cells hold the same after both runs, whereas last-write-wins asks for
    colours 1 and 2 in cells (0, 0) and (0, 64) after the first run and
    for 2 and 1 after the second. *)
Theorem drain_confuses_pixels :
  let run_a := [mkPixelUpdate 0 0 1; mkPixelUpdate 64 0 2] in
  let run_b := [mkPixelUpdate 64 0 1; mkPixelUpdate 0 0 2] in
  dram_address (mkPixelUpdate 0 0 1) = (0, 0) /\
  dram_address (mkPixelUpdate 64 0 2) = (0, 64) /\
  (enqueue_all run_a init).1 = [true; true] /\
  (enqueue_all run_b init).1 = [true; true] /\
  exists s_a s_b,
    applyBufferUpdates (enqueue_all run_a init).2 = Some s_a /\
    applyBufferUpdates (enqueue_all run_b init).2 = Some s_b /\
    pending s_a = [] /\ pending s_b = [] /\
    calls (dram s_a) = [WriteCall 0 0 1; WriteCall 0 64 2] /\
    calls (dram s_b) = [WriteCall 0 64 1; WriteCall 0 0 2] /\
    driven (dram s_a) = driven (dram s_b) /\
    forall content : ports * Z * Z * list (register * Z) -> Z * Z -> option Z,
      ~ (content (driven (dram s_a)) (0, 0) = Some 1 /\
         content (driven (dram s_a)) (0, 64) = Some 2 /\
         content (driven (dram s_b)) (0, 64) = Some 1 /\
         content (driven (dram s_b)) (0, 0) = Some 2).
Proof.
  cbv zeta.
  set (run_a := [mkPixelUpdate 0 0 1; mkPixelUpdate 64 0 2]).
  set (run_b := [mkPixelUpdate 64 0 1; mkPixelUpdate 0 0 2]).
  assert ((enqueue_all run_a init).1 = [true; true]) as Ha
    by (vm_compute; reflexivity).
  assert ((enqueue_all run_b init).1 = [true; true]) as Hb
    by (vm_compute; reflexivity).
  split; [vm_compute; reflexivity|]. split; [vm_compute; reflexivity|].
  split; [exact Ha|]. split; [exact Hb|].
  assert (Forall (fun ok => ok = true) (enqueue_all run_a init).1) as Ha'
    by (rewrite Ha; repeat constructor).
  assert (Forall (fun ok => ok = true) (enqueue_all run_b init).1) as Hb'
    by (rewrite Hb; repeat constructor).
  destruct (enqueue_all_accepted run_a init ring_wf_init Ha')
    as (Hwfa & Hda & Hpa & _).
  destruct (enqueue_all_accepted run_b init ring_wf_init Hb')
    as (Hwfb & Hdb & Hpb & _).
  rewrite (pending_empty init) in Hpa, Hpb by done.
  rewrite app_nil_l in Hpa, Hpb.
  eexists _, _.
  split; [by apply applyBufferUpdates_spec|].
  split; [by apply applyBufferUpdates_spec|].
  split; [by apply pending_empty|]. split; [by apply pending_empty|].
  cbn [dram set_read_index set_dram]. rewrite Hpa, Hpb, Hda, Hdb.
  assert (driven (apply_updates run_a (dram init))
          = driven (apply_updates run_b (dram init))) as Hsame.
  { apply apply_updates_driven; [done|]. vm_compute. reflexivity. }
  split; [rewrite apply_updates_calls; vm_compute; reflexivity|].
  split; [rewrite apply_updates_calls; vm_compute; reflexivity|].
  split; [exact Hsame|].
  intros content (H1 & _ & _ & H2). rewrite Hsame in H1. congruence.
Qed.

(** ** The update ring: overflow *)

(** C4, as the code behaves.  Starting from an empty ring,
    [MAX_UPDATE_BUFFER_SIZE + 5] calls of [drawPixel] with in-range pixels
    and no drain in between: the first [MAX_UPDATE_BUFFER_SIZE - 1] calls
    are accepted and the last six are dropped, [buffer_overflow] is set,
    and the ring holds exactly the oldest [MAX_UPDATE_BUFFER_SIZE - 1]
    updates in order. *)
Theorem overflow_keeps_oldest us s :
  ring_wf s ->
  update_buffer_read_index s = update_buffer_write_index s ->
  Forall in_bounds us ->
  length us = Z.to_nat (MAX_UPDATE_BUFFER_SIZE + 5) ->
  (enqueue_all us s).1 =
    replicate (Z.to_nat (MAX_UPDATE_BUFFER_SIZE - 1)) true
      ++ replicate 6 false /\
  dropped (enqueue_all us s).1 = 6%nat /\
  buffer_overflow (enqueue_all us s).2 = true /\
  pending (enqueue_all us s).2
    = take (Z.to_nat (MAX_UPDATE_BUFFER_SIZE - 1)) us.
Proof.
  intros Hwf Hempty Hb Hlen.
  destruct (enqueue_all_capacity us s Hwf Hb) as (Hr & Hp & Ho).
  assert (free_slots s = Z.to_nat (MAX_UPDATE_BUFFER_SIZE - 1)) as Hfree.
  { unfold free_slots, occupancy. rewrite Hempty, Z.sub_diag.
    by rewrite Z.mod_0_l. }
  rewrite Hfree, Hlen in *.
  rewrite (pending_empty s Hempty) in Hp.
  assert ((enqueue_all us s).1 =
          replicate (Z.to_nat (MAX_UPDATE_BUFFER_SIZE - 1)) true
            ++ replicate 6 false) as Hr'.
  { by rewrite Hr. }
  split; [done|]. split; [|split; [|done]].
  - rewrite Hr'. vm_compute. reflexivity.
  - rewrite Ho. rewrite bool_decide_eq_true_2; [by rewrite orb_true_r|].
    unfold_consts. lia.
Qed.

Lemma overflow_scenario_in_bounds : Forall in_bounds overflow_scenario.
Proof.
  unfold overflow_scenario. apply Forall_fmap, Forall_forall.
  intros i Hi. apply elem_of_seqZ in Hi. unfold in_bounds; simpl.
  ring_arith.
Qed.

Lemma overflow_keeps_oldest_witness :
  dropped (enqueue_all overflow_scenario init).1 = 6%nat /\
  buffer_overflow (enqueue_all overflow_scenario init).2 = true.
Proof.
  assert (length overflow_scenario = Z.to_nat (MAX_UPDATE_BUFFER_SIZE + 5))
    as Hlen by (vm_compute; reflexivity).
  destruct (overflow_keeps_oldest overflow_scenario init ring_wf_init
              eq_refl overflow_scenario_in_bounds Hlen)
    as (_ & Hd & Ho & _).
  split; [exact Hd | exact Ho].
Defined.

(** C4 as stated fails: with [MAX_UPDATE_BUFFER_SIZE + 5] in-range updates
    enqueued into the empty initial ring it is not the case that exactly
    five calls are dropped and the ring holds the oldest
    [MAX_UPDATE_BUFFER_SIZE] updates. *)
Lemma overflow_drops_five_counterexample :
  ~ (dropped (enqueue_all overflow_scenario init).1 = 5%nat /\
     buffer_overflow (enqueue_all overflow_scenario init).2 = true /\
     pending (enqueue_all overflow_scenario init).2
       = take (Z.to_nat MAX_UPDATE_BUFFER_SIZE) overflow_scenario).
Proof.
  unfold not. intros H. destruct H as [Hfive _].
  assert (dropped (enqueue_all overflow_scenario init).1 = 6%nat) as Hsix
    by (vm_compute; reflexivity).
  congruence.
Qed.

(** ** The line handler *)

Lemma active_line_iff l :
  active_line l = true <-> 25 <= l < 263.
Proof.
  unfold active_line, V_TOTAL, V_FRONT_PORCH, V_SYNC_PULSE, V_BACK_PORCH,
    V_VISIBLE.
  rewrite andb_true_iff, Z.leb_le, Z.ltb_lt. lia.
Qed.

(** C1, checked on the code.  Lines 263 and 264 lie in the range
    [[v_blank_lines, v_blank_lines + V_VISIBLE)] = [[25, 265)] and below
    [V_TOTAL], yet the predicate of the line handler is false on them:
    it holds on 238 line values of a frame, not on [V_VISIBLE = 240]. *)
Theorem active_line_short_by_two :
  V_FRONT_PORCH + V_SYNC_PULSE + V_BACK_PORCH = 25 /\
  V_TOTAL = 25 + V_VISIBLE /\
  active_line 262 = true /\
  active_line 263 = false /\
  active_line 264 = false /\
  length (filter (fun l => active_line l = true) (seqZ 0 V_TOTAL)) = 238%nat.
Proof. repeat split; vm_compute; reflexivity. Qed.

(** The handler itself at that input: line 263 is blanked (SE is raised
    and Timer3 stopped) and no row transfer is requested. *)
Lemma ISR_TIMER1_COMPA_line_263 TCNT1 s :
  current_scanline s = 262 ->
  current_scanline (ISR_TIMER1_COMPA TCNT1 s) = 263 /\
  Z.testbit (PORTC (regs (dram (ISR_TIMER1_COMPA TCNT1 s)))) SE_BIT = true /\
  TCCR3B (ISR_TIMER1_COMPA TCNT1 s) = 0 /\
  calls (dram (ISR_TIMER1_COMPA TCNT1 s)) = calls (dram s).
Proof.
  intros H. unfold ISR_TIMER1_COMPA. cbn [current_scanline set_current_scanline].
  rewrite H. change (u16 (262 + 1)) with 263.
  destruct (_ <? TCNT1);
    cbn [current_scanline set_timing_error set_current_scanline];
    change (active_line 263) with false; cbv iota;
    cbn [current_scanline set_TCCR3B set_dram dram TCCR3B set_timing_error
         set_current_scanline];
    (split; [done|]; split; [|done]);
    change (PORTC (regs ?b)) with (read RegPORTC b);
    rewrite testbit_sbi by done; reflexivity.
Qed.

(** ** Further properties: [drawRect] *)

Lemma rect_pixels_elem u x y x_end y_end color :
  u ∈ rect_pixels x y x_end y_end color <->
  x <= upd_x u < x_end /\ y <= upd_y u < y_end /\ upd_color u = color.
Proof.
  unfold rect_pixels. rewrite list_elem_of_bind. split.
  - intros (j & Hu & Hj). apply list_elem_of_fmap in Hu as (i & -> & Hi).
    apply elem_of_seqZ in Hi, Hj. simpl. lia.
  - intros (Hx & Hy & Hc). exists (upd_y u). split.
    + apply list_elem_of_fmap. exists (upd_x u).
      split; [destruct u; simpl in *; by subst | apply elem_of_seqZ; lia].
    + apply elem_of_seqZ. lia.
Qed.

Lemma rect_pixels_in_bounds x y x_end y_end color :
  0 <= x -> 0 <= y ->
  x_end <= FRAMEBUFFER_WIDTH -> y_end <= FRAMEBUFFER_HEIGHT ->
  Forall in_bounds (rect_pixels x y x_end y_end color).
Proof.
  intros Hx Hy Hxe Hye. apply Forall_forall. intros u Hu.
  apply rect_pixels_elem in Hu. unfold in_bounds. lia.
Qed.

Lemma rect_pixels_length x y x_end y_end color :
  length (rect_pixels x y x_end y_end color)
  = (Z.to_nat (y_end - y) * Z.to_nat (x_end - x))%nat.
Proof.
  unfold rect_pixels.
  assert (forall l : list Z,
            length (l ≫= (fun j => (fun i => mkPixelUpdate i j color)
                                      <$> seqZ x (x_end - x)))
            = (length l * Z.to_nat (x_end - x))%nat) as H.
  { induction l as [|j l IH]; [done|].
    rewrite bind_cons, length_app, IH, length_fmap, length_seqZ.
    simpl. lia. }
  rewrite H, length_seqZ. reflexivity.
Qed.

(** The loop body stores in-range pixels until the ring is full, then
    stops. *)
Lemma draw_each_spec us s :
  ring_wf s -> Forall in_bounds us ->
  ring_wf (draw_each us s) /\
  pending (draw_each us s) = pending s ++ take (free_slots s) us /\
  buffer_overflow (draw_each us s) =
    buffer_overflow s || bool_decide (free_slots s < length us)%nat /\
  dram (draw_each us s) = dram s.
Proof.
  revert s. induction us as [|u us IH]; intros s Hwf Hb.
  - simpl. by rewrite take_nil, app_nil_r, orb_false_r.
  - inversion Hb as [|? ? Hu Hus]; subst. destruct Hu as [Hx Hy].
    cbn [draw_each].
    pose proof (occupancy_bounds s) as Hocc.
    destruct (decide ((update_buffer_write_index s + 1)
                        mod MAX_UPDATE_BUFFER_SIZE
                      = update_buffer_read_index s)) as [Hfull|Hfree].
    + rewrite drawPixel_full by done.
      apply full_iff_occupancy in Hfull; [|done].
      assert (free_slots s = 0%nat) as Hz by (unfold free_slots; lia).
      rewrite Hz. cbn [take length].
      change (pending (set_buffer_overflow true s)) with (pending s).
      rewrite app_nil_r. split; [done|]. split; [done|].
      split; [|done]. cbn [buffer_overflow set_buffer_overflow].
      rewrite bool_decide_eq_true_2 by lia. by rewrite orb_true_r.
    + rewrite drawPixel_store by done.
      set (s1 := set_write_index _ _).
      assert (ring_wf s1) as Hwf1.
      { pose proof (drawPixel_wf (upd_x u) (upd_y u) (upd_color u) s Hwf) as H.
        by rewrite drawPixel_store in H. }
      assert (occupancy s1 = occupancy s + 1) as Hocc1.
      { rewrite full_iff_occupancy in Hfree by done.
        destruct Hwf as (_ & Hw & Hr). subst s1.
        unfold occupancy in *; simpl. ring_arith. }
      assert (free_slots s = S (free_slots s1)) as Hfs.
      { rewrite full_iff_occupancy in Hfree by done. unfold free_slots. lia. }
      destruct (IH s1 Hwf1 Hus) as (Hwf' & Hp & Ho & Hd).
      rewrite Hp, Ho, Hd, Hfs. subst s1. rewrite pending_store by done.
      cbn [length take]. rewrite <- app_assoc. destruct u. simpl.
      split; [done|]. split; [done|]. split; [|done].
      f_equal. apply bool_decide_ext. lia.
Qed.

Lemma rect_bounds x w :
  Z.min (u16 (x + w)) FRAMEBUFFER_WIDTH <= FRAMEBUFFER_WIDTH /\
  Z.min (u16 (x + w)) FRAMEBUFFER_HEIGHT <= FRAMEBUFFER_HEIGHT.
Proof. lia. Qed.

(** X1.  [drawRect] clips the rectangle to the framebuffer, so every
    pixel it passes to [drawPixel] is in range; it appends the clipped
    pixels to the unread entries in row-major order, as many as the ring
    has free slots, sets [buffer_overflow] exactly when some did not fit
    (or it was set before), and writes no DRAM cell: it makes no store to
    the port registers. *)
Theorem drawRect_enqueues x y w h color s :
  ring_wf s -> 0 <= x -> 0 <= y ->
  let px := rect_pixels x y (Z.min (u16 (x + w)) FRAMEBUFFER_WIDTH)
              (Z.min (u16 (y + h)) FRAMEBUFFER_HEIGHT) color in
  Forall in_bounds px /\
  ring_wf (drawRect x y w h color s) /\
  pending (drawRect x y w h color s) = pending s ++ take (free_slots s) px /\
  buffer_overflow (drawRect x y w h color s) =
    buffer_overflow s || bool_decide (free_slots s < length px)%nat /\
  dram (drawRect x y w h color s) = dram s.
Proof.
  intros Hwf Hx Hy px.
  assert (Forall in_bounds px) as Hb.
  { apply rect_pixels_in_bounds; [done | done | apply rect_bounds..]. }
  split; [done|]. by apply draw_each_spec.
Qed.

Lemma drawRect_enqueues_witness :
  pending (drawRect 318 239 10 10 7 init)
  = [mkPixelUpdate 318 239 7; mkPixelUpdate 319 239 7] /\
  buffer_overflow (drawRect 318 239 10 10 7 init) = false.
Proof.
  assert (0 <= 318) as Hx by lia. assert (0 <= 239) as Hy by lia.
  destruct (drawRect_enqueues 318 239 10 10 7 init ring_wf_init Hx Hy)
    as (_ & _ & Hp & Ho & _).
  split; [rewrite Hp | rewrite Ho]; reflexivity.
Defined.

(** For an in-range pixel the call of the drain carries the address
    computed from the linear index. *)
Lemma write_call_in_bounds u :
  in_bounds u ->
  write_call u
  = WriteCall ((upd_y u * FRAMEBUFFER_WIDTH + upd_x u) / DRAM_COLS)
      ((upd_y u * FRAMEBUFFER_WIDTH + upd_x u) mod DRAM_COLS) (upd_color u).
Proof.
  intros Hb. unfold write_call. by rewrite dram_address_in_bounds.
Qed.

Lemma apply_updates_formula us b :
  Forall in_bounds us ->
  apply_updates us b
  = foldl (fun b' u =>
             writeDRAM_bus
               ((upd_y u * FRAMEBUFFER_WIDTH + upd_x u) / DRAM_COLS)
               ((upd_y u * FRAMEBUFFER_WIDTH + upd_x u) mod DRAM_COLS)
               (upd_color u) b') b us.
Proof.
  intros Hus. revert b. induction Hus as [|u us Hu Hus IH]; intros b; [done|].
  rewrite apply_updates_cons, IH. cbn [foldl].
  by rewrite (dram_address_in_bounds u Hu).
Qed.


(** X2.  A rectangle that fits into the empty ring is written by the
    next drain: the drain calls [writeDRAM] once for every pixel of the
    clipped rectangle, in row-major order, with row [i / DRAM_COLS] and
    column [i mod DRAM_COLS] of the pixel's linear index
    [i = y * FRAMEBUFFER_WIDTH + x] and with the colour, and makes no
    other call; the ring is empty afterwards and the overflow flag is as
    it was. *)
Theorem drawRect_then_drain x y w h color s :
  ring_wf s ->
  update_buffer_read_index s = update_buffer_write_index s ->
  0 <= x -> 0 <= y ->
  let x_end := Z.min (u16 (x + w)) FRAMEBUFFER_WIDTH in
  let y_end := Z.min (u16 (y + h)) FRAMEBUFFER_HEIGHT in
  (Z.to_nat (y_end - y) * Z.to_nat (x_end - x)
   <= Z.to_nat (MAX_UPDATE_BUFFER_SIZE - 1))%nat ->
  exists s',
    applyBufferUpdates (drawRect x y w h color s) = Some s' /\
    pending s' = [] /\
    buffer_overflow s' = buffer_overflow s /\
    calls (dram s')
    = calls (dram s)
      ++ ((fun u =>
             WriteCall
               ((upd_y u * FRAMEBUFFER_WIDTH + upd_x u) / DRAM_COLS)
               ((upd_y u * FRAMEBUFFER_WIDTH + upd_x u) mod DRAM_COLS) color)
            <$> rect_pixels x y x_end y_end color) /\
    dram s' = apply_updates (rect_pixels x y x_end y_end color) (dram s).
Proof.
  intros Hwf Hempty Hx Hy x_end y_end Hfit.
  assert (free_slots s = Z.to_nat (MAX_UPDATE_BUFFER_SIZE - 1)) as Hfree.
  { unfold free_slots, occupancy. rewrite Hempty, Z.sub_diag.
    by rewrite Z.mod_0_l. }
  assert (Forall in_bounds (rect_pixels x y x_end y_end color)) as Hb.
  { apply rect_pixels_in_bounds; [done | done | apply rect_bounds..]. }
  destruct (draw_each_spec (rect_pixels x y x_end y_end color) s Hwf Hb)
    as (Hwf' & Hp & Ho & Hd).
  change (drawRect x y w h color s)
    with (draw_each (rect_pixels x y x_end y_end color) s).
  rewrite (pending_empty s Hempty), Hfree, app_nil_l in Hp.
  rewrite firstn_all2 in Hp by (rewrite rect_pixels_length; lia).
  eexists. split; [by apply applyBufferUpdates_spec|].
  cbn [dram buffer_overflow set_read_index set_dram].
  rewrite Hp, Hd, Ho, Hfree.
  split; [by apply pending_empty|]. split.
  { rewrite bool_decide_eq_false_2; [apply orb_false_r|].
    rewrite rect_pixels_length. lia. }
  split; [|done].
  rewrite apply_updates_calls. f_equal.
  apply Forall_fmap_ext, Forall_forall. intros u Hu.
  rewrite Forall_forall in Hb. rewrite (write_call_in_bounds u (Hb u Hu)).
  apply rect_pixels_elem in Hu as (_ & _ & ->). done.
Qed.

Lemma drawRect_then_drain_witness :
  exists s',
    applyBufferUpdates (drawRect 10 10 4 4 15 init) = Some s' /\
    pending s' = [] /\
    length (calls (dram s')) = 16%nat.
Proof.
  assert (0 <= 10) as H0 by lia.
  assert (Z.to_nat (Z.min (u16 (10 + 4)) FRAMEBUFFER_HEIGHT - 10)
          * Z.to_nat (Z.min (u16 (10 + 4)) FRAMEBUFFER_WIDTH - 10)
          <= Z.to_nat (MAX_UPDATE_BUFFER_SIZE - 1))%nat as Hfit
    by (change (16 <= 511)%nat; lia).
  destruct (drawRect_then_drain 10 10 4 4 15 init ring_wf_init eq_refl H0 H0
              Hfit) as (s' & Hs' & Hp & _ & Hc & _).
  exists s'. split; [exact Hs'|]. split; [exact Hp|].
  rewrite Hc. reflexivity.
Defined.

(** ** Further properties: [clearFramebuffer] *)

(** The pixel with linear index [p]. *)
Lemma clear_address p color :
  0 <= p < FRAMEBUFFER_WIDTH * FRAMEBUFFER_HEIGHT ->
  in_bounds (mkPixelUpdate (p mod FRAMEBUFFER_WIDTH) (p / FRAMEBUFFER_WIDTH)
               color) /\
  dram_address (mkPixelUpdate (p mod FRAMEBUFFER_WIDTH)
                  (p / FRAMEBUFFER_WIDTH) color)
  = (u16 (p / DRAM_COLS), u16 (p mod DRAM_COLS)).
Proof.
  intros Hp.
  assert (in_bounds (mkPixelUpdate (p mod FRAMEBUFFER_WIDTH)
                       (p / FRAMEBUFFER_WIDTH) color)) as Hb.
  { unfold in_bounds. simpl. ring_arith. }
  split; [done|]. rewrite dram_address_in_bounds by done. simpl.
  replace (p / FRAMEBUFFER_WIDTH * FRAMEBUFFER_WIDTH + p mod FRAMEBUFFER_WIDTH)
    with p by ring_arith.
  f_equal; symmetry; apply u16_small; ring_arith.
Qed.

Lemma clear_fold color (l : list Z) s :
  Forall (fun p => 0 <= p < FRAMEBUFFER_WIDTH * FRAMEBUFFER_HEIGHT) l ->
  foldl (fun s' pixel_index =>
           writeDRAM (u16 (pixel_index / DRAM_COLS))
             (u16 (pixel_index mod DRAM_COLS)) color s') s l
  = set_dram
      (apply_updates
         ((fun p => mkPixelUpdate (p mod FRAMEBUFFER_WIDTH)
                      (p / FRAMEBUFFER_WIDTH) color) <$> l)
         (dram s)) s.
Proof.
  revert s. induction l as [|p l IH]; intros s Hl; [by destruct s|].
  inversion Hl as [|? ? Hp Hl']; subst.
  cbn [foldl]. rewrite IH by done. rewrite fmap_cons, apply_updates_cons.
  destruct (clear_address p color Hp) as [_ ->].
  cbn [fst snd upd_color]. unfold writeDRAM. by destruct s.
Qed.

Lemma clearFramebuffer_writes color s :
  clearFramebuffer color s
  = set_dram
      (apply_updates
         ((fun p => mkPixelUpdate (p mod FRAMEBUFFER_WIDTH)
                      (p / FRAMEBUFFER_WIDTH) color)
            <$> seqZ 0 (FRAMEBUFFER_WIDTH * FRAMEBUFFER_HEIGHT))
         (dram s)) s.
Proof.
  unfold clearFramebuffer.
  change (u32 (u32 FRAMEBUFFER_WIDTH * FRAMEBUFFER_HEIGHT))
    with (FRAMEBUFFER_WIDTH * FRAMEBUFFER_HEIGHT).
  apply clear_fold, Forall_forall. intros p Hp.
  apply elem_of_seqZ in Hp. lia.
Qed.

(** X3.  [clearFramebuffer] calls [writeDRAM] once for every linear index
    [0, 1, ..., FRAMEBUFFER_WIDTH * FRAMEBUFFER_HEIGHT - 1], in increasing
    order, with row [i / DRAM_COLS], column [i mod DRAM_COLS] and the
    colour, so that the address the drain uses for a framebuffer pixel is
    among the addresses it writes; it makes the same stores as a drain of
    these pixels would, and touches nothing but the port registers: the
    update ring and the flags stay as they were. *)
Theorem clearFramebuffer_spec color s :
  calls (dram (clearFramebuffer color s))
  = calls (dram s)
    ++ ((fun i => WriteCall (i / DRAM_COLS) (i mod DRAM_COLS) color)
          <$> seqZ 0 (FRAMEBUFFER_WIDTH * FRAMEBUFFER_HEIGHT)) /\
  (forall u, in_bounds u ->
     WriteCall (dram_address u).1 (dram_address u).2 color
       ∈ calls (dram (clearFramebuffer color s))) /\
  dram (clearFramebuffer color s)
  = apply_updates
      ((fun i => mkPixelUpdate (i mod FRAMEBUFFER_WIDTH)
                   (i / FRAMEBUFFER_WIDTH) color)
         <$> seqZ 0 (FRAMEBUFFER_WIDTH * FRAMEBUFFER_HEIGHT)) (dram s) /\
  clearFramebuffer color s = set_dram (dram (clearFramebuffer color s)) s.
Proof.
  pose proof (clearFramebuffer_writes color s) as Hclear.
  set (px := (fun i => mkPixelUpdate (i mod FRAMEBUFFER_WIDTH)
                         (i / FRAMEBUFFER_WIDTH) color)
               <$> seqZ 0 (FRAMEBUFFER_WIDTH * FRAMEBUFFER_HEIGHT)) in *.
  assert (dram (clearFramebuffer color s) = apply_updates px (dram s)) as Hd
    by (by rewrite Hclear).
  assert (calls (apply_updates px (dram s))
          = calls (dram s)
            ++ ((fun i => WriteCall (i / DRAM_COLS) (i mod DRAM_COLS) color)
                  <$> seqZ 0 (FRAMEBUFFER_WIDTH * FRAMEBUFFER_HEIGHT)))
    as Hcalls.
  { subst px. clear Hclear Hd.
    rewrite apply_updates_calls, <- list_fmap_compose.
    apply (f_equal (app (calls (dram s)))).
    apply Forall_fmap_ext, Forall_forall. intros i Hi.
    apply elem_of_seqZ in Hi. unfold compose, write_call.
    destruct (clear_address i color) as [_ ->]; [lia|].
    cbn [fst snd upd_color]. f_equal; apply u16_small; ring_arith. }
  rewrite Hd. split; [exact Hcalls|]. split; [|split; [reflexivity|]].
  - intros u [Hx Hy]. rewrite Hcalls. clear Hclear Hd Hcalls px.
    apply elem_of_app. right. apply list_elem_of_fmap.
    exists (upd_y u * FRAMEBUFFER_WIDTH + upd_x u). split.
    + rewrite (dram_address_in_bounds u (conj Hx Hy)). reflexivity.
    + apply elem_of_seqZ. ring_arith.
  - exact Hclear.
Qed.

Lemma clearFramebuffer_spec_witness :
  WriteCall (dram_address (mkPixelUpdate 319 239 0)).1
    (dram_address (mkPixelUpdate 319 239 0)).2 3
    ∈ calls (dram (clearFramebuffer 3 init)).
Proof.
  destruct (clearFramebuffer_spec 3 init) as (_ & Hin & _).
  apply Hin. unfold in_bounds; unfold_consts; simpl; lia.
Defined.

(** ** Further properties: the line handler over a frame *)

Lemma ISR_TIMER1_COMPA_fields TCNT1 s :
  let l := u16 (current_scanline s + 1) in
  let s' := ISR_TIMER1_COMPA TCNT1 s in
  current_scanline s' = l /\
  timing_error s' = timing_error s || (Z.shiftr ICR1 1 <? TCNT1) /\
  buffer_overflow s' = buffer_overflow s /\
  (active_line l = true ->
     current_video_line s' = u16 (current_video_line s + 1) /\
     dram s'
     = cbi RegPORTC SE_BIT (transfer_bus (current_video_line s) (dram s)) /\
     TCCR3B s' = 1) /\
  (active_line l = false ->
     current_video_line s' = current_video_line s /\
     dram s' = sbi RegPORTC SE_BIT (dram s) /\
     TCCR3B s' = 0).
Proof.
  intros l s'. subst l s'. unfold ISR_TIMER1_COMPA.
  destruct (Z.shiftr ICR1 1 <? TCNT1);
    cbn [current_scanline set_current_scanline set_timing_error];
    destruct (active_line (u16 (current_scanline s + 1)));
    cbn [current_scanline timing_error buffer_overflow current_video_line
         dram TCCR3B set_TCCR3B set_dram set_current_video_line
         transferRowToSAM set_timing_error set_current_scanline];
    rewrite ?orb_true_r, ?orb_false_r; repeat split; done.
Qed.

Lemma run_lines_snoc readings TCNT1 s :
  run_lines (readings ++ [TCNT1]) s
  = ISR_TIMER1_COMPA TCNT1 (run_lines readings s).
Proof. unfold run_lines. by rewrite foldl_app. Qed.

Lemma calls_transfer_bus row b :
  calls (transfer_bus row b) = calls b ++ [TransferCall row].
Proof. reflexivity. Qed.

(** X4.  Counting from the frame handler's reset, the [n]-th line
    interrupt of a frame finds line number [n]; on lines 25 to 262 it
    calls [transferRowToSAM] with row [n - 25] and enables the pixel
    output (SE low, Timer3 started), on all other lines it requests no
    row and blanks (SE high, Timer3 stopped).  So the rows requested in a
    frame are 0, 1, ..., 237, in this order: rows 238 and 239 are never
    requested. *)
Theorem lines_of_a_frame readings s :
  current_scanline s = 0 -> current_video_line s = 0 ->
  Z.of_nat (length readings) < 65536 ->
  let n := Z.of_nat (length readings) in
  let s' := run_lines readings s in
  current_scanline s' = n /\
  current_video_line s' = Z.max 0 (Z.min (n - 24) 238) /\
  calls (dram s')
  = calls (dram s)
    ++ (TransferCall <$> seqZ 0 (Z.max 0 (Z.min (n - 24) 238))) /\
  (25 <= n < 263 ->
     Z.testbit (PORTC (regs (dram s'))) SE_BIT = false /\ TCCR3B s' = 1) /\
  (0 < n < 25 \/ 263 <= n ->
     Z.testbit (PORTC (regs (dram s'))) SE_BIT = true /\ TCCR3B s' = 0).
Proof.
  intros Hsl Hvl. cbv zeta.
  induction readings as [|t readings IH] using rev_ind.
  - intros _. cbn [length run_lines foldl].
    rewrite Hsl, Hvl. split; [done|]. split; [done|].
    split; [by rewrite app_nil_r|]. split; intros; lia.
  - rewrite length_app. cbn [length]. intros Hlen.
    destruct IH as (Hs & Hv & Hc & _ & _); [lia|].
    set (n := Z.of_nat (length readings + 1)).
    rewrite run_lines_snoc.
    pose proof (ISR_TIMER1_COMPA_fields t (run_lines readings s)) as Hf.
    cbv zeta in Hf. rewrite Hs in Hf.
    assert (u16 (Z.of_nat (length readings) + 1) = n) as Hn
      by (subst n; rewrite u16_small; lia).
    rewrite Hn in Hf.
    destruct Hf as (Hs' & _ & _ & Hon & Hoff).
    destruct (active_line n) eqn:Ha.
    + apply active_line_iff in Ha.
      destruct (Hon eq_refl) as (Hv' & Hd' & Htc).
      rewrite Hv in Hv', Hd'.
      split; [done|]. split.
      { rewrite Hv'. rewrite u16_small by lia. lia. }
      split; [|split; [|intros; lia]].
      * rewrite Hd', calls_cbi, calls_transfer_bus, Hc, <- app_assoc.
        f_equal.
        replace (Z.max 0 (Z.min (n - 24) 238))
          with (Z.max 0 (Z.min (Z.of_nat (length readings) - 24) 238) + 1)
          by lia.
        rewrite seqZ_snoc by lia. by rewrite fmap_app.
      * intros _. split; [|done]. rewrite Hd'.
        change (PORTC (regs ?b)) with (read RegPORTC b).
        by rewrite testbit_cbi.
    + assert (~ 25 <= n < 263) as Hna
        by (rewrite <- active_line_iff; congruence).
      destruct (Hoff eq_refl) as (Hv' & Hd' & Htc).
      split; [done|]. split; [rewrite Hv', Hv; lia|].
      split; [|split; [intros; lia|]].
      * rewrite Hd', calls_sbi, Hc. do 3 f_equal. lia.
      * intros _. split; [|done]. rewrite Hd'.
        change (PORTC (regs ?b)) with (read RegPORTC b).
        by rewrite testbit_sbi.
Qed.

Lemma lines_of_a_frame_witness :
  calls (dram (run_lines (replicate 265 0) init))
  = TransferCall <$> seqZ 0 238 /\
  current_video_line (run_lines (replicate 265 0) init) = 238.
Proof.
  assert (Z.of_nat (length (replicate 265 0)) < 65536) as H
    by (rewrite length_replicate; lia).
  destruct (lines_of_a_frame (replicate 265 0) init eq_refl eq_refl H)
    as (_ & Hv & Hc & _).
  rewrite length_replicate in Hv, Hc.
  split; [exact Hc | exact Hv].
Defined.

(** ** Further properties: the health flags *)

Lemma applyBufferUpdates_loop_flags fuel s s' :
  applyBufferUpdates_loop fuel s = Some s' ->
  buffer_overflow s' = buffer_overflow s /\
  timing_error s' = timing_error s.
Proof.
  revert s. induction fuel as [|fuel IH]; intros s; cbn [applyBufferUpdates_loop].
  - destruct (_ =? _); [|done]. by intros [= <-].
  - destruct (_ =? _); [by intros [= <-]|].
    destruct (update_buffer s !! _) as [u|]; [|done].
    destruct (dram_address u) as [r c]. intros H.
    by destruct (IH _ H) as [-> ->].
Qed.

(** X5.  The health flags are sticky: [drawPixel] may set
    [buffer_overflow] but never clears it, the line handler raises
    [timing_error] exactly when the counter reading exceeds half a line
    ([ICR1 >> 1 = 319]) and never clears it, the frame handler changes
    neither flag, and only the status report clears them. *)
Theorem health_flags_sticky :
  (forall x y color s,
     (buffer_overflow s = true ->
      buffer_overflow (drawPixel x y color s).2 = true) /\
     timing_error (drawPixel x y color s).2 = timing_error s) /\
  (forall TCNT1 s,
     buffer_overflow (ISR_TIMER1_COMPA TCNT1 s) = buffer_overflow s /\
     timing_error (ISR_TIMER1_COMPA TCNT1 s)
       = timing_error s || (319 <? TCNT1)) /\
  (forall s s', ISR_TIMER5_COMPA s = Some s' ->
     buffer_overflow s' = buffer_overflow s /\
     timing_error s' = timing_error s) /\
  (forall s,
     buffer_overflow (report_status s) = false /\
     timing_error (report_status s) = false).
Proof.
  split; [|split; [|split]].
  - intros x y color s. unfold drawPixel.
    destruct ((FRAMEBUFFER_WIDTH <=? x) || (FRAMEBUFFER_HEIGHT <=? y)); [done|].
    by destruct (_ =? _).
  - intros TCNT1 s.
    destruct (ISR_TIMER1_COMPA_fields TCNT1 s) as (_ & Ht & Hb & _). done.
  - intros s s'. unfold ISR_TIMER5_COMPA, applyBufferUpdates.
    destruct (applyBufferUpdates_loop _ _) as [s2|] eqn:E; [|done].
    apply applyBufferUpdates_loop_flags in E as [Eb Et].
    intros [= <-]. destruct (_ =? 0).
    + rewrite refreshDRAM_spec. done.
    + done.
  - intros s. unfold report_status.
    destruct (buffer_overflow s) eqn:Eb; destruct (timing_error s) eqn:Et;
      cbn; rewrite ?Eb, ?Et; cbn; done.
Qed.

Lemma health_flags_sticky_witness :
  buffer_overflow (ISR_TIMER1_COMPA 0 (set_buffer_overflow true init)) = true.
Proof.
  destruct health_flags_sticky as (_ & Hline & _).
  destruct (Hline 0 (set_buffer_overflow true init)) as [Hb _].
  rewrite Hb. reflexivity.
Defined.

(** ** Further properties: [setDRAMAddress] *)

(** X6.  [setDRAMAddress] puts only the low six bits of [col] and the low
    three bits of [row] on the ports, so rows that differ by a multiple
    of 8 give the same port values; and because the column bits 2 to 5 go
    to [PORTL] bits 2 to 5, it overwrites the RAS line ([PORTL] bit 3)
    with bit 3 of [col] and the CAS line (bit 4) with bit 4 of [col]. *)
Theorem setDRAMAddress_low_bits row col p :
  setDRAMAddress row col p = setDRAMAddress (row mod 2 ^ 3) (col mod 2 ^ 6) p /\
  setDRAMAddress (row + 8) col p = setDRAMAddress row col p /\
  Z.testbit (PORTL (setDRAMAddress row col p)) RAS_BIT = Z.testbit col 3 /\
  Z.testbit (PORTL (setDRAMAddress row col p)) CAS_BIT = Z.testbit col 4.
Proof.
  assert (forall r, Z.land (r mod 2 ^ 3) 7 = Z.land r 7) as Hrow
    by (intros r; by apply land_low_bits).
  assert (setDRAMAddress row col p
          = setDRAMAddress (row mod 2 ^ 3) (col mod 2 ^ 6) p) as Hlow.
  { unfold setDRAMAddress. rewrite Hrow.
    rewrite (land_low_bits col 6 3) by done.
    rewrite <- (Z.land_ones col 6) by lia.
    rewrite Z.shiftr_land, <- Z.land_assoc. reflexivity. }
  split; [exact Hlow|]. split.
  - unfold setDRAMAddress. f_equal. f_equal. f_equal. f_equal.
    rewrite <- (Hrow (row + 8)), <- (Hrow row). f_equal.
    change 8 with (1 * 2 ^ 3). apply Z.mod_add. lia.
  - unfold setDRAMAddress, RAS_BIT, CAS_BIT, u8. cbn [PORTL].
    rewrite !Z.mod_pow2_bits_low by lia.
    rewrite !Z.lor_spec, !Z.land_spec, !Z.shiftl_spec by lia.
    rewrite !Z.land_spec, !Z.shiftr_spec by lia.
    cbn. rewrite !andb_false_r, !andb_true_r. split; reflexivity.
Qed.

(** ** Further properties: [writeDRAM] and [transferRowToSAM] at the port
    registers *)

Lemma driven_transfer_bus row row' b b' :
  driven b = driven b' -> row mod 2 ^ 3 = row' mod 2 ^ 3 ->
  driven (transfer_bus row b) = driven (transfer_bus row' b').
Proof.
  intros Hb Hr. unfold transfer_bus. cbv zeta.
  apply driven_sbi, driven_sbi, driven_cbi, driven_cbi.
  apply driven_store_DRAMAddress; [|done..].
  apply driven_store. by rewrite !driven_log_call.
Qed.

(** X21.  What [writeDRAM] and [transferRowToSAM] do to the port
    registers depends on the low three bits of the row, the low six bits
    of the column and the low eight bits of the colour only: two calls
    that agree in these make the same stores.  After [writeDRAM] the
    three strobes RAS, CAS and WE are high again, the data direction
    register holds [0x0F] and the data port the colour; the colour is
    stored to the data port only after the store that lowers WE, which
    itself follows the stores that lower RAS and CAS. *)
Theorem writeDRAM_registers row col color b :
  driven (writeDRAM_bus row col color b)
  = driven (writeDRAM_bus (row mod 2 ^ 3) (col mod 2 ^ 6) (u8 color) b) /\
  driven (transfer_bus row b) = driven (transfer_bus (row mod 2 ^ 3) b) /\
  Z.testbit (PORTL (regs (writeDRAM_bus row col color b))) RAS_BIT = true /\
  Z.testbit (PORTL (regs (writeDRAM_bus row col color b))) CAS_BIT = true /\
  Z.testbit (PORTC (regs (writeDRAM_bus row col color b))) WE_BIT = true /\
  DDRA (writeDRAM_bus row col color b) = 0x0F /\
  PORTA (writeDRAM_bus row col color b) = u8 color /\
  exists pre v_ras v_cas v_we post,
    stores (writeDRAM_bus row col color b)
    = stores b ++ pre
      ++ [(RegPORTL, v_ras); (RegPORTL, v_cas); (RegPORTC, v_we);
          (RegPORTA, u8 color)] ++ post /\
    Z.testbit v_ras RAS_BIT = false /\
    Z.testbit v_cas CAS_BIT = false /\
    Z.testbit v_we WE_BIT = false /\
    Forall (fun e => e.1 <> RegPORTA) pre.
Proof.
  split; [|split].
  { apply driven_writeDRAM_bus; [done|..].
    - symmetry. apply Z.mod_mod. lia.
    - symmetry. apply Z.mod_mod. lia.
    - symmetry. apply u8_idem. }
  { apply driven_transfer_bus; [done|]. symmetry. apply Z.mod_mod. lia. }
  unfold writeDRAM_bus, write_cycle. cbv zeta.
  set (b0 := store_DRAMAddress row col
               (store RegDDRA 15 (log_call (WriteCall row col color) b))).
  split; [|split; [|split; [|split; [|split]]]].
  - change (PORTL (regs ?x)) with (read RegPORTL x).
    by rewrite testbit_sbi.
  - change (PORTL (regs ?x)) with (read RegPORTL x).
    rewrite testbit_sbi by done. cbn [bool_decide decide_rel andb].
    change (bool_decide (RegPORTL = RegPORTL) && (RAS_BIT =? CAS_BIT))
      with false. cbv iota.
    by rewrite testbit_sbi.
  - change (PORTC (regs ?x)) with (read RegPORTC x).
    rewrite !testbit_sbi by done.
    change (bool_decide (RegPORTC = RegPORTL)) with false. cbn [andb].
    by change (bool_decide (RegPORTC = RegPORTC) && (WE_BIT =? WE_BIT))
      with true.
  - reflexivity.
  - reflexivity.
  - unfold sbi, cbi. rewrite !stores_store.
    subst b0. unfold store_DRAMAddress. cbv zeta.
    rewrite !stores_store, stores_log_call, <- !app_assoc.
    cbn [app].
    eexists [_; _; _; _], _, _, _, [_; _; _].
    split; [reflexivity|].
    split; [apply Z.clearbit_eq|]. split; [apply Z.clearbit_eq|].
    split; [apply Z.clearbit_eq|].
    repeat constructor; discriminate.
Qed.

End Fb8FixFacts.

(** * Facts about unnamed/part_002 *)

Module Msm514262Facts.
Import Msm514262.

Lemma digitalWrite_plain pin v b :
  plain pin -> digitalWrite pin v b = set_level pin v b.
Proof.
  intros (H1 & H2 & H3). unfold digitalWrite, chip_react.
  apply Z.eqb_neq in H1, H2, H3. by rewrite H1, H2, H3.
Qed.

Lemma ADDRESS_PINS_plain : Forall plain ADDRESS_PINS.
Proof. repeat constructor; unfold RAS_PIN, CAS_PIN, WE_PIN; lia. Qed.

Lemma DATA_PINS_plain : Forall plain DATA_PINS.
Proof. repeat constructor; unfold RAS_PIN, CAS_PIN, WE_PIN; lia. Qed.

Lemma ADDRESS_PINS_NoDup : NoDup ADDRESS_PINS.
Proof. by compute_done. Qed.

Lemma DATA_PINS_NoDup : NoDup DATA_PINS.
Proof. by compute_done. Qed.

(** ** The pin loops *)

Lemma write_pins_frame pins i v b :
  Forall plain pins ->
  modes (write_pins pins i v b) = modes b /\
  row_latch (write_pins pins i v b) = row_latch b /\
  col_latch (write_pins pins i v b) = col_latch b /\
  array (write_pins pins i v b) = array b /\
  (forall p, p ∉ pins -> levels (write_pins pins i v b) p = levels b p).
Proof.
  revert i b. induction pins as [|pin rest IH]; intros i b Hpl; [done|].
  inversion Hpl as [|? ? Hpin Hrest]; subst.
  cbn [write_pins]. rewrite digitalWrite_plain by done.
  destruct (IH (i + 1) (set_level pin (level_of (Z.land (Z.shiftr v i) 1)) b)
              Hrest) as (Hm & Hr & Hc & Ha & Hl).
  rewrite Hm, Hr, Hc, Ha. repeat split; try done.
  intros p Hp. apply not_elem_of_cons in Hp as [Hne Hp].
  rewrite Hl by done. simpl. by destruct (Z.eqb_spec p pin).
Qed.

Lemma level_of_bit x : Z.b2z (level_of (Z.land x 1)) = x mod 2.
Proof.
  change 1 with (Z.ones 1). rewrite Z.land_ones by lia.
  change (2 ^ 1) with 2. unfold level_of.
  destruct (Z.eqb_spec (x mod 2) 0) as [E|NE]; simpl; [lia|].
  pose proof (Z.mod_pos_bound x 2). lia.
Qed.

(** After the loop the lines carry the low bits of the value. *)
Lemma write_pins_value pins i v b :
  Forall plain pins -> NoDup pins -> 0 <= i ->
  bus_value pins (levels (write_pins pins i v b))
  = Z.shiftr v i mod 2 ^ Z.of_nat (length pins).
Proof.
  revert i b. induction pins as [|pin rest IH]; intros i b Hpl Hnd Hi.
  - simpl. by rewrite Z.mod_1_r.
  - inversion Hpl as [|? ? Hpin Hrest]; subst.
    inversion Hnd as [|? ? Hnotin Hnd']; subst.
    cbn [write_pins bus_value]. rewrite digitalWrite_plain by done.
    rewrite IH by (done || lia).
    destruct (write_pins_frame rest (i + 1) v
                (set_level pin (level_of (Z.land (Z.shiftr v i) 1)) b) Hrest)
      as (_ & _ & _ & _ & Hl).
    rewrite Hl by done. simpl levels. rewrite Z.eqb_refl, level_of_bit.
    replace (Z.shiftr v (i + 1)) with (Z.shiftr v i / 2).
    2:{ rewrite <- Z.shiftr_shiftr by lia.
        rewrite (Z.shiftr_div_pow2 _ 1) by lia. done. }
    cbn [length]. rewrite Nat2Z.inj_succ, Z.pow_succ_r by lia.
    rewrite Z.rem_mul_r by lia. done.
Qed.

Lemma bus_value_ext pins f g :
  (forall p, p ∈ pins -> f p = g p) -> bus_value pins f = bus_value pins g.
Proof.
  induction pins as [|pin rest IH]; intros H; [done|].
  simpl. rewrite H by apply list_elem_of_here. rewrite IH; [done|].
  intros p Hp. apply H. by apply list_elem_of_further.
Qed.

Lemma setAddress_spec a b :
  0 <= a < 512 ->
  address_bus (setAddress a b) = a /\
  modes (setAddress a b) = modes b /\
  row_latch (setAddress a b) = row_latch b /\
  col_latch (setAddress a b) = col_latch b /\
  array (setAddress a b) = array b /\
  (forall p, p ∉ ADDRESS_PINS -> levels (setAddress a b) p = levels b p).
Proof.
  intros Ha. unfold setAddress, address_bus. split.
  - rewrite write_pins_value; [| apply ADDRESS_PINS_plain | | lia].
    + rewrite Z.shiftr_0_r. apply Z.mod_small. simpl. lia.
    + apply ADDRESS_PINS_NoDup.
  - apply write_pins_frame, ADDRESS_PINS_plain.
Qed.

Lemma writeDataBus_spec v b :
  0 <= v < 16 ->
  (forall p, p ∈ DATA_PINS -> modes b p = OUTPUT) ->
  data_bus (writeDataBus v b) = v /\
  modes (writeDataBus v b) = modes b /\
  row_latch (writeDataBus v b) = row_latch b /\
  col_latch (writeDataBus v b) = col_latch b /\
  array (writeDataBus v b) = array b /\
  (forall p, p ∉ DATA_PINS -> levels (writeDataBus v b) p = levels b p).
Proof.
  intros Hv Hout. unfold writeDataBus.
  pose proof (write_pins_frame DATA_PINS 0 v b DATA_PINS_plain)
    as (Hm & Hr & Hc & Ha & Hl).
  split; [|done]. unfold data_bus.
  rewrite (bus_value_ext _ _ (levels (write_pins DATA_PINS 0 v b))).
  - rewrite write_pins_value;
      [| apply DATA_PINS_plain | apply DATA_PINS_NoDup | lia].
    rewrite Z.shiftr_0_r. apply Z.mod_small. simpl. lia.
  - intros p Hp. by rewrite Hm, Hout.
Qed.

(** ** Edges on the control lines *)

Lemma chip_react_levels pin old b :
  levels (chip_react pin old b) = levels b.
Proof. unfold chip_react, chip_store. by repeat case_match. Qed.

Lemma digitalWrite_levels pin v b p :
  levels (digitalWrite pin v b) p = if p =? pin then v else levels b p.
Proof. unfold digitalWrite. by rewrite chip_react_levels. Qed.

Lemma digitalWrite_HIGH pin b :
  pin <> RAS_PIN -> digitalWrite pin HIGH b = set_level pin HIGH b.
Proof.
  intros H. apply Z.eqb_neq in H. unfold digitalWrite, chip_react.
  rewrite H. simpl. rewrite Z.eqb_refl. simpl. rewrite !andb_false_r.
  by repeat destruct (_ =? _).
Qed.

Lemma digitalWrite_RAS_LOW b :
  levels b RAS_PIN = HIGH ->
  digitalWrite RAS_PIN LOW b =
  mkBoard (modes b) (levels (set_level RAS_PIN LOW b))
    (Some (address_bus b)) None (array b).
Proof.
  intros H. unfold digitalWrite, chip_react. rewrite H. done.
Qed.

Lemma digitalWrite_RAS_HIGH b :
  levels b RAS_PIN = LOW ->
  digitalWrite RAS_PIN HIGH b =
  mkBoard (modes b) (levels (set_level RAS_PIN HIGH b)) None None (array b).
Proof.
  intros H. unfold digitalWrite, chip_react. rewrite H. done.
Qed.

Lemma digitalWrite_CAS_LOW b :
  levels b CAS_PIN = HIGH -> levels b RAS_PIN = LOW ->
  levels b WE_PIN = HIGH ->
  digitalWrite CAS_PIN LOW b =
  mkBoard (modes b) (levels (set_level CAS_PIN LOW b)) (row_latch b)
    (Some (address_bus b)) (array b).
Proof.
  intros Hc Hr Hw. unfold digitalWrite, chip_react. rewrite Hc. simpl.
  rewrite Hr, Hw. done.
Qed.

Lemma digitalWrite_WE_LOW b r c :
  levels b WE_PIN = HIGH -> levels b RAS_PIN = LOW ->
  levels b CAS_PIN = LOW ->
  row_latch b = Some r -> col_latch b = Some c ->
  digitalWrite WE_PIN LOW b =
  mkBoard (modes b) (levels (set_level WE_PIN LOW b)) (Some r) (Some c)
    (<[(r, c) := data_bus b]> (array b)).
Proof.
  intros Hw Hr Hc Hrl Hcl. unfold digitalWrite, chip_react. rewrite Hw. simpl.
  rewrite Hr, Hc. simpl. unfold chip_store. simpl. rewrite Hrl, Hcl. done.
Qed.

(** ** The write cycle *)

Ltac not_a_pin := unfold ADDRESS_PINS, DATA_PINS, RAS_PIN, CAS_PIN, WE_PIN,
                    OE_PIN; by compute_done.

Lemma address_bus_data_lines b b' :
  (forall p, p ∉ DATA_PINS -> levels b' p = levels b p) ->
  address_bus b' = address_bus b.
Proof.
  intros H. unfold address_bus. apply bus_value_ext.
  intros p Hp. apply H. intros Hd. revert Hp Hd.
  unfold ADDRESS_PINS, DATA_PINS. rewrite !elem_of_cons, !elem_of_nil. lia.
Qed.

Lemma data_bus_ext b b' :
  modes b' = modes b ->
  (forall p, p ∈ DATA_PINS -> levels b' p = levels b p) ->
  data_bus b' = data_bus b.
Proof.
  intros Hm Hl. unfold data_bus. apply bus_value_ext.
  intros p Hp. by rewrite Hm, Hl.
Qed.

Lemma DATA_PINS_cases (P : Z -> Prop) :
  P 22 -> P 23 -> P 24 -> P 25 -> forall p, p ∈ DATA_PINS -> P p.
Proof.
  intros H0 H1 H2 H3 p. unfold DATA_PINS.
  rewrite !elem_of_cons, elem_of_nil.
  intros [->|[->|[->|[->|[]]]]]; assumption.
Qed.

(** Row and column address phase, shared by both cycles. *)
Lemma address_phase row col b :
  0 <= row < DRAM_ROWS -> 0 <= col < DRAM_COLS ->
  levels b RAS_PIN = HIGH ->
  forall b',
  b' = setAddress col (digitalWrite RAS_PIN LOW (setAddress row b)) ->
  levels b' RAS_PIN = LOW /\
  (forall p, p ∉ ADDRESS_PINS -> p <> RAS_PIN -> levels b' p = levels b p) /\
  row_latch b' = Some row /\ col_latch b' = None /\
  address_bus b' = col /\ modes b' = modes b /\ array b' = array b.
Proof.
  intros Hrow Hcol Hras b' ->.
  destruct (setAddress_spec row b Hrow) as (Ha1 & Hm1 & _ & _ & Harr1 & Hl1).
  assert (levels (setAddress row b) RAS_PIN = HIGH) as Hras1
    by (rewrite Hl1 by not_a_pin; exact Hras).
  rewrite (digitalWrite_RAS_LOW _ Hras1), Ha1.
  destruct (setAddress_spec col
              (mkBoard (modes (setAddress row b))
                 (levels (set_level RAS_PIN LOW (setAddress row b)))
                 (Some row) None (array (setAddress row b))) Hcol)
    as (Ha2 & Hm2 & Hr2 & Hc2 & Harr2 & Hl2).
  rewrite Ha2, Hm2, Hr2, Hc2, Harr2. cbn [modes row_latch col_latch array].
  rewrite Hm1, Harr1.
  split; [rewrite Hl2 by not_a_pin; reflexivity|].
  split; [|by repeat split].
  intros p Hp Hne. rewrite Hl2 by exact Hp. cbn [levels set_level].
  apply Z.eqb_neq in Hne. rewrite Hne. by apply Hl1.
Qed.

(** Strobe phase of the write cycle. *)
Lemma write_strobes row col v b :
  levels b RAS_PIN = LOW -> levels b CAS_PIN = HIGH ->
  levels b WE_PIN = HIGH ->
  row_latch b = Some row -> address_bus b = col -> data_bus b = v ->
  forall b',
  b' = digitalWrite RAS_PIN HIGH
         (digitalWrite WE_PIN HIGH
            (digitalWrite CAS_PIN HIGH
               (digitalWrite WE_PIN LOW (digitalWrite CAS_PIN LOW b)))) ->
  array b' = <[(row, col) := v]> (array b) /\ bus_idle b'.
Proof.
  intros Hras Hcas Hwe Hrow Hcol Hdata b' ->.
  rewrite (digitalWrite_CAS_LOW b Hcas Hras Hwe), Hrow, Hcol.
  rewrite (digitalWrite_WE_LOW _ row col);
    [| exact Hwe | exact Hras | reflexivity..].
  rewrite (data_bus_ext b
             (mkBoard (modes b) (levels (set_level CAS_PIN LOW b))
                (Some row) (Some col) (array b)) eq_refl), Hdata
    by (apply DATA_PINS_cases; reflexivity).
  rewrite (digitalWrite_HIGH CAS_PIN) by done.
  rewrite (digitalWrite_HIGH WE_PIN) by done.
  rewrite digitalWrite_RAS_HIGH by exact Hras.
  split; [reflexivity | split; reflexivity].
Qed.

Lemma writeDram_spec row col v b :
  0 <= row < DRAM_ROWS -> 0 <= col < DRAM_COLS -> 0 <= v < 16 ->
  bus_idle b ->
  array (writeDram row col v b) = <[(row, col) := v]> (array b) /\
  bus_idle (writeDram row col v b).
Proof.
  intros Hrow Hcol Hv [Hras Hcas]. unfold writeDram. cbv zeta.
  rewrite (digitalWrite_HIGH WE_PIN (setDataBusMode OUTPUT b)) by done.
  rewrite (digitalWrite_HIGH OE_PIN) by done.
  pose (b3 := set_level OE_PIN HIGH
                (set_level WE_PIN HIGH (setDataBusMode OUTPUT b))).
  destruct (address_phase row col b3 Hrow Hcol Hras _ eq_refl)
    as (Hras6 & Hl6 & Hr6 & _ & Ha6 & Hm6 & Harr6).
  destruct (writeDataBus_spec v
              (setAddress col (digitalWrite RAS_PIN LOW (setAddress row b3)))
              Hv) as (Hd7 & _ & Hr7 & _ & Harr7 & Hl7).
  { rewrite Hm6. apply DATA_PINS_cases; reflexivity. }
  destruct (write_strobes row col v
              (writeDataBus v
                 (setAddress col
                    (digitalWrite RAS_PIN LOW (setAddress row b3))))) with
    (b' := digitalWrite RAS_PIN HIGH
         (digitalWrite WE_PIN HIGH
            (digitalWrite CAS_PIN HIGH
               (digitalWrite WE_PIN LOW
                  (digitalWrite CAS_PIN LOW
                     (writeDataBus v
                        (setAddress col
                           (digitalWrite RAS_PIN LOW
                              (setAddress row b3)))))))))
    as [Harr Hidle].
  - rewrite Hl7 by not_a_pin. exact Hras6.
  - rewrite Hl7, Hl6 by not_a_pin. exact Hcas.
  - rewrite Hl7, Hl6 by not_a_pin. reflexivity.
  - rewrite Hr7. exact Hr6.
  - rewrite (address_bus_data_lines _ _ Hl7). exact Ha6.
  - exact Hd7.
  - reflexivity.
  - split; [|exact Hidle]. fold b3. rewrite Harr, Harr7, Harr6. reflexivity.
Qed.

(** ** The read cycle *)

Lemma below_16 (P : Z -> Prop) :
  Forall P (seqZ 0 16) -> forall v, 0 <= v < 16 -> P v.
Proof.
  intros H v Hv. rewrite Forall_forall in H. apply H, elem_of_seqZ. lia.
Qed.

Lemma readDataBus_chip b v :
  chip_output b = Some v -> 0 <= v < 16 -> readDataBus b = v.
Proof.
  intros Hout Hv. unfold readDataBus, DATA_PINS. cbn [read_pins].
  unfold digitalRead. rewrite Hout. simpl pin_index.
  clear Hout. revert v Hv. apply below_16. repeat constructor.
Qed.

(** Strobe phase of the read cycle. *)
Lemma read_strobes row col b :
  levels b RAS_PIN = LOW -> levels b CAS_PIN = HIGH ->
  levels b WE_PIN = HIGH ->
  row_latch b = Some row -> address_bus b = col ->
  chip_output (digitalWrite OE_PIN LOW (digitalWrite CAS_PIN LOW b))
    = Some (default 0 (array b !! (row, col))) /\
  forall b',
  b' = digitalWrite RAS_PIN HIGH
         (digitalWrite CAS_PIN HIGH
            (digitalWrite OE_PIN HIGH
               (digitalWrite OE_PIN LOW (digitalWrite CAS_PIN LOW b)))) ->
  array b' = array b /\ bus_idle b'.
Proof.
  intros Hras Hcas Hwe Hrow Hcol.
  rewrite (digitalWrite_CAS_LOW b Hcas Hras Hwe), Hrow, Hcol.
  rewrite (digitalWrite_plain OE_PIN LOW) by (repeat split; done).
  split.
  - unfold chip_output. cbn [levels set_level row_latch col_latch array].
    change (RAS_PIN =? OE_PIN) with false.
    change (RAS_PIN =? CAS_PIN) with false.
    change (CAS_PIN =? OE_PIN) with false.
    change (CAS_PIN =? CAS_PIN) with true.
    change (OE_PIN =? OE_PIN) with true.
    change (WE_PIN =? OE_PIN) with false.
    change (WE_PIN =? CAS_PIN) with false.
    rewrite Hras, Hwe. reflexivity.
  - intros b' ->.
    rewrite (digitalWrite_HIGH OE_PIN) by done.
    rewrite (digitalWrite_HIGH CAS_PIN) by done.
    rewrite digitalWrite_RAS_HIGH by exact Hras.
    split; [reflexivity | split; reflexivity].
Qed.

Lemma readDram_spec row col b v :
  0 <= row < DRAM_ROWS -> 0 <= col < DRAM_COLS -> bus_idle b ->
  array b !! (row, col) = Some v -> 0 <= v < 16 ->
  (readDram row col b).1 = v /\
  array (readDram row col b).2 = array b /\
  bus_idle (readDram row col b).2.
Proof.
  intros Hrow Hcol [Hras Hcas] Hcell Hv. unfold readDram. cbv zeta.
  cbn [fst snd].
  rewrite (digitalWrite_HIGH WE_PIN (setDataBusMode INPUT b)) by done.
  rewrite (digitalWrite_HIGH OE_PIN) by done.
  pose (b3 := set_level OE_PIN HIGH
                (set_level WE_PIN HIGH (setDataBusMode INPUT b))).
  destruct (address_phase row col b3 Hrow Hcol Hras _ eq_refl)
    as (Hras6 & Hl6 & Hr6 & _ & Ha6 & Hm6 & Harr6).
  destruct (read_strobes row col
              (setAddress col (digitalWrite RAS_PIN LOW (setAddress row b3))))
    as [Hout Hrest].
  - exact Hras6.
  - rewrite Hl6 by not_a_pin. exact Hcas.
  - rewrite Hl6 by not_a_pin. reflexivity.
  - exact Hr6.
  - exact Ha6.
  - fold b3. rewrite Harr6 in Hout.
    change (array b3) with (array b) in Hout.
    rewrite Hcell in Hout. cbn [default] in Hout.
    split; [by apply readDataBus_chip|].
    destruct (Hrest _ eq_refl) as [Harr Hidle].
    split; [|exact Hidle]. rewrite Harr, Harr6. reflexivity.
Qed.

(** ** Round trip *)

(** C6.  For a row and a column in range and a 4-bit value, a write
    cycle followed immediately by a read cycle at the same address
    returns the value written, and the write leaves every other cell of
    the array as it was. *)
Theorem write_then_read row col v b :
  0 <= row < DRAM_ROWS -> 0 <= col < DRAM_COLS -> 0 <= v < 16 ->
  bus_idle b ->
  (readDram row col (writeDram row col v b)).1 = v /\
  (forall r c, (r, c) <> (row, col) ->
     array (writeDram row col v b) !! (r, c) = array b !! (r, c)).
Proof.
  intros Hrow Hcol Hv Hidle.
  destruct (writeDram_spec row col v b Hrow Hcol Hv Hidle) as [Harr Hidle'].
  split.
  - apply readDram_spec; [done.. | | done].
    rewrite Harr. apply lookup_insert_eq.
  - intros r c Hne. rewrite Harr. by apply lookup_insert_ne.
Qed.

Lemma after_setup_idle : bus_idle after_setup.
Proof. split; reflexivity. Qed.

Lemma write_then_read_witness :
  (readDram 300 511 (writeDram 300 511 9 after_setup)).1 = 9.
Proof.
  assert (0 <= 300 < DRAM_ROWS) as Hrow by (unfold DRAM_ROWS; lia).
  assert (0 <= 511 < DRAM_COLS) as Hcol by (unfold DRAM_COLS; lia).
  assert (0 <= 9 < 16) as Hv by lia.
  exact (proj1 (write_then_read 300 511 9 after_setup Hrow Hcol Hv
                  after_setup_idle)).
Defined.

(** ** Further properties: addresses and data out of range *)

Lemma setAddress_gen a b :
  address_bus (setAddress a b) = a mod 2 ^ 9 /\
  modes (setAddress a b) = modes b /\
  row_latch (setAddress a b) = row_latch b /\
  col_latch (setAddress a b) = col_latch b /\
  array (setAddress a b) = array b /\
  (forall p, p ∉ ADDRESS_PINS -> levels (setAddress a b) p = levels b p).
Proof.
  unfold setAddress, address_bus. split.
  - rewrite write_pins_value;
      [| apply ADDRESS_PINS_plain | apply ADDRESS_PINS_NoDup | lia].
    by rewrite Z.shiftr_0_r.
  - apply write_pins_frame, ADDRESS_PINS_plain.
Qed.

Lemma address_phase_gen row col b :
  levels b RAS_PIN = HIGH ->
  forall b',
  b' = setAddress col (digitalWrite RAS_PIN LOW (setAddress row b)) ->
  levels b' RAS_PIN = LOW /\
  (forall p, p ∉ ADDRESS_PINS -> p <> RAS_PIN -> levels b' p = levels b p) /\
  row_latch b' = Some (row mod 2 ^ 9) /\ col_latch b' = None /\
  address_bus b' = col mod 2 ^ 9 /\ modes b' = modes b /\
  array b' = array b.
Proof.
  intros Hras b' ->.
  destruct (setAddress_gen row b) as (Ha1 & Hm1 & _ & _ & Harr1 & Hl1).
  assert (levels (setAddress row b) RAS_PIN = HIGH) as Hras1
    by (rewrite Hl1 by not_a_pin; exact Hras).
  rewrite (digitalWrite_RAS_LOW _ Hras1), Ha1.
  destruct (setAddress_gen col
              (mkBoard (modes (setAddress row b))
                 (levels (set_level RAS_PIN LOW (setAddress row b)))
                 (Some (row mod 2 ^ 9)) None (array (setAddress row b))))
    as (Ha2 & Hm2 & Hr2 & Hc2 & Harr2 & Hl2).
  rewrite Ha2, Hm2, Hr2, Hc2, Harr2. cbn [modes row_latch col_latch array].
  rewrite Hm1, Harr1.
  split; [rewrite Hl2 by not_a_pin; reflexivity|].
  split; [|by repeat split].
  intros p Hp Hne. rewrite Hl2 by exact Hp. cbn [levels set_level].
  apply Z.eqb_neq in Hne. rewrite Hne. by apply Hl1.
Qed.

Lemma writeDataBus_gen v b :
  (forall p, p ∈ DATA_PINS -> modes b p = OUTPUT) ->
  data_bus (writeDataBus v b) = v mod 2 ^ 4 /\
  row_latch (writeDataBus v b) = row_latch b /\
  array (writeDataBus v b) = array b /\
  (forall p, p ∉ DATA_PINS -> levels (writeDataBus v b) p = levels b p).
Proof.
  intros Hout. unfold writeDataBus.
  pose proof (write_pins_frame DATA_PINS 0 v b DATA_PINS_plain)
    as (Hm & Hr & Hc & Ha & Hl).
  split; [|done]. unfold data_bus.
  rewrite (bus_value_ext _ _ (levels (write_pins DATA_PINS 0 v b))).
  - rewrite write_pins_value;
      [| apply DATA_PINS_plain | apply DATA_PINS_NoDup | lia].
    by rewrite Z.shiftr_0_r.
  - intros p Hp. by rewrite Hm, Hout.
Qed.

Lemma writeDram_gen row col data b :
  bus_idle b ->
  array (writeDram row col data b)
  = <[(row mod 2 ^ 9, col mod 2 ^ 9) := data mod 2 ^ 4]> (array b) /\
  bus_idle (writeDram row col data b).
Proof.
  intros [Hras Hcas]. unfold writeDram. cbv zeta.
  rewrite (digitalWrite_HIGH WE_PIN (setDataBusMode OUTPUT b)) by done.
  rewrite (digitalWrite_HIGH OE_PIN) by done.
  pose (b3 := set_level OE_PIN HIGH
                (set_level WE_PIN HIGH (setDataBusMode OUTPUT b))).
  destruct (address_phase_gen row col b3 Hras _ eq_refl)
    as (Hras6 & Hl6 & Hr6 & _ & Ha6 & Hm6 & Harr6).
  destruct (writeDataBus_gen data
              (setAddress col (digitalWrite RAS_PIN LOW (setAddress row b3))))
    as (Hd7 & Hr7 & Harr7 & Hl7).
  { rewrite Hm6. apply DATA_PINS_cases; reflexivity. }
  destruct (write_strobes (row mod 2 ^ 9) (col mod 2 ^ 9) (data mod 2 ^ 4)
              (writeDataBus data
                 (setAddress col
                    (digitalWrite RAS_PIN LOW (setAddress row b3))))) with
    (b' := digitalWrite RAS_PIN HIGH
         (digitalWrite WE_PIN HIGH
            (digitalWrite CAS_PIN HIGH
               (digitalWrite WE_PIN LOW
                  (digitalWrite CAS_PIN LOW
                     (writeDataBus data
                        (setAddress col
                           (digitalWrite RAS_PIN LOW
                              (setAddress row b3)))))))))
    as [Harr Hidle].
  - rewrite Hl7 by not_a_pin. exact Hras6.
  - rewrite Hl7, Hl6 by not_a_pin. exact Hcas.
  - rewrite Hl7, Hl6 by not_a_pin. reflexivity.
  - rewrite Hr7. exact Hr6.
  - rewrite (address_bus_data_lines _ _ Hl7). exact Ha6.
  - exact Hd7.
  - reflexivity.
  - split; [|exact Hidle]. fold b3. rewrite Harr, Harr7, Harr6. reflexivity.
Qed.

Lemma readDram_gen row col b v :
  bus_idle b ->
  array b !! (row mod 2 ^ 9, col mod 2 ^ 9) = Some v -> 0 <= v < 16 ->
  (readDram row col b).1 = v /\
  array (readDram row col b).2 = array b /\
  bus_idle (readDram row col b).2.
Proof.
  intros [Hras Hcas] Hcell Hv. unfold readDram. cbv zeta.
  cbn [fst snd].
  rewrite (digitalWrite_HIGH WE_PIN (setDataBusMode INPUT b)) by done.
  rewrite (digitalWrite_HIGH OE_PIN) by done.
  pose (b3 := set_level OE_PIN HIGH
                (set_level WE_PIN HIGH (setDataBusMode INPUT b))).
  destruct (address_phase_gen row col b3 Hras _ eq_refl)
    as (Hras6 & Hl6 & Hr6 & _ & Ha6 & Hm6 & Harr6).
  destruct (read_strobes (row mod 2 ^ 9) (col mod 2 ^ 9)
              (setAddress col (digitalWrite RAS_PIN LOW (setAddress row b3))))
    as [Hout Hrest].
  - exact Hras6.
  - rewrite Hl6 by not_a_pin. exact Hcas.
  - rewrite Hl6 by not_a_pin. reflexivity.
  - exact Hr6.
  - exact Ha6.
  - fold b3. rewrite Harr6 in Hout.
    change (array b3) with (array b) in Hout.
    rewrite Hcell in Hout. cbn [default] in Hout.
    split; [by apply readDataBus_chip|].
    destruct (Hrest _ eq_refl) as [Harr Hidle].
    split; [|exact Hidle]. rewrite Harr, Harr6. reflexivity.
Qed.

(** X12.  Only nine address bits and four data bits reach the chip: for
    any arguments [writeDram] stores [data mod 16] in the cell
    [(row mod 512, col mod 512)], and a read at the same arguments
    returns [data mod 16].  For a byte of 16 or more the value read back
    differs from the value written, so the comparison in [loop] reports
    an error. *)
Theorem writeDram_truncates row col data b :
  bus_idle b ->
  array (writeDram row col data b)
  = <[(row mod 512, col mod 512) := data mod 16]> (array b) /\
  (readDram row col (writeDram row col data b)).1 = data mod 16 /\
  (16 <= data < 256 ->
   (readDram row col (writeDram row col data b)).1 <> data).
Proof.
  intros Hidle.
  destruct (writeDram_gen row col data b Hidle) as [Harr Hidle'].
  assert ((readDram row col (writeDram row col data b)).1 = data mod 16) as E.
  { apply readDram_gen; [done | | ].
    - rewrite Harr. apply lookup_insert_eq.
    - change (2 ^ 4) with 16. apply Z.mod_pos_bound. lia. }
  split; [exact Harr|]. split; [exact E|].
  intros Hd. rewrite E. pose proof (Z.mod_pos_bound data 16). lia.
Qed.

Lemma writeDram_truncates_witness :
  (readDram 513 2 (writeDram 513 2 0x1A after_setup)).1 = 10 /\
  array (writeDram 513 2 0x1A after_setup) !! (1, 2) = Some 10.
Proof.
  destruct (writeDram_truncates 513 2 0x1A after_setup after_setup_idle)
    as (Harr & Hread & _).
  split; [exact Hread|]. rewrite Harr. apply lookup_insert_eq.
Defined.

(** ** Further properties: refresh *)

Lemma refreshRow_spec row b :
  bus_idle b ->
  array (refreshRow row b) = array b /\ bus_idle (refreshRow row b).
Proof.
  intros [Hras Hcas]. unfold refreshRow. cbv zeta.
  destruct (setAddress_gen row b) as (_ & _ & _ & _ & Harr & Hl).
  assert (levels (setAddress row b) RAS_PIN = HIGH) as Hras1
    by (rewrite Hl by not_a_pin; exact Hras).
  rewrite (digitalWrite_RAS_LOW _ Hras1).
  rewrite digitalWrite_RAS_HIGH by reflexivity.
  cbn [array]. split; [exact Harr|]. split; [reflexivity|].
  cbn [levels set_level].
  change (CAS_PIN =? RAS_PIN) with false. cbn match.
  rewrite Hl by not_a_pin. exact Hcas.
Qed.

Lemma refreshDram_spec b :
  bus_idle b -> array (refreshDram b) = array b /\ bus_idle (refreshDram b).
Proof.
  unfold refreshDram. generalize (seqZ 0 DRAM_ROWS). intros rows.
  revert b. induction rows as [|row rows IH]; intros b Hidle; [done|].
  cbn [foldl]. destruct (refreshRow_spec row b Hidle) as [Harr Hidle'].
  destruct (IH _ Hidle') as [Harr' Hidle'']. split; [congruence | done].
Qed.

(** X13.  A full refresh ([refreshDram], 512 RAS-only cycles) changes no
    cell of the array and leaves both strobes released, so a value
    written before the refresh is read back after it. *)
Theorem refresh_preserves_data row col v b :
  0 <= row < DRAM_ROWS -> 0 <= col < DRAM_COLS -> 0 <= v < 16 ->
  bus_idle b ->
  array (refreshDram b) = array b /\
  bus_idle (refreshDram b) /\
  (readDram row col (refreshDram (writeDram row col v b))).1 = v.
Proof.
  intros Hrow Hcol Hv Hidle.
  destruct (refreshDram_spec b Hidle) as [Harr Hidle'].
  split; [exact Harr|]. split; [exact Hidle'|].
  destruct (writeDram_spec row col v b Hrow Hcol Hv Hidle) as [Hw Hwi].
  destruct (refreshDram_spec _ Hwi) as [Hr Hri].
  apply readDram_spec; [done.. | | done].
  rewrite Hr, Hw. apply lookup_insert_eq.
Qed.

Lemma refresh_preserves_data_witness :
  (readDram 7 300 (refreshDram (writeDram 7 300 12 after_setup))).1 = 12.
Proof.
  assert (0 <= 7 < DRAM_ROWS) as Hrow by (unfold DRAM_ROWS; lia).
  assert (0 <= 300 < DRAM_COLS) as Hcol by (unfold DRAM_COLS; lia).
  assert (0 <= 12 < 16) as Hv by lia.
  exact (proj2 (proj2 (refresh_preserves_data 7 300 12 after_setup
                         Hrow Hcol Hv after_setup_idle))).
Defined.

(** ** Further properties: several accesses *)

(** X14.  Cells are independent and a later write wins: after writing
    [v1] to one cell and [v2] to a different cell, each cell reads back
    its own value; after writing [v1] and then [v2] to the same cell, it
    reads back [v2]. *)
Theorem cells_independent r1 c1 v1 r2 c2 v2 b :
  0 <= r1 < DRAM_ROWS -> 0 <= c1 < DRAM_COLS -> 0 <= v1 < 16 ->
  0 <= r2 < DRAM_ROWS -> 0 <= c2 < DRAM_COLS -> 0 <= v2 < 16 ->
  bus_idle b ->
  let b' := writeDram r2 c2 v2 (writeDram r1 c1 v1 b) in
  (readDram r2 c2 b').1 = v2 /\
  ((r1, c1) <> (r2, c2) -> (readDram r1 c1 b').1 = v1) /\
  (forall r c, (r, c) <> (r1, c1) -> (r, c) <> (r2, c2) ->
     array b' !! (r, c) = array b !! (r, c)).
Proof.
  intros Hr1 Hc1 Hv1 Hr2 Hc2 Hv2 Hidle b'.
  destruct (writeDram_spec r1 c1 v1 b Hr1 Hc1 Hv1 Hidle) as [Hw1 Hi1].
  destruct (writeDram_spec r2 c2 v2 _ Hr2 Hc2 Hv2 Hi1) as [Hw2 Hi2].
  fold b' in Hw2, Hi2. split; [|split].
  - apply readDram_spec; [done.. | | done].
    rewrite Hw2. apply lookup_insert_eq.
  - intros Hne. apply readDram_spec; [done.. | | done].
    rewrite Hw2, lookup_insert_ne by done. rewrite Hw1.
    apply lookup_insert_eq.
  - intros r c Hn1 Hn2.
    rewrite Hw2, lookup_insert_ne by done.
    rewrite Hw1. by apply lookup_insert_ne.
Qed.

Lemma cells_independent_witness :
  (readDram 1 2 (writeDram 3 4 6 (writeDram 1 2 5 after_setup))).1 = 5 /\
  (readDram 1 2 (writeDram 1 2 6 (writeDram 1 2 5 after_setup))).1 = 6.
Proof.
  assert (0 <= 1 < DRAM_ROWS) as H1 by (unfold DRAM_ROWS; lia).
  assert (0 <= 2 < DRAM_COLS) as H2 by (unfold DRAM_COLS; lia).
  assert (0 <= 3 < DRAM_ROWS) as H3 by (unfold DRAM_ROWS; lia).
  assert (0 <= 4 < DRAM_COLS) as H4 by (unfold DRAM_COLS; lia).
  assert (0 <= 5 < 16) as H5 by lia. assert (0 <= 6 < 16) as H6 by lia.
  split.
  - destruct (cells_independent 1 2 5 3 4 6 after_setup H1 H2 H5 H3 H4 H6
                after_setup_idle) as (_ & Hother & _).
    apply Hother. discriminate.
  - destruct (cells_independent 1 2 5 1 2 6 after_setup H1 H2 H5 H1 H2 H6
                after_setup_idle) as (Hsame & _).
    exact Hsame.
Defined.

(** X15.  A read cycle is not destructive: it changes no cell, leaves
    both strobes released, and a second read of the same cell returns the
    same value. *)
Theorem readDram_keeps_array row col v b :
  0 <= row < DRAM_ROWS -> 0 <= col < DRAM_COLS -> bus_idle b ->
  array b !! (row, col) = Some v -> 0 <= v < 16 ->
  array (readDram row col b).2 = array b /\
  bus_idle (readDram row col b).2 /\
  (readDram row col (readDram row col b).2).1 = (readDram row col b).1.
Proof.
  intros Hrow Hcol Hidle Hcell Hv.
  destruct (readDram_spec row col b v Hrow Hcol Hidle Hcell Hv)
    as (Hval & Harr & Hidle').
  split; [exact Harr|]. split; [exact Hidle'|].
  rewrite Hval. apply readDram_spec; [done.. | | done].
  by rewrite Harr.
Qed.

Lemma readDram_keeps_array_witness :
  array (readDram 0 0 (writeDram 0 0 3 after_setup)).2
  = array (writeDram 0 0 3 after_setup).
Proof.
  assert (0 <= 0 < DRAM_ROWS) as Hrow by (unfold DRAM_ROWS; lia).
  assert (0 <= 0 < DRAM_COLS) as Hcol by (unfold DRAM_COLS; lia).
  assert (0 <= 3 < 16) as Hv by lia.
  destruct (writeDram_spec 0 0 3 after_setup Hrow Hcol Hv after_setup_idle)
    as [Harr Hidle].
  assert (array (writeDram 0 0 3 after_setup) !! (0, 0) = Some 3) as Hcell
    by (rewrite Harr; apply lookup_insert_eq).
  exact (proj1 (readDram_keeps_array 0 0 3 _ Hrow Hcol Hidle Hcell Hv)).
Defined.

End Msm514262Facts.

(** * Facts about mega_edo_fp6.ino *)

Module Fp6Facts.
Import Avr AvrFacts Fp6.

(** The line handler of this sketch is active on exactly
    [FRAMEBUFFER_HEIGHT] lines starting at line 35. *)
Lemma fp6_active_line_iff l :
  active_line l = true <-> 35 <= l < 35 + FRAMEBUFFER_HEIGHT.
Proof.
  unfold active_line. rewrite andb_true_iff, Z.leb_le, Z.ltb_lt. lia.
Qed.

Lemma fp6_refresh_cycles_fold (l : list Z) s :
  foldl (fun s' _ =>
           set_cbr_cycles (cbr_cycles s' + 1)
             (set_dram (refresh_cycle (dram s')) s')) s l
  = set_cbr_cycles (cbr_cycles s + Z.of_nat (length l))
      (set_dram (foldl (fun b' _ => refresh_cycle b') (dram s) l) s).
Proof.
  revert s. induction l as [|a l IH]; intros s.
  - cbn [foldl length]. rewrite Z.add_0_r. by destruct s.
  - cbn [foldl]. rewrite IH. destruct s; unfold set_cbr_cycles, set_dram.
    cbn [cbr_cycles dram update_buffer update_buffer_index
         vBlank_in_progress currentScanline currentRow length].
    f_equal. lia.
Qed.

Lemma casBeforeRasRefresh_spec s :
  casBeforeRasRefresh s
  = set_cbr_cycles (cbr_cycles s + DRAM_ROWS)
      (set_dram (refresh_bus (dram s)) s).
Proof.
  unfold casBeforeRasRefresh, refresh_bus.
  rewrite fp6_refresh_cycles_fold, length_seqZ. done.
Qed.

(** The drain loop only acts on the port registers. *)
Lemma applyBufferToDRAM_frame s :
  applyBufferToDRAM s = set_dram (dram (applyBufferToDRAM s)) s.
Proof.
  unfold applyBufferToDRAM. generalize (seqZ 0 (update_buffer_index s)).
  intros l. set (f := fun s' i => _).
  assert (forall s0, foldl f s0 l = set_dram (dram (foldl f s0 l)) s0) as H.
  { induction l as [|i l IH]; intros s0; [by destruct s0|].
    cbn [foldl]. rewrite IH at 1.
    assert (f s0 i = set_dram (dram (f s0 i)) s0) as E.
    { subst f. cbn beta. destruct (update_buffer s0 !! Z.to_nat i) as [u|];
        [|by destruct s0].
      by destruct (dram_address u). }
    rewrite E at 2. done. }
  apply H.
Qed.

Lemma applyBufferToDRAM_prefix (k : nat) s :
  (k <= length (update_buffer s))%nat ->
  foldl (fun s' i =>
           match update_buffer s' !! Z.to_nat i with
           | Some update =>
               let '(dramRow, dramCol) := dram_address update in
               writeDram dramRow dramCol (upd_color update) s'
           | None => s'
           end) s (seqZ 0 (Z.of_nat k))
  = set_dram (apply_updates (take k (update_buffer s)) (dram s)) s.
Proof.
  induction k as [|k IH]; intros Hk.
  - simpl. by destruct s.
  - rewrite Nat2Z.inj_succ, <- Z.add_1_r, seqZ_app by lia.
    rewrite foldl_app, IH by lia. cbn [seqZ foldl].
    change (seqZ (0 + Z.of_nat k) 1) with [0 + Z.of_nat k].
    cbn [foldl update_buffer set_dram]. rewrite Z.add_0_l, Nat2Z.id.
    destruct (lookup_lt_is_Some_2 (update_buffer s) k) as [u Hu]; [lia|].
    rewrite Hu, (take_S_r _ _ _ Hu). unfold apply_updates.
    rewrite foldl_app. cbn [foldl].
    destruct (dram_address u) as [dramRow dramCol]. reflexivity.
Qed.

(** The drain writes the queued entries in order. *)
Lemma applyBufferToDRAM_spec s :
  buffer_wf s ->
  applyBufferToDRAM s = set_dram (apply_updates (queued s) (dram s)) s.
Proof.
  intros [H0 H1]. unfold applyBufferToDRAM, queued.
  rewrite <- (Z2Nat.id (update_buffer_index s)) at 1 by lia.
  apply applyBufferToDRAM_prefix. lia.
Qed.

Lemma pixelIndex_in_bounds u :
  0 <= upd_x u < FRAMEBUFFER_WIDTH -> 0 <= upd_y u < FRAMEBUFFER_HEIGHT ->
  pixelIndex u = upd_y u * FRAMEBUFFER_WIDTH + upd_x u.
Proof.
  unfold pixelIndex, u16, s16, FRAMEBUFFER_WIDTH, FRAMEBUFFER_HEIGHT.
  intros Hx Hy. Z.div_mod_to_equations. lia.
Qed.

(** ** Further properties: the linear update buffer *)

Lemma in_range_iff u :
  in_range u = true <->
  0 <= upd_x u < FRAMEBUFFER_WIDTH /\ 0 <= upd_y u < FRAMEBUFFER_HEIGHT.
Proof.
  unfold in_range. rewrite negb_true_iff, !orb_false_iff.
  rewrite !Z.ltb_ge, !Z.leb_gt. lia.
Qed.

Lemma drawPixel_cases x y color s :
  buffer_ok s ->
  (in_range (mkPixelUpdate x y color) = true ->
   update_buffer_index s < MAX_UPDATE_BUFFER_SIZE ->
   buffer_ok (drawPixel x y color s) /\
   update_buffer_index (drawPixel x y color s) = update_buffer_index s + 1 /\
   queued (drawPixel x y color s) = queued s ++ [mkPixelUpdate x y color] /\
   dram (drawPixel x y color s) = dram s) /\
  (in_range (mkPixelUpdate x y color) = false \/
   update_buffer_index s = MAX_UPDATE_BUFFER_SIZE ->
   drawPixel x y color s = s).
Proof.
  intros [Hlen Hidx]. unfold drawPixel, in_range. cbn [upd_x upd_y].
  split.
  - intros Hin Hroom. apply negb_true_iff in Hin. rewrite Hin.
    apply Z.ltb_lt in Hroom as Hroom'. rewrite Hroom'.
    assert (s16 (update_buffer_index s + 1) = update_buffer_index s + 1) as E.
    { unfold s16, MAX_UPDATE_BUFFER_SIZE in *. Z.div_mod_to_equations. lia. }
    rewrite E. unfold buffer_ok, queued.
    cbn [update_buffer update_buffer_index dram].
    rewrite length_insert.
    split; [split; [done | lia]|]. split; [done|]. split; [|done].
    replace (Z.to_nat (update_buffer_index s + 1))
      with (S (Z.to_nat (update_buffer_index s))) by lia.
    rewrite (take_S_r _ _ (mkPixelUpdate x y color)).
    + f_equal. apply take_insert_ge. lia.
    + apply list_lookup_insert_eq. unfold MAX_UPDATE_BUFFER_SIZE in *. lia.
  - intros [Hout|Hfull].
    + apply negb_false_iff in Hout. by rewrite Hout.
    + destruct (_ || _); [done|]. rewrite Hfull.
      by rewrite Z.ltb_irrefl.
Qed.

(** X7.  [drawPixel] of this sketch appends an in-range pixel to the
    linear buffer while fewer than [MAX_UPDATE_BUFFER_SIZE] are queued;
    an out-of-range pixel, or any pixel once the buffer is full, is
    dropped without a trace: the state, which has no overflow flag, is
    exactly as before. *)
Theorem fp6_drawPixel_appends_or_drops x y color s :
  buffer_ok s ->
  (0 <= x < FRAMEBUFFER_WIDTH -> 0 <= y < FRAMEBUFFER_HEIGHT ->
   update_buffer_index s < MAX_UPDATE_BUFFER_SIZE ->
   buffer_ok (drawPixel x y color s) /\
   update_buffer_index (drawPixel x y color s) = update_buffer_index s + 1 /\
   queued (drawPixel x y color s) = queued s ++ [mkPixelUpdate x y color] /\
   dram (drawPixel x y color s) = dram s) /\
  (x < 0 \/ FRAMEBUFFER_WIDTH <= x \/ y < 0 \/ FRAMEBUFFER_HEIGHT <= y \/
   update_buffer_index s = MAX_UPDATE_BUFFER_SIZE ->
   drawPixel x y color s = s).
Proof.
  intros Hok. destruct (drawPixel_cases x y color s Hok) as [Hin Hout].
  split.
  - intros Hx Hy Hroom. apply Hin; [|done]. apply in_range_iff. done.
  - intros H. apply Hout.
    destruct (in_range (mkPixelUpdate x y color)) eqn:E; [|by left].
    apply in_range_iff in E. cbn in E. right. lia.
Qed.

Lemma init_buffer_ok : buffer_ok init.
Proof.
  unfold buffer_ok, init. cbn [update_buffer update_buffer_index].
  rewrite length_replicate. unfold MAX_UPDATE_BUFFER_SIZE. lia.
Qed.

Lemma fp6_drawPixel_appends_or_drops_witness :
  queued (drawPixel 255 0 9 init) = [mkPixelUpdate 255 0 9] /\
  drawPixel 256 0 9 init = init.
Proof.
  destruct (fp6_drawPixel_appends_or_drops 255 0 9 init init_buffer_ok)
    as [Hin _].
  destruct (fp6_drawPixel_appends_or_drops 256 0 9 init init_buffer_ok)
    as [_ Hout].
  split.
  - destruct Hin as (_ & _ & Hq & _);
      [unfold FRAMEBUFFER_WIDTH; lia | unfold FRAMEBUFFER_HEIGHT; lia
      | unfold MAX_UPDATE_BUFFER_SIZE; simpl; lia |].
    rewrite Hq. reflexivity.
  - apply Hout. right. left. unfold FRAMEBUFFER_WIDTH. lia.
Defined.

Lemma buffer_ok_wf s :
  buffer_ok s -> buffer_wf (set_vBlank_in_progress true s).
Proof.
  intros [Hlen Hidx]. unfold buffer_wf.
  cbn [update_buffer update_buffer_index set_vBlank_in_progress].
  rewrite Hlen. unfold MAX_UPDATE_BUFFER_SIZE in *. lia.
Qed.

Lemma queued_length s :
  buffer_ok s -> length (queued s) = Z.to_nat (update_buffer_index s).
Proof.
  intros [Hlen Hidx]. unfold queued. rewrite length_take. lia.
Qed.

Lemma draw_fold us s :
  buffer_ok s ->
  buffer_ok
    (foldl (fun s' u => drawPixel (upd_x u) (upd_y u) (upd_color u) s') s us) /\
  queued
    (foldl (fun s' u => drawPixel (upd_x u) (upd_y u) (upd_color u) s') s us)
  = take (Z.to_nat MAX_UPDATE_BUFFER_SIZE)
      (queued s ++ filter (fun u => in_range u = true) us) /\
  dram
    (foldl (fun s' u => drawPixel (upd_x u) (upd_y u) (upd_color u) s') s us)
  = dram s.
Proof.
  revert s. induction us as [|u us IH]; intros s Hok.
  - cbn [foldl]. rewrite filter_nil, app_nil_r. split; [done|].
    split; [|done]. rewrite take_ge; [done|].
    rewrite queued_length by done. destruct Hok. lia.
  - cbn [foldl].
    destruct (drawPixel_cases (upd_x u) (upd_y u) (upd_color u) s Hok)
      as [Hin Hout].
    replace (mkPixelUpdate (upd_x u) (upd_y u) (upd_color u)) with u
      in Hin, Hout by (by destruct u).
    destruct (in_range u) eqn:Er.
    + rewrite filter_cons_True by done.
      destruct (decide (update_buffer_index s < MAX_UPDATE_BUFFER_SIZE))
        as [Hroom|Hfull].
      * destruct (Hin eq_refl Hroom) as (Hok' & _ & Hq & Hd).
        destruct (IH _ Hok') as (Hok'' & Hq' & Hd').
        split; [done|]. split; [|congruence].
        rewrite Hq', Hq, <- app_assoc. done.
      * assert (update_buffer_index s = MAX_UPDATE_BUFFER_SIZE) as E
          by (destruct Hok; lia).
        rewrite Hout by (by right).
        destruct (IH _ Hok) as (Hok'' & Hq' & Hd').
        split; [done|]. split; [|done]. rewrite Hq'.
        rewrite !take_app_le by (rewrite queued_length by done; lia).
        done.
    + rewrite filter_cons_False by (by rewrite Er).
      rewrite Hout by (by left). by apply IH.
Qed.

(** X8.  [drawRect] of this sketch does not clip: it hands every pixel of
    the rectangle to [drawPixel], column by column, and the buffer then
    holds the pixels queued before followed by the in-range pixels of the
    rectangle, cut off at [MAX_UPDATE_BUFFER_SIZE] entries. *)
Theorem fp6_drawRect_queues x y w h color s :
  buffer_ok s ->
  buffer_ok (drawRect x y w h color s) /\
  queued (drawRect x y w h color s)
  = take (Z.to_nat MAX_UPDATE_BUFFER_SIZE)
      (queued s
       ++ filter (fun u => in_range u = true) (rect_pixels x y w h color)) /\
  dram (drawRect x y w h color s) = dram s.
Proof. intros Hok. by apply draw_fold. Qed.

Lemma fp6_drawRect_queues_witness :
  queued (drawRect 254 (-1) 3 2 1 init)
  = [mkPixelUpdate 254 0 1; mkPixelUpdate 255 0 1].
Proof.
  destruct (fp6_drawRect_queues 254 (-1) 3 2 1 init init_buffer_ok)
    as (_ & Hq & _).
  rewrite Hq. vm_compute. reflexivity.
Defined.

Lemma fp6_apply_updates_app us vs b :
  apply_updates (us ++ vs) b = apply_updates vs (apply_updates us b).
Proof. unfold apply_updates. apply foldl_app. Qed.

Lemma fp6_apply_updates_cons u us b :
  apply_updates (u :: us) b
  = apply_updates us
      (writeDram_bus (dram_address u).1 (dram_address u).2 (upd_color u) b).
Proof. reflexivity. Qed.

Lemma fp6_calls_writeDram_bus row col color b :
  calls (writeDram_bus row col color b) = calls b ++ [WriteCall row col color].
Proof. reflexivity. Qed.

Lemma fp6_apply_updates_calls us b :
  calls (apply_updates us b) = calls b ++ (write_call <$> us).
Proof.
  revert b. induction us as [|u us IH]; intros b.
  - by rewrite app_nil_r.
  - rewrite fp6_apply_updates_cons, IH, fp6_calls_writeDram_bus, fmap_cons.
    by rewrite <- app_assoc.
Qed.

Lemma fp6_calls_refresh_fold (l : list Z) b :
  calls (foldl (fun b' _ => refresh_cycle b') b l) = calls b.
Proof.
  revert b. induction l as [|a l IH]; intros b; [done|].
  cbn [foldl]. by rewrite IH.
Qed.

Lemma fp6_write_call_in_range u :
  0 <= upd_x u < FRAMEBUFFER_WIDTH -> 0 <= upd_y u < FRAMEBUFFER_HEIGHT ->
  write_call u
  = WriteCall ((upd_y u * FRAMEBUFFER_WIDTH + upd_x u) / DRAM_COLS)
      ((upd_y u * FRAMEBUFFER_WIDTH + upd_x u) mod DRAM_COLS) (upd_color u).
Proof.
  intros Hx Hy. unfold write_call, dram_address.
  by rewrite pixelIndex_in_bounds.
Qed.

Lemma fp6_apply_updates_formula us b :
  Forall (fun u => 0 <= upd_x u < FRAMEBUFFER_WIDTH /\
                   0 <= upd_y u < FRAMEBUFFER_HEIGHT) us ->
  apply_updates us b
  = foldl (fun b' u =>
             writeDram_bus
               ((upd_y u * FRAMEBUFFER_WIDTH + upd_x u) / DRAM_COLS)
               ((upd_y u * FRAMEBUFFER_WIDTH + upd_x u) mod DRAM_COLS)
               (upd_color u) b') b us.
Proof.
  intros Hus. revert b.
  induction Hus as [|u us [Hx Hy] Hus IH]; intros b; [done|].
  rewrite fp6_apply_updates_cons, IH. cbn [foldl].
  unfold dram_address. by rewrite pixelIndex_in_bounds.
Qed.

(** X9.  A pixel queued by [drawPixel] is written by the next frame
    handler, which also empties the buffer: after the writes for the
    updates queued before it, the handler calls [writeDram] with row
    [i / DRAM_COLS] and column [i mod DRAM_COLS] of the linear index
    [i = y * FRAMEBUFFER_WIDTH + x] and with the colour, and then runs
    the refresh loop. *)
Theorem fp6_drawPixel_then_frame x y color s :
  buffer_ok s ->
  0 <= x < FRAMEBUFFER_WIDTH -> 0 <= y < FRAMEBUFFER_HEIGHT ->
  update_buffer_index s < MAX_UPDATE_BUFFER_SIZE ->
  let s' := ISR_TIMER5_COMPA (drawPixel x y color s) in
  update_buffer_index s' = 0 /\
  calls (dram s')
  = calls (dram s) ++ (write_call <$> queued s)
    ++ [WriteCall ((y * FRAMEBUFFER_WIDTH + x) / DRAM_COLS)
          ((y * FRAMEBUFFER_WIDTH + x) mod DRAM_COLS) color] /\
  dram s'
  = refresh_bus
      (writeDram_bus ((y * FRAMEBUFFER_WIDTH + x) / DRAM_COLS)
         ((y * FRAMEBUFFER_WIDTH + x) mod DRAM_COLS) color
         (apply_updates (queued s) (dram s))).
Proof.
  intros Hok Hx Hy Hroom s'.
  destruct (drawPixel_cases x y color s Hok) as [Hin _].
  destruct Hin as (Hok' & _ & Hq & Hd); [by apply in_range_iff | done |].
  assert (dram s'
          = refresh_bus
              (writeDram_bus ((y * FRAMEBUFFER_WIDTH + x) / DRAM_COLS)
                 ((y * FRAMEBUFFER_WIDTH + x) mod DRAM_COLS) color
                 (apply_updates (queued s) (dram s)))) as E.
  { subst s'. unfold ISR_TIMER5_COMPA.
    rewrite casBeforeRasRefresh_spec.
    rewrite applyBufferToDRAM_spec by (by apply buffer_ok_wf).
    cbn [dram set_dram set_cbr_cycles set_update_buffer_index
         set_vBlank_in_progress set_lines].
    change (queued (set_vBlank_in_progress true (drawPixel x y color s)))
      with (queued (drawPixel x y color s)).
    rewrite Hq, Hd, fp6_apply_updates_app, fp6_apply_updates_cons.
    unfold dram_address. rewrite pixelIndex_in_bounds by done. done. }
  split; [|split; [|exact E]].
  - subst s'. unfold ISR_TIMER5_COMPA. rewrite casBeforeRasRefresh_spec.
    reflexivity.
  - rewrite E. unfold refresh_bus.
    rewrite fp6_calls_refresh_fold, fp6_calls_writeDram_bus.
    by rewrite fp6_apply_updates_calls, <- app_assoc.
Qed.

Lemma fp6_drawPixel_then_frame_witness :
  calls (dram (ISR_TIMER5_COMPA (drawPixel 255 255 5 init)))
  = [WriteCall 127 511 5].
Proof.
  assert (0 <= 255 < FRAMEBUFFER_WIDTH) as Hx
    by (unfold FRAMEBUFFER_WIDTH; lia).
  assert (0 <= 255 < FRAMEBUFFER_HEIGHT) as Hy
    by (unfold FRAMEBUFFER_HEIGHT; lia).
  assert (update_buffer_index init < MAX_UPDATE_BUFFER_SIZE) as Hroom
    by (unfold MAX_UPDATE_BUFFER_SIZE; simpl; lia).
  destruct (fp6_drawPixel_then_frame 255 255 5 init init_buffer_ok Hx Hy Hroom)
    as (_ & Hcalls & _).
  exact Hcalls.
Defined.

(** ** Further properties: [clearFramebuffer] and the line handler *)

(** X10.  The loop bound of [clearFramebuffer],
    [FRAMEBUFFER_WIDTH * FRAMEBUFFER_HEIGHT = 256 * 256], does not fit the
    16-bit [int] it is computed on and wraps to 0, so the loop body never
    runs: [clearFramebuffer] writes no DRAM cell and returns the state
    unchanged, whatever the colour. *)
Theorem fp6_clearFramebuffer_writes_nothing color s :
  u16 (s16 (FRAMEBUFFER_WIDTH * FRAMEBUFFER_HEIGHT)) = 0 /\
  clearFramebuffer color s = s.
Proof.
  split; [reflexivity|]. unfold clearFramebuffer.
  change (seqZ 0 (u16 (s16 (FRAMEBUFFER_WIDTH * FRAMEBUFFER_HEIGHT))))
    with (@nil Z).
  reflexivity.
Qed.

Lemma fp6_calls_transfer_bus row b :
  calls (transfer_bus row b) = calls b ++ [TransferCall row].
Proof. reflexivity. Qed.

Lemma calls_iter (f : dram_bus -> dram_bus) (k : nat) b :
  (forall b', calls (f b') = calls b') -> calls (Nat.iter k f b) = calls b.
Proof.
  intros Hf. induction k as [|k IH]; [done|].
  cbn [Nat.iter nat_rect]. by rewrite Hf.
Qed.

Lemma calls_clock_pixels b : calls (clock_pixels b) = calls b.
Proof.
  unfold clock_pixels. rewrite calls_sbi, calls_iter; [by rewrite calls_cbi|].
  intros b'. by rewrite calls_cbi, calls_sbi.
Qed.

Lemma fp6_ISR_TIMER1_COMPA_fields s :
  let l := s16 (currentScanline s + 1) in
  let s' := ISR_TIMER1_COMPA s in
  currentScanline s' = l /\
  update_buffer_index s' = update_buffer_index s /\
  (active_line l = true ->
     currentRow s' = s16 (currentRow s + 1) /\
     dram s' = clock_pixels (transfer_bus (u16 (currentRow s)) (dram s))) /\
  (active_line l = false ->
     currentRow s' = currentRow s /\ dram s' = dram s).
Proof.
  intros l s'. subst l s'. unfold ISR_TIMER1_COMPA.
  cbn [currentScanline set_lines].
  destruct (active_line (s16 (currentScanline s + 1)));
    cbn [currentScanline currentRow update_buffer_index dram set_lines
         set_dram transferRamToSam];
    repeat split; done.
Qed.

(** X11.  Counting from the frame handler's reset, the [n]-th line
    interrupt of a frame finds line number [n]; on lines 35 to 290 it
    calls [transferRamToSam] with row [n - 35], and on no other line does
    it request a row.  So the rows requested in a frame are
    0, 1, ..., 255, in this order: all [FRAMEBUFFER_HEIGHT = 256] rows. *)
Theorem fp6_lines_of_a_frame (n : nat) s :
  currentScanline s = 0 -> currentRow s = 0 ->
  Z.of_nat n < 32768 ->
  currentScanline (run_lines n s) = Z.of_nat n /\
  currentRow (run_lines n s)
    = Z.max 0 (Z.min (Z.of_nat n - 34) FRAMEBUFFER_HEIGHT) /\
  calls (dram (run_lines n s))
  = calls (dram s)
    ++ (TransferCall
          <$> seqZ 0 (Z.max 0 (Z.min (Z.of_nat n - 34) FRAMEBUFFER_HEIGHT))).
Proof.
  intros Hsl Hrow. induction n as [|n IH]; intros Hn.
  - change (run_lines 0 s) with s. rewrite Hsl, Hrow.
    split; [done|]. split; [done|]. by rewrite app_nil_r.
  - destruct IH as (Hs & Hr & Hc); [lia|].
    change (run_lines (S n) s) with (ISR_TIMER1_COMPA (run_lines n s)).
    pose proof (fp6_ISR_TIMER1_COMPA_fields (run_lines n s)) as Hf.
    cbv zeta in Hf. rewrite Hs in Hf.
    assert (s16 (Z.of_nat n + 1) = Z.of_nat (S n)) as Hl
      by (unfold s16; Z.div_mod_to_equations; lia).
    rewrite Hl in Hf. destruct Hf as (Hs' & _ & Hon & Hoff).
    unfold FRAMEBUFFER_HEIGHT in *.
    destruct (active_line (Z.of_nat (S n))) eqn:Ha.
    + apply fp6_active_line_iff in Ha. unfold FRAMEBUFFER_HEIGHT in Ha.
      destruct (Hon eq_refl) as (Hr' & Hd'). rewrite Hr in Hr', Hd'.
      split; [done|]. split.
      { rewrite Hr'. unfold s16. Z.div_mod_to_equations. lia. }
      rewrite Hd', calls_clock_pixels, fp6_calls_transfer_bus, Hc.
      rewrite <- app_assoc. f_equal.
      replace (Z.max 0 (Z.min (Z.of_nat (S n) - 34) 256))
        with (Z.max 0 (Z.min (Z.of_nat n - 34) 256) + 1) by lia.
      rewrite seqZ_snoc, fmap_app by lia. f_equal. cbn [fmap list_fmap].
      f_equal. f_equal. apply u16_small. lia.
    + assert (~ 35 <= Z.of_nat (S n) < 35 + 256) as Hna.
      { intros H. apply (fp6_active_line_iff (Z.of_nat (S n))) in H.
        congruence. }
      destruct (Hoff eq_refl) as (Hr' & Hd').
      split; [done|]. split; [rewrite Hr', Hr; lia|].
      rewrite Hd', Hc. do 3 f_equal. lia.
Qed.

Lemma fp6_lines_of_a_frame_witness :
  calls (dram (run_lines 525 init)) = TransferCall <$> seqZ 0 256 /\
  currentRow (run_lines 525 init) = 256.
Proof.
  assert (Z.of_nat 525 < 32768) as H by lia.
  destruct (fp6_lines_of_a_frame 525 init eq_refl eq_refl H)
    as (_ & Hrow & Hc).
  split; [exact Hc | exact Hrow].
Defined.

(** ** Further properties: [writeDram] and [setAddress] at the port
    registers *)

Lemma setAddress_masked row col b :
  setAddress row col b
  = setAddress (Z.land row 0x1C0) (Z.land col 0x0F) b.
Proof.
  unfold setAddress. cbv zeta.
  rewrite <- (Z.land_assoc col 15 3).
  rewrite !Z.shiftr_land, <- !Z.land_assoc. reflexivity.
Qed.

(** X22.  [setAddress] stores whole registers: of the column it passes on
    the low four bits and of the row the bits 6, 7 and 8, so two calls of
    [writeDram] or [transferRamToSam] that agree in these (and in the low
    eight bits of the colour) make the same stores; and because it writes
    [(row >> 8) & 1] to [PORTL] and [(row >> 6) & 3] to [PORTC], it leaves
    RAS, CAS, WE, OE, SC and SE all low. *)
Theorem fp6_writeDram_registers row col color b :
  driven (writeDram_bus row col color b)
  = driven (writeDram_bus (Z.land row 0x1C0) (Z.land col 0x0F) (u8 color) b) /\
  driven (transfer_bus row b) = driven (transfer_bus (Z.land row 0x1C0) b) /\
  Z.testbit (PORTL (regs (setAddress row col b))) RAS_BIT = false /\
  Z.testbit (PORTL (regs (setAddress row col b))) CAS_BIT = false /\
  Z.testbit (PORTC (regs (setAddress row col b))) WE_BIT = false /\
  Z.testbit (PORTC (regs (setAddress row col b))) OE_BIT = false /\
  Z.testbit (PORTC (regs (setAddress row col b))) SC_BIT = false /\
  Z.testbit (PORTC (regs (setAddress row col b))) SE_BIT = false.
Proof.
  split; [|split].
  - unfold writeDram_bus, write_cycle. cbv zeta. rewrite u8_idem.
    do 3 apply driven_sbi. apply driven_store. do 3 apply driven_cbi.
    rewrite (setAddress_masked row col).
    unfold setAddress. cbv zeta. do 5 apply driven_store.
    by rewrite !driven_log_call.
  - unfold transfer_bus. cbv zeta.
    apply driven_sbi, driven_sbi, driven_cbi, driven_cbi.
    rewrite (setAddress_masked row 0).
    unfold setAddress. cbv zeta. do 4 apply driven_store.
    by rewrite !driven_log_call.
  - unfold setAddress, RAS_BIT, CAS_BIT, WE_BIT, OE_BIT, SC_BIT, SE_BIT.
    cbv zeta. cbn [regs store PORTL PORTC].
    rewrite !Z.land_spec. cbn [Z.testbit Pos.testbit].
    rewrite !andb_false_r. repeat split.
Qed.

End Fp6Facts.

(** * Facts about dram/511000_opt.ino *)

Module Opt511000Facts.
Import Opt511000.

Lemma setAddress_frame addr s :
  PORTC (setAddress addr s) = PORTC s /\
  lastRefreshMicros (setAddress addr s) = lastRefreshMicros s /\
  ras_log (setAddress addr s) = ras_log s.
Proof. done. Qed.

Lemma RAS_cleared c :
  Z.testbit (u8 (Z.land c (Z.lnot (Z.shiftl 1 RAS_BIT)))) RAS_BIT = false.
Proof.
  unfold u8, RAS_BIT. rewrite Z.mod_pow2_bits_low by lia.
  rewrite Z.land_spec, Z.lnot_spec by lia. simpl. apply andb_false_r.
Qed.

Lemma RAS_set c :
  Z.testbit (u8 (Z.lor c (Z.shiftl 1 RAS_BIT))) RAS_BIT = true.
Proof.
  unfold u8, RAS_BIT. rewrite Z.mod_pow2_bits_low by lia.
  rewrite Z.lor_spec. simpl. apply orb_true_r.
Qed.

(** One loop iteration is one RAS cycle and releases RAS again. *)
Lemma refresh_row_spec s row :
  Z.testbit (PORTC s) RAS_BIT = true ->
  Z.testbit (PORTC (refresh_row s row)) RAS_BIT = true /\
  length (ras_log (refresh_row s row)) = S (length (ras_log s)) /\
  lastRefreshMicros (refresh_row s row) = lastRefreshMicros s.
Proof.
  intros Hras. unfold refresh_row, write_PORTC.
  cbn [PORTC PORTB PORTD lastRefreshMicros ras_log setAddress].
  rewrite !RAS_cleared, RAS_set, Hras. cbn [andb negb].
  rewrite length_app. cbn [length]. split; [done|]. split; [lia | done].
Qed.

Lemma refresh_rows_fold rows s :
  Z.testbit (PORTC s) RAS_BIT = true ->
  Z.testbit (PORTC (foldl refresh_row s rows)) RAS_BIT = true /\
  length (ras_log (foldl refresh_row s rows))
    = (length (ras_log s) + length rows)%nat /\
  lastRefreshMicros (foldl refresh_row s rows) = lastRefreshMicros s.
Proof.
  revert s. induction rows as [|row rows IH]; intros s Hras.
  - simpl. split; [done|]. split; [lia | done].
  - cbn [foldl]. destruct (refresh_row_spec s row Hras) as (H1 & H2 & H3).
    destruct (IH _ H1) as (I1 & I2 & I3).
    split; [done|]. split; [|congruence].
    rewrite I2, H2. cbn [length]. lia.
Qed.

Lemma refreshAllRows_spec s :
  Z.testbit (PORTC s) RAS_BIT = true ->
  length (ras_log (refreshAllRows s)) = (length (ras_log s) + 256)%nat /\
  lastRefreshMicros (refreshAllRows s) = lastRefreshMicros s.
Proof.
  intros Hras. unfold refreshAllRows.
  destruct (refresh_rows_fold (seqZ 0 256) s Hras) as (_ & H2 & H3).
  rewrite length_seqZ in H2. done.
Qed.

Lemma ras_log_set_lastRefreshMicros t s :
  ras_log (set_lastRefreshMicros t s) = ras_log s.
Proof. reflexivity. Qed.

(** ** Further properties: the address lines *)

Lemma u8_land x : u8 x = Z.land x 255.
Proof. unfold u8. change 255 with (Z.ones 8). by rewrite Z.land_ones. Qed.

Lemma masked_update old new keep take_ mask :
  Z.land keep mask = 0 -> Z.land 255 mask = mask ->
  Z.land (u8 (Z.lor (Z.land old keep) (Z.land new take_))) mask
  = Z.land new (Z.land take_ mask).
Proof.
  intros Hk Hm. rewrite u8_land, <- Z.land_assoc, Hm.
  rewrite Z.land_lor_distr_l, <- !Z.land_assoc, Hk, Z.land_0_r.
  apply Z.lor_0_l.
Qed.

(** The value left on [PORTD] does not depend on its old value. *)
Lemma setAddress_PORTD addr s :
  PORTD (setAddress addr s)
  = u8 (Z.lor (Z.land (u16 (Z.shiftl addr 2)) 0xFC)
          (Z.land (Z.shiftr addr 6) 0x03)).
Proof.
  unfold setAddress. cbn [PORTD]. f_equal. f_equal.
  rewrite masked_update by done. reflexivity.
Qed.

Lemma decode_table :
  forallb
    (fun addr =>
       decode_address
         (u8 (Z.lor (Z.land (u16 (Z.shiftl addr 2)) 0xFC)
                (Z.land (Z.shiftr addr 6) 0x03)))
         (Z.land (Z.shiftr addr 6) 0x0C) =? addr)
    (seqZ 0 1024) = true.
Proof. vm_compute. reflexivity. Qed.

Lemma decode_address_PORTB portd portb :
  decode_address portd portb = decode_address portd (Z.land portb 0x0C).
Proof.
  unfold decode_address. rewrite <- (Z.land_assoc portb).
  reflexivity.
Qed.

Lemma decode_setAddress addr s :
  0 <= addr < 1024 ->
  decode_address (PORTD (setAddress addr s)) (PORTB (setAddress addr s))
  = addr.
Proof.
  intros Ha. rewrite setAddress_PORTD, decode_address_PORTB.
  unfold setAddress. cbn [PORTB].
  rewrite (masked_update (PORTB s) (Z.shiftr addr 6) 0xF3 0x0C 0x0C) by done.
  change (Z.land 12 12) with 12.
  pose proof decode_table as H. rewrite forallb_forall in H.
  apply Z.eqb_eq, H. apply list_elem_of_In, elem_of_seqZ. lia.
Qed.

(** X16.  [setAddress] encodes a 10-bit address on [PORTD] and bits 2
    and 3 of [PORTB] without loss: the address can be read back from the
    two ports, so different addresses give different pin patterns.  The
    new [PORTD] does not depend on its old value, and the other bits of
    [PORTB], [PORTC], the refresh time and the log are untouched. *)
Theorem setAddress_round_trip addr s :
  0 <= addr < 1024 ->
  decode_address (PORTD (setAddress addr s)) (PORTB (setAddress addr s))
    = addr /\
  (forall s', PORTD (setAddress addr s') = PORTD (setAddress addr s)) /\
  Z.land (PORTB (setAddress addr s)) 0xF3 = Z.land (PORTB s) 0xF3 /\
  PORTC (setAddress addr s) = PORTC s /\
  lastRefreshMicros (setAddress addr s) = lastRefreshMicros s /\
  ras_log (setAddress addr s) = ras_log s.
Proof.
  intros Ha. split; [by apply decode_setAddress|].
  split; [intros s'; by rewrite !setAddress_PORTD|].
  split; [|done]. unfold setAddress. cbn [PORTB].
  rewrite u8_land, <- Z.land_assoc. change (Z.land 255 243) with 243.
  rewrite Z.land_lor_distr_l, <- !Z.land_assoc.
  change (Z.land 243 243) with 243. change (Z.land 12 243) with 0.
  by rewrite Z.land_0_r, Z.lor_0_r.
Qed.

Lemma setAddress_round_trip_witness :
  decode_address (PORTD (setAddress 1023 after_setup))
    (PORTB (setAddress 1023 after_setup)) = 1023.
Proof.
  assert (0 <= 1023 < 1024) as H by lia.
  exact (proj1 (setAddress_round_trip 1023 after_setup H)).
Defined.

(** ** Further properties: the rows that are refreshed *)

Lemma refresh_row_log s row :
  Z.testbit (PORTC s) RAS_BIT = true ->
  Z.testbit (PORTC (refresh_row s row)) RAS_BIT = true /\
  ras_log (refresh_row s row)
  = ras_log s ++ [(PORTD (setAddress row s), PORTB (setAddress row s))].
Proof.
  intros Hras. unfold refresh_row, write_PORTC.
  cbn [PORTC PORTB PORTD lastRefreshMicros ras_log setAddress].
  rewrite !RAS_cleared, RAS_set, Hras. cbn [andb negb]. done.
Qed.

Lemma refresh_rows_log rows s :
  Forall (fun row => 0 <= row < 1024) rows ->
  Z.testbit (PORTC s) RAS_BIT = true ->
  exists entries,
    ras_log (foldl refresh_row s rows) = ras_log s ++ entries /\
    (fun e => decode_address e.1 e.2) <$> entries = rows.
Proof.
  revert s. induction rows as [|row rows IH]; intros s Hrows Hras.
  - exists []. by rewrite app_nil_r.
  - inversion Hrows as [|? ? Hrow Hrows']; subst. cbn [foldl].
    destruct (refresh_row_log s row Hras) as [Hras' Hlog].
    destruct (IH _ Hrows' Hras') as (entries & Hl & Hd).
    exists ((PORTD (setAddress row s), PORTB (setAddress row s)) :: entries).
    split.
    + rewrite Hl, Hlog, <- app_assoc. done.
    + rewrite fmap_cons, Hd. cbn [fst snd].
      by rewrite decode_setAddress.
Qed.

(** C8.  [refreshIfNeeded] runs [refreshAllRows] exactly when the time
    elapsed since the recorded last refresh, computed on [unsigned long],
    is at least [refreshInterval], and then records [now]; otherwise it
    returns the state unchanged.  What it runs is not a refresh of the
    whole array: the RAS cycles it adds are those of the rows
    0, 1, ..., 255, in this order, and none is for a row from 256 on,
    although the sketch addresses the rows up to 511
    ([row = (addr >> 8) & 0x1FF], which is 511 for the last of its
    [totalAddresses] addresses). *)
Theorem refreshIfNeeded_rows now s :
  Z.testbit (PORTC s) RAS_BIT = true ->
  (refreshInterval <= elapsed now s ->
     lastRefreshMicros (refreshIfNeeded now s) = now /\
     exists entries,
       ras_log (refreshIfNeeded now s) = ras_log s ++ entries /\
       (fun e => decode_address e.1 e.2) <$> entries = seqZ 0 256 /\
       Forall (fun e => 0 <= decode_address e.1 e.2 < 256) entries) /\
  (elapsed now s < refreshInterval -> refreshIfNeeded now s = s) /\
  (0 <= lastRefreshMicros s <= now -> now < 2 ^ 32 ->
     elapsed now s = now - lastRefreshMicros s) /\
  Z.land (Z.shiftr (totalAddresses - 1) 8) 0x1FF = 511.
Proof.
  intros Hras. unfold refreshIfNeeded. split; [|split; [|split]].
  - intros H. apply Z.leb_le in H. rewrite H. split; [reflexivity|].
    rewrite ras_log_set_lastRefreshMicros. unfold refreshAllRows.
    destruct (refresh_rows_log (seqZ 0 256) s) as (entries & Hl & Hd);
      [|exact Hras|].
    { apply Forall_forall. intros row Hrow. apply elem_of_seqZ in Hrow. lia. }
    exists entries. split; [exact Hl|]. split; [exact Hd|].
    apply Forall_forall. intros e He.
    assert (decode_address e.1 e.2 ∈ seqZ 0 256) as Hin.
    { rewrite <- Hd. apply list_elem_of_fmap. by exists e. }
    apply elem_of_seqZ in Hin. lia.
  - intros H. apply Z.leb_gt in H. rewrite H. reflexivity.
  - intros H1 H2. unfold elapsed. apply u32_small. lia.
  - reflexivity.
Qed.

Lemma refreshIfNeeded_rows_witness :
  (exists entries,
     ras_log (refreshIfNeeded 250 after_setup) = entries /\
     (fun e => decode_address e.1 e.2) <$> entries = seqZ 0 256) /\
  lastRefreshMicros (refreshIfNeeded 250 after_setup) = 250 /\
  refreshIfNeeded 249 after_setup = after_setup.
Proof.
  assert (Z.testbit (PORTC after_setup) RAS_BIT = true) as H
    by (vm_compute; reflexivity).
  destruct (refreshIfNeeded_rows 250 after_setup H) as (Hdue & _ & _).
  destruct (refreshIfNeeded_rows 249 after_setup H) as (_ & Hnot & _).
  assert (refreshInterval <= elapsed 250 after_setup) as H1
    by (vm_compute; discriminate).
  assert (elapsed 249 after_setup < refreshInterval) as H2
    by (vm_compute; reflexivity).
  destruct (Hdue H1) as (Hlast & entries & Hl & Hd & _).
  split; [|split; [exact Hlast | exact (Hnot H2)]].
  exists entries. split; [exact Hl | exact Hd].
Defined.

(** X17.  [refreshAllRows] runs one RAS cycle for each of the row
    addresses 0, 1, ..., 255, in this order, and for no other row: the
    rows 256 to 511 that [writeBitTimed] and [readBitTimed] address are
    not covered by it. *)
Theorem refreshAllRows_rows s :
  Z.testbit (PORTC s) RAS_BIT = true ->
  exists entries,
    ras_log (refreshAllRows s) = ras_log s ++ entries /\
    (fun e => decode_address e.1 e.2) <$> entries = seqZ 0 256.
Proof.
  intros Hras. unfold refreshAllRows. apply refresh_rows_log; [|done].
  apply Forall_forall. intros row Hrow. apply elem_of_seqZ in Hrow. lia.
Qed.

Lemma refreshAllRows_rows_witness :
  exists entries,
    ras_log (refreshAllRows after_setup) = entries /\
    (fun e => decode_address e.1 e.2) <$> entries = seqZ 0 256.
Proof.
  assert (Z.testbit (PORTC after_setup) RAS_BIT = true) as H
    by (vm_compute; reflexivity).
  destruct (refreshAllRows_rows after_setup H) as (entries & Hl & Hd).
  exists entries. split; [exact Hl | exact Hd].
Defined.

(** ** Further properties: the row latched by an access *)

Lemma testbit_u8_set c bit n :
  0 <= n < 8 -> 0 <= bit ->
  Z.testbit (u8 (Z.lor c (Z.shiftl 1 bit))) n = Z.testbit c n || (bit =? n).
Proof.
  intros Hn Hb. unfold u8. rewrite Z.mod_pow2_bits_low by lia.
  by rewrite Z.lor_spec, Z.shiftl_1_l, Z.pow2_bits_eqb by lia.
Qed.

Lemma testbit_u8_clear c bit n :
  0 <= n < 8 -> 0 <= bit ->
  Z.testbit (u8 (Z.land c (Z.lnot (Z.shiftl 1 bit)))) n
  = Z.testbit c n && negb (bit =? n).
Proof.
  intros Hn Hb. unfold u8. rewrite Z.mod_pow2_bits_low by lia.
  rewrite Z.land_spec, Z.lnot_spec by lia.
  by rewrite Z.shiftl_1_l, Z.pow2_bits_eqb by lia.
Qed.

Lemma set_PORTC_RAS bit s :
  0 <= bit ->
  Z.testbit (PORTC (set_PORTC bit s)) RAS_BIT
  = Z.testbit (PORTC s) RAS_BIT || (bit =? RAS_BIT).
Proof.
  intros Hb. unfold set_PORTC, write_PORTC. cbn [PORTC].
  apply testbit_u8_set; [unfold RAS_BIT; lia | done].
Qed.

Lemma set_PORTC_log bit s :
  0 <= bit -> ras_log (set_PORTC bit s) = ras_log s.
Proof.
  intros Hb. unfold set_PORTC, write_PORTC. cbn [ras_log].
  rewrite testbit_u8_set by (unfold RAS_BIT; lia).
  by destruct (Z.testbit (PORTC s) RAS_BIT).
Qed.

Lemma clear_PORTC_RAS bit s :
  0 <= bit -> bit <> RAS_BIT ->
  Z.testbit (PORTC (clear_PORTC bit s)) RAS_BIT
  = Z.testbit (PORTC s) RAS_BIT.
Proof.
  intros Hb Hne. unfold clear_PORTC, write_PORTC. cbn [PORTC].
  rewrite testbit_u8_clear by (unfold RAS_BIT; lia).
  apply Z.eqb_neq in Hne. rewrite Hne. apply andb_true_r.
Qed.

Lemma clear_PORTC_log bit s :
  0 <= bit -> bit <> RAS_BIT -> ras_log (clear_PORTC bit s) = ras_log s.
Proof.
  intros Hb Hne. unfold clear_PORTC, write_PORTC. cbn [ras_log].
  rewrite testbit_u8_clear by (unfold RAS_BIT; lia).
  apply Z.eqb_neq in Hne. rewrite Hne.
  by destruct (Z.testbit (PORTC s) RAS_BIT).
Qed.

Lemma clear_RAS_log s :
  Z.testbit (PORTC s) RAS_BIT = true ->
  ras_log (clear_PORTC RAS_BIT s) = ras_log s ++ [(PORTD s, PORTB s)].
Proof.
  intros Hras. unfold clear_PORTC, write_PORTC. cbn [ras_log].
  by rewrite RAS_cleared, Hras.
Qed.

Lemma clear_RAS_low s :
  Z.testbit (PORTC (clear_PORTC RAS_BIT s)) RAS_BIT = false.
Proof. unfold clear_PORTC, write_PORTC. cbn [PORTC]. apply RAS_cleared. Qed.

Lemma PORTC_set_lastRefreshMicros t s :
  PORTC (set_lastRefreshMicros t s) = PORTC s.
Proof. reflexivity. Qed.

Lemma refreshIfNeeded_RAS now s :
  Z.testbit (PORTC s) RAS_BIT = true ->
  Z.testbit (PORTC (refreshIfNeeded now s)) RAS_BIT = true.
Proof.
  intros Hras. unfold refreshIfNeeded.
  destruct (refreshInterval <=? elapsed now s); [|exact Hras].
  rewrite PORTC_set_lastRefreshMicros. unfold refreshAllRows.
  exact (proj1 (refresh_rows_fold (seqZ 0 256) s Hras)).
Qed.

Lemma row_range addr : 0 <= Z.land (Z.shiftr addr 8) 0x1FF < 1024.
Proof.
  change 0x1FF with (Z.ones 9). rewrite Z.land_ones by lia.
  pose proof (Z.mod_pos_bound (Z.shiftr addr 8) (2 ^ 9)). lia.
Qed.

Lemma writeBitTimed_log now t0 t1 addr value b :
  Z.testbit (PORTC (core b)) RAS_BIT = true ->
  exists e,
    ras_log (core (writeBitTimed now t0 t1 addr value b).2)
      = ras_log (refreshIfNeeded now (core b)) ++ [e] /\
    decode_address e.1 e.2 = Z.land (Z.shiftr addr 8) 0x1FF /\
    Z.testbit (PORTC (core (writeBitTimed now t0 t1 addr value b).2)) RAS_BIT
      = true.
Proof.
  intros Hras. apply (refreshIfNeeded_RAS now) in Hras.
  unfold writeBitTimed. cbv zeta. cbn [snd core].
  set (s0 := refreshIfNeeded now (core b)) in *.
  set (s1 := if value then set_PORTC DQ_BIT s0 else clear_PORTC DQ_BIT s0).
  assert (Z.testbit (PORTC s1) RAS_BIT = true /\ ras_log s1 = ras_log s0)
    as [Hras1 Hlog1].
  { subst s1. destruct value.
    - by rewrite set_PORTC_RAS, set_PORTC_log, Hras.
    - by rewrite clear_PORTC_RAS, clear_PORTC_log, Hras. }
  set (row := Z.land (Z.shiftr addr 8) 0x1FF).
  set (s2 := setAddress row s1).
  exists (PORTD s2, PORTB s2). split; [|split].
  - rewrite set_PORTC_log, !set_PORTC_log, clear_PORTC_log,
      clear_PORTC_log by done.
    change (ras_log (clear_PORTC RAS_BIT s2)
            = ras_log s0 ++ [(PORTD s2, PORTB s2)]).
    rewrite clear_RAS_log by done. by rewrite <- Hlog1.
  - apply decode_setAddress, row_range.
  - rewrite set_PORTC_RAS by done. apply orb_true_r.
Qed.

Lemma readBitTimed_log now t0 t1 pinc addr b :
  Z.testbit (PORTC (core b)) RAS_BIT = true ->
  ras_log (core (readBitTimed now t0 t1 pinc addr b).2)
    = ras_log (refreshIfNeeded now (core b))
      ++ [(PORTD (refreshIfNeeded now (core b)),
           PORTB (refreshIfNeeded now (core b)))] /\
  Z.testbit (PORTC (core (readBitTimed now t0 t1 pinc addr b).2)) RAS_BIT
    = true.
Proof.
  intros Hras. apply (refreshIfNeeded_RAS now) in Hras.
  unfold readBitTimed. cbv zeta. cbn [snd core].
  set (s0 := refreshIfNeeded now (core b)) in *. split.
  - rewrite !set_PORTC_log, clear_PORTC_log by done.
    change (ras_log (clear_PORTC RAS_BIT s0)
            = ras_log s0 ++ [(PORTD s0, PORTB s0)]).
    by apply clear_RAS_log.
  - rewrite set_PORTC_RAS by done. apply orb_true_r.
Qed.

(** X18.  An access starts exactly one RAS cycle after the refresh check
    and releases RAS again.  In [writeBitTimed] the cycle latches the row
    [(addr >> 8) & 0x1FF] of the address.  In [readBitTimed] RAS is
    lowered before [setAddress(row)], so the cycle latches whatever the
    address lines carried before the call (or after its refresh), not the
    row of [addr]. *)
Theorem access_row_latched now t0 t1 pinc addr value b :
  Z.testbit (PORTC (core b)) RAS_BIT = true ->
  let s0 := refreshIfNeeded now (core b) in
  let w := core (writeBitTimed now t0 t1 addr value b).2 in
  let r := core (readBitTimed now t0 t1 pinc addr b).2 in
  (exists e, ras_log w = ras_log s0 ++ [e] /\
             decode_address e.1 e.2 = Z.land (Z.shiftr addr 8) 0x1FF) /\
  ras_log r = ras_log s0 ++ [(PORTD s0, PORTB s0)] /\
  Z.testbit (PORTC w) RAS_BIT = true /\
  Z.testbit (PORTC r) RAS_BIT = true.
Proof.
  intros Hras. cbv zeta.
  destruct (writeBitTimed_log now t0 t1 addr value b Hras)
    as (e & Hw & He & Hw').
  destruct (readBitTimed_log now t0 t1 pinc addr b Hras) as (Hr & Hr').
  split; [by exists e|]. done.
Qed.

Lemma access_row_latched_witness :
  map (fun e => decode_address e.1 e.2)
    (ras_log (core (readBitTimed 0 0 0 0 0x1234
                      (mkBench after_setup 0)).2))
  = [0].
Proof.
  assert (Z.testbit (PORTC (core (mkBench after_setup 0))) RAS_BIT = true)
    as H by (vm_compute; reflexivity).
  destruct (access_row_latched 0 0 0 0 0x1234 true (mkBench after_setup 0) H)
    as (_ & Hr & _).
  rewrite Hr. vm_compute. reflexivity.
Defined.

(** ** Further properties: the test patterns *)

Lemma to_bool_land_1 x : to_bool (Z.land x 1) = Z.testbit x 0.
Proof.
  change 1 with (Z.ones 1) at 1. rewrite Z.land_ones by lia.
  change (2 ^ 1) with 2. rewrite <- Z.bit0_mod. unfold to_bool.
  by destruct (Z.testbit x 0).
Qed.

(** X19.  The bit that [patternBit] returns, in terms of the bits of the
    address: patterns 2, 3 and 4 are address bits 0, 1 and 8; pattern 5
    is the same function as pattern 2 (the mask [0xFFFF] changes
    nothing); pattern 6 is its complement; an identifier above 6 gives
    0. *)
Theorem patternBit_bits patternID addr :
  6 < patternID ->
  patternBit 2 addr = Z.testbit addr 0 /\
  patternBit 3 addr = Z.testbit addr 1 /\
  patternBit 4 addr = Z.testbit addr 8 /\
  patternBit 5 addr = patternBit 2 addr /\
  patternBit 6 addr = negb (patternBit 2 addr) /\
  patternBit patternID addr = false.
Proof.
  intros Hid. unfold patternBit.
  change (2 =? 0) with false. change (2 =? 1) with false.
  change (2 =? 2) with true. cbv iota.
  change (if 3 =? 0 then _ else _)
    with (to_bool (Z.land (Z.shiftr addr 1) 1)).
  change (if 4 =? 0 then _ else _)
    with (to_bool (Z.land (Z.shiftr addr 8) 1)).
  change (if 5 =? 0 then _ else _)
    with (to_bool (Z.land (Z.land addr 0xFFFF) 1)).
  change (if 6 =? 0 then _ else _)
    with (to_bool (Z.land (u32 (Z.lnot addr)) 1)).
  rewrite !to_bool_land_1, !Z.shiftr_spec by lia.
  split; [done|]. split; [done|]. split; [done|].
  split; [|split].
  - rewrite Z.land_spec. change (Z.testbit 65535 0) with true.
    apply andb_true_r.
  - unfold u32. rewrite Z.mod_pow2_bits_low by lia.
    by rewrite Z.lnot_spec by lia.
  - repeat (destruct (patternID =? _) eqn:E;
            [apply Z.eqb_eq in E; lia | clear E]).
    reflexivity.
Qed.

Lemma patternBit_bits_witness :
  patternBit 5 0xABCD = patternBit 2 0xABCD /\ patternBit 7 0xABCD = false.
Proof.
  assert (6 < 7) as H by lia.
  destruct (patternBit_bits 7 0xABCD H) as (_ & _ & _ & H5 & _ & H7).
  split; [exact H5 | exact H7].
Defined.

(** ** Further properties: the latency statistics *)

Lemma u32_add_l a b : u32 (u32 a + b) = u32 (a + b).
Proof. unfold u32. apply Zplus_mod_idemp_l. Qed.

Lemma add_all_spec ts st T C :
  stat_total st = u32 T -> stat_count st = u32 C ->
  stat_min (add_all ts st) <= stat_min st /\
  stat_max st <= stat_max (add_all ts st) /\
  (forall t, t ∈ ts ->
     stat_min (add_all ts st) <= t <= stat_max (add_all ts st)) /\
  (stat_min (add_all ts st) = stat_min st \/ stat_min (add_all ts st) ∈ ts) /\
  (stat_max (add_all ts st) = stat_max st \/ stat_max (add_all ts st) ∈ ts) /\
  stat_total (add_all ts st) = u32 (T + sum_list ts) /\
  stat_count (add_all ts st) = u32 (C + Z.of_nat (length ts)).
Proof.
  revert st T C. induction ts as [|t ts IH]; intros st T C HT HC.
  - change (add_all [] st) with st. cbn [sum_list foldr length].
    rewrite !Z.add_0_r.
    split; [lia|]. split; [lia|]. split; [|split; [|split]].
    + intros t Ht. by apply elem_of_nil in Ht.
    + by left.
    + by left.
    + done.
  - change (add_all (t :: ts) st) with (add_all ts (add t st)).
    assert (stat_total (add t st) = u32 (T + t)) as HT'.
    { unfold add. cbn [stat_total]. by rewrite HT, u32_add_l. }
    assert (stat_count (add t st) = u32 (C + 1)) as HC'.
    { unfold add. cbn [stat_count]. by rewrite HC, u32_add_l. }
    destruct (IH (add t st) (T + t) (C + 1) HT' HC')
      as (Hmin & Hmax & Hall & Hmin_in & Hmax_in & Htot & Hcnt).
    set (st' := add_all ts (add t st)) in *.
    assert (stat_min (add t st) <= stat_min st /\ stat_min (add t st) <= t /\
            (stat_min (add t st) = stat_min st \/ stat_min (add t st) = t))
      as (Hm1 & Hm2 & Hm3).
    { unfold add. cbn [stat_min]. destruct (Z.ltb_spec t (stat_min st)); lia. }
    assert (stat_max st <= stat_max (add t st) /\ t <= stat_max (add t st) /\
            (stat_max (add t st) = stat_max st \/ stat_max (add t st) = t))
      as (HM1 & HM2 & HM3).
    { unfold add. cbn [stat_max]. destruct (Z.ltb_spec (stat_max st) t); lia. }
    split; [lia|]. split; [lia|]. split; [|split; [|split; [|split]]].
    + intros t' Ht'. apply elem_of_cons in Ht' as [-> | Ht'].
      * lia.
      * apply Hall, Ht'.
    + destruct Hmin_in as [Heq | Hin].
      * destruct Hm3 as [Hm3 | Hm3]; [left; congruence|].
        right. rewrite Heq, Hm3. apply list_elem_of_here.
      * right. by apply list_elem_of_further.
    + destruct Hmax_in as [Heq | Hin].
      * destruct HM3 as [HM3 | HM3]; [left; congruence|].
        right. rewrite Heq, HM3. apply list_elem_of_here.
      * right. by apply list_elem_of_further.
    + rewrite Htot. cbn [sum_list foldr]. f_equal. unfold sum_list. lia.
    + rewrite Hcnt. cbn [length]. f_equal. lia.
Qed.

Lemma sum_list_bounds lo hi ts :
  (forall t, t ∈ ts -> lo <= t <= hi) ->
  lo * Z.of_nat (length ts) <= sum_list ts <= hi * Z.of_nat (length ts).
Proof.
  induction ts as [|t ts IH]; intros Hall.
  - cbn [sum_list foldr length]. lia.
  - cbn [sum_list foldr length]. fold (sum_list ts).
    pose proof (Hall t (list_elem_of_here _ _)) as Ht.
    assert (forall t', t' ∈ ts -> lo <= t' <= hi) as Hall'
      by (intros t' Ht'; by apply Hall, list_elem_of_further).
    specialize (IH Hall'). lia.
Qed.

(** X20.  After [add] has been called with the times [ts] (at least one,
    each an [unsigned long]) on a fresh [LatencyStats], [min] and [max]
    are the smallest and the largest of the times, [total] is their sum
    and [count] their number, both modulo 2^32.  As long as neither has
    wrapped, the average that [print] shows lies between [min] and
    [max]. *)
Theorem LatencyStats_summary ts :
  ts <> [] -> Forall (fun t => 0 <= t < 2 ^ 32) ts ->
  stat_min (add_all ts LatencyStats_init) ∈ ts /\
  stat_max (add_all ts LatencyStats_init) ∈ ts /\
  (forall t, t ∈ ts ->
     stat_min (add_all ts LatencyStats_init) <= t
     <= stat_max (add_all ts LatencyStats_init)) /\
  stat_total (add_all ts LatencyStats_init) = u32 (sum_list ts) /\
  stat_count (add_all ts LatencyStats_init) = u32 (Z.of_nat (length ts)) /\
  (sum_list ts < 2 ^ 32 -> Z.of_nat (length ts) < 2 ^ 32 ->
     stat_min (add_all ts LatencyStats_init)
     <= average (add_all ts LatencyStats_init)
     <= stat_max (add_all ts LatencyStats_init)).
Proof.
  intros Hne Hrange.
  assert (stat_total LatencyStats_init = u32 0) as HT by reflexivity.
  assert (stat_count LatencyStats_init = u32 0) as HC by reflexivity.
  destruct (add_all_spec ts LatencyStats_init 0 0 HT HC)
    as (Hmin & Hmax & Hall & Hmin_in & Hmax_in & Htot & Hcnt).
  set (st := add_all ts LatencyStats_init) in *.
  rewrite Z.add_0_l in Htot, Hcnt.
  change (stat_min LatencyStats_init) with ULONG_MAX in Hmin, Hmin_in.
  change (stat_max LatencyStats_init) with 0 in Hmax, Hmax_in.
  destruct ts as [|t0 ts0] eqn:Ets; [done|]. rewrite <- Ets in *.
  assert (t0 ∈ ts) as Ht0 by (rewrite Ets; apply list_elem_of_here).
  pose proof (Hall t0 Ht0) as Hb0.
  assert (0 <= t0 < 2 ^ 32) as Hr0.
  { rewrite Forall_forall in Hrange. by apply Hrange. }
  assert (stat_min st ∈ ts) as Hmin'.
  { destruct Hmin_in as [Heq | Hin]; [|done].
    assert (t0 = stat_min st) as <- by (unfold ULONG_MAX in Heq; lia).
    done. }
  assert (stat_max st ∈ ts) as Hmax'.
  { destruct Hmax_in as [Heq | Hin]; [|done].
    assert (t0 = stat_max st) as <- by lia.
    done. }
  split; [done|]. split; [done|]. split; [done|].
  split; [done|]. split; [done|].
  intros Hsum Hlen.
  pose proof (sum_list_bounds (stat_min st) (stat_max st) ts Hall)
    as [Hlo Hhi].
  assert (0 < Z.of_nat (length ts)) as Hpos by (rewrite Ets; cbn [length]; lia).
  assert (0 <= stat_min st).
  { rewrite Forall_forall in Hrange. by apply Hrange. }
  assert (0 <= sum_list ts) by nia.
  unfold average. rewrite Hcnt, Htot.
  rewrite (u32_small (sum_list ts)), (u32_small (Z.of_nat (length ts)))
    by lia.
  destruct (Z.eqb_spec (Z.of_nat (length ts)) 0); [lia|].
  split.
  - apply Z.div_le_lower_bound; lia.
  - apply Z.div_le_upper_bound; lia.
Qed.

Lemma LatencyStats_summary_witness :
  stat_min (add_all [7; 3; 5] LatencyStats_init) ∈ [7; 3; 5] /\
  stat_total (add_all [7; 3; 5] LatencyStats_init) = 15.
Proof.
  assert ([7; 3; 5] <> ([] : list Z)) as Hne by discriminate.
  assert (Forall (fun t => 0 <= t < 2 ^ 32) [7; 3; 5]) as Hr
    by (repeat constructor; lia).
  destruct (LatencyStats_summary [7; 3; 5] Hne Hr)
    as (Hmin & _ & _ & Htot & _).
  split; [exact Hmin | exact Htot].
Defined.

End Opt511000Facts.

(** * The frame handler and the address mapping, across the sketches *)

Module Framebuffer.




(** C7.  For every unread entry with an in-range pixel [(x, y)] the
    drain calls the write function with row [i / DRAM_COLS] and column
    [i mod DRAM_COLS] of the linear index [i = y * width + x], in both
    sketches, and the stores it makes are those of the write function at
    that address; the address is a function of [(x, y)] only. *)
Theorem drain_address_mapping :
  (forall s, Fb8Fix.ring_wf s ->
     Forall Fb8Fix.in_bounds (Fb8Fix.pending s) ->
     exists s',
       Fb8Fix.applyBufferUpdates s = Some s' /\
       Avr.calls (Fb8Fix.dram s')
       = Avr.calls (Fb8Fix.dram s)
         ++ ((fun u =>
                Avr.WriteCall
                  ((Fb8Fix.upd_y u * Fb8Fix.FRAMEBUFFER_WIDTH
                    + Fb8Fix.upd_x u) / Fb8Fix.DRAM_COLS)
                  ((Fb8Fix.upd_y u * Fb8Fix.FRAMEBUFFER_WIDTH
                    + Fb8Fix.upd_x u) mod Fb8Fix.DRAM_COLS)
                  (Fb8Fix.upd_color u))
               <$> Fb8Fix.pending s) /\
       Fb8Fix.dram s'
       = foldl (fun b u =>
                  Fb8Fix.writeDRAM_bus
                    ((Fb8Fix.upd_y u * Fb8Fix.FRAMEBUFFER_WIDTH
                      + Fb8Fix.upd_x u) / Fb8Fix.DRAM_COLS)
                    ((Fb8Fix.upd_y u * Fb8Fix.FRAMEBUFFER_WIDTH
                      + Fb8Fix.upd_x u) mod Fb8Fix.DRAM_COLS)
                    (Fb8Fix.upd_color u) b)
           (Fb8Fix.dram s) (Fb8Fix.pending s)) /\
  (forall s, Fp6.buffer_wf s ->
     Forall (fun u => 0 <= Fp6.upd_x u < Fp6.FRAMEBUFFER_WIDTH /\
                      0 <= Fp6.upd_y u < Fp6.FRAMEBUFFER_HEIGHT)
       (Fp6.queued s) ->
     Avr.calls (Fp6.dram (Fp6.applyBufferToDRAM s))
     = Avr.calls (Fp6.dram s)
       ++ ((fun u =>
              Avr.WriteCall
                ((Fp6.upd_y u * Fp6.FRAMEBUFFER_WIDTH + Fp6.upd_x u)
                   / Fp6.DRAM_COLS)
                ((Fp6.upd_y u * Fp6.FRAMEBUFFER_WIDTH + Fp6.upd_x u)
                   mod Fp6.DRAM_COLS)
                (Fp6.upd_color u))
             <$> Fp6.queued s) /\
     Fp6.dram (Fp6.applyBufferToDRAM s)
     = foldl (fun b u =>
                Fp6.writeDram_bus
                  ((Fp6.upd_y u * Fp6.FRAMEBUFFER_WIDTH + Fp6.upd_x u)
                     / Fp6.DRAM_COLS)
                  ((Fp6.upd_y u * Fp6.FRAMEBUFFER_WIDTH + Fp6.upd_x u)
                     mod Fp6.DRAM_COLS)
                  (Fp6.upd_color u) b)
         (Fp6.dram s) (Fp6.queued s)) /\
  (forall u v, Fb8Fix.same_pixel u v ->
     Fb8Fix.dram_address u = Fb8Fix.dram_address v) /\
  (forall u v,
     Fp6.upd_x u = Fp6.upd_x v -> Fp6.upd_y u = Fp6.upd_y v ->
     Fp6.dram_address u = Fp6.dram_address v).
Proof.
  split; [|split; [|split]].
  - intros s Hwf Hb. eexists.
    split; [by apply Fb8FixFacts.applyBufferUpdates_spec|].
    cbn [Fb8Fix.dram Fb8Fix.set_read_index Fb8Fix.set_dram]. split.
    + rewrite Fb8FixFacts.apply_updates_calls. f_equal.
      apply Forall_fmap_ext. eapply Forall_impl; [exact Hb|].
      intros u Hu. by apply Fb8FixFacts.write_call_in_bounds.
    + by apply Fb8FixFacts.apply_updates_formula.
  - intros s Hwf Hb. rewrite Fp6Facts.applyBufferToDRAM_spec by exact Hwf.
    cbn [Fp6.dram Fp6.set_dram]. split.
    + rewrite Fp6Facts.fp6_apply_updates_calls. f_equal.
      apply Forall_fmap_ext. eapply Forall_impl; [exact Hb|].
      intros u [Hx Hy]. by apply Fp6Facts.fp6_write_call_in_range.
    + by apply Fp6Facts.fp6_apply_updates_formula.
  - intros u v [Hx Hy]. unfold Fb8Fix.dram_address, Fb8Fix.pixel_index.
    by rewrite Hx, Hy.
  - intros u v Hx Hy. unfold Fp6.dram_address, Fp6.pixelIndex.
    by rewrite Hx, Hy.
Qed.

Lemma drain_address_mapping_witness :
  (exists s',
     Fb8Fix.applyBufferUpdates (Fb8Fix.drawPixel 319 239 15 Fb8Fix.init).2
     = Some s' /\
     Avr.calls (Fb8Fix.dram s') = [Avr.WriteCall 149 511 15]) /\
  Avr.calls
    (Fp6.dram (Fp6.applyBufferToDRAM (Fp6.drawPixel 255 255 15 Fp6.init)))
  = [Avr.WriteCall 127 511 15].
Proof.
  destruct drain_address_mapping as (Hfix & Hfp6 & _ & _).
  split.
  - assert (Fb8Fix.ring_wf (Fb8Fix.drawPixel 319 239 15 Fb8Fix.init).2)
      as Hwf by (apply Fb8FixFacts.drawPixel_wf, Fb8FixFacts.ring_wf_init).
    assert (Fb8Fix.pending (Fb8Fix.drawPixel 319 239 15 Fb8Fix.init).2
            = [Fb8Fix.mkPixelUpdate 319 239 15]) as Hp
      by (vm_compute; reflexivity).
    assert (Forall Fb8Fix.in_bounds
              (Fb8Fix.pending (Fb8Fix.drawPixel 319 239 15 Fb8Fix.init).2))
      as Hb.
    { rewrite Hp. constructor; [|constructor].
      split; vm_compute; split; discriminate || reflexivity. }
    destruct (Hfix _ Hwf Hb) as (s' & Hs' & Hc & _).
    exists s'. split; [exact Hs'|]. rewrite Hc, Hp. reflexivity.
  - assert (Fp6.buffer_wf (Fp6.drawPixel 255 255 15 Fp6.init)) as Hwf
      by (unfold Fp6.buffer_wf; vm_compute; split; discriminate).
    assert (Fp6.queued (Fp6.drawPixel 255 255 15 Fp6.init)
            = [Fp6.mkPixelUpdate 255 255 15]) as Hq
      by (vm_compute; reflexivity).
    assert (Forall (fun u => 0 <= Fp6.upd_x u < Fp6.FRAMEBUFFER_WIDTH /\
                             0 <= Fp6.upd_y u < Fp6.FRAMEBUFFER_HEIGHT)
              (Fp6.queued (Fp6.drawPixel 255 255 15 Fp6.init))) as Hb.
    { rewrite Hq. constructor; [|constructor].
      split; vm_compute; split; discriminate || reflexivity. }
    destruct (Hfp6 _ Hwf Hb) as (Hc & _).
    rewrite Hc, Hq. reflexivity.
Defined.

End Framebuffer.
